(** * djblets.extensions.base: the extension lifecycle manager

    A shallow embedding of [djblets/extensions/base.py] (Python 2) and the
    proofs of the properties its specification states about it.

    Python objects are identified as follows.  An extension class is
    identified by its id, the string [module.ClassName] that [load] stores in
    [ext_class.id] and uses as the key of [_extension_classes]; the attributes
    that the manager sets on class objects ([info], [registration]) live in two
    attribute tables of the world, so that they survive the removal of the
    class from [_extension_classes], as they do in Python.  A class reads
    the attributes set on itself: extension classes are taken not to be
    subclasses of one another, since a subclass would read the [info] and the
    [registration] of its base class as long as it has none of its own.
    Extension instances, hooks and URL resolvers are compared by identity in Python and
    carry an object number here.  Exceptions are values; a call returns the
    world it reached together with either a value or the exception raised.
    The recursion of [enable_extension] and [disable_extension] is bounded by
    the interpreter's recursion limit, which is the [depth] argument. *)

From Stdlib Require Import Ascii.
From stdpp Require Import base option list strings gmap fin_maps pretty.

(** ** Exceptions and results *)

Inductive exn : Type :=
  | InvalidExtensionError (extension_id : string)
  | EnablingExtensionError (message : string)
  | InstallExtensionError (message : string)
  | CommandError (message : string)
  | ImproperlyConfigured (message : string)
  | OSError (path : string)
  | ValueError
  | TypeError
  | KeyError (key : string)
  | AttributeError (attr : string)
  | AssertionError
  | RuntimeError (message : string).

Inductive result (A : Type) : Type :=
  | Return (a : A)
  | Raise (e : exn).
Arguments Return {A} a.
Arguments Raise {A} e.

#[global] Instance exn_eq_dec : EqDecision exn.
Proof. solve_decision. Defined.

(** ** Data model *)

(** What the JSON field [settings] of a registration holds, as
    [dict.update] sees it.  It is a mapping, as [Settings.save] stores it, or
    any other value: [update] then inserts the leading key/value pairs of the
    value one after the other, and ends when there is none left or raises
    [stop]: [ValueError] for a blob that does not decode and for an item
    that is not a pair, [TypeError] for a value or an item that cannot be
    iterated over, such as [None] or a number. *)
Inductive stored_settings : Type :=
  | stored_mapping (d : gmap string string)
  | stored_items (items : list (string * string)) (stop : option exn).

#[global] Instance stored_settings_eq_dec : EqDecision stored_settings.
Proof. solve_decision. Defined.

(** [RegisteredExtension]: the registration record; [reg_settings] is the
    JSON field. *)
Record RegisteredExtension : Type := {
  reg_class_name : string;
  reg_name : string;
  reg_enabled : bool;
  reg_installed : bool;
  reg_settings : stored_settings
}.

(** [ExtensionInfo]: the fields the manager reads and writes.  The attribute
    [requirements] is only set by the last loop of [load]. *)
Record ExtensionInfo : Type := {
  info_name : string;
  info_app_name : string;
  info_enabled : bool;
  info_installed : bool;
  info_is_configurable : bool;
  info_htdocs_path : string;
  info_requirements : option (list string)
}.

(** [ExtensionHook]: [hook_point] names the base hook class whose metaclass is
    [ExtensionHookPoint]; [hook_extension] is the object number of the owner. *)
Record ExtensionHook : Type := {
  hook_obj : nat;
  hook_point : string;
  hook_extension : nat
}.

Record urlpattern : Type := {
  url_obj : nat;
  url_regex : string
}.

(** [Extension]: a live instance.  [admin_urlpatterns] is [None] until
    [_install_admin_urls] sets the attribute. *)
Record Extension : Type := {
  ext_obj : nat;
  ext_id : string;
  hooks : list ExtensionHook;
  admin_urlpatterns : option (list urlpattern);
  settings : gmap string string
}.

#[global] Instance RegisteredExtension_eq_dec : EqDecision RegisteredExtension.
Proof. solve_decision. Defined.
#[global] Instance ExtensionInfo_eq_dec : EqDecision ExtensionInfo.
Proof. solve_decision. Defined.
#[global] Instance ExtensionHook_eq_dec : EqDecision ExtensionHook.
Proof. solve_decision. Defined.
#[global] Instance urlpattern_eq_dec : EqDecision urlpattern.
Proof. solve_decision. Defined.
#[global] Instance Extension_eq_dec : EqDecision Extension.
Proof. solve_decision. Defined.

(** The observable steps, in the order they happen. *)
Inductive event : Type :=
  | ev_rmtree (path : string)
  | ev_copytree (module path : string)
  | ev_save (r : RegisteredExtension)
  | ev_syncdb
  | ev_evolve
  | ev_log_error (message : string)
  | ev_print (entrypoint : string)
  | ev_add_to_installed_apps (app : string)
  | ev_remove_from_installed_apps (app : string)
  | ev_reset_templatetags_cache
  | ev_install_admin_urls (l : list urlpattern)
  | ev_remove_admin_url (u : urlpattern)
  | ev_add_hook (h : ExtensionHook)
  | ev_shutdown (extension : nat)
  | ev_remove_hook (h : ExtensionHook)
  | extension_initialized (extension_id : string) (extension : nat)
  | extension_uninitialized (extension_id : string) (extension : nat)
  | ev_del_instance (extension_id : string).

#[global] Instance event_eq_dec : EqDecision event.
Proof. solve_decision. Defined.

(** What the packages and the host provide: the class attributes of every
    extension class, and the outcome of the calls that leave the manager.
    The constructor of an extension class is code of the package: it makes
    the hooks of [cls_hooks], in this order, and then returns, or raises the
    exception [cls_init_raises]. *)
Record ExtensionClass : Type := {
  cls_module : string;
  cls_requirements : list string;
  cls_is_configurable : bool;
  cls_hooks : list string;
  cls_init_raises : option exn
}.

Record Env : Type := {
  ext_class : string → ExtensionClass;
  EXTENSIONS_STATIC_ROOT : string;
  admin_prefix : string;
  resource_exists_htdocs : string → bool;
  copytree_fails : string → bool;
  evolve_error : string → option string;
  admin_urlconf : string → option bool
}.

(** The world: the manager's two dictionaries, the attributes set on the
    extension classes, and the host state the manager changes.  [htdocs]
    holds the paths that exist below the static root, [unremovable] those
    that [shutil.rmtree] cannot remove (a regular file, a directory without
    the permission); the manager never changes the latter. *)
Record World : Type := {
  cls_info : gmap string ExtensionInfo;
  cls_registration : gmap string RegisteredExtension;
  _extension_classes : list string;
  _extension_instances : gmap string Extension;
  url_patterns : list urlpattern;
  INSTALLED_APPS : list string;
  objects : gmap string RegisteredExtension;
  htdocs : list string;
  unremovable : list string;
  hook_points : gmap string (list ExtensionHook);
  next_obj : nat;
  trace : list event
}.

Definition set_cls_info (f : gmap string ExtensionInfo → gmap string ExtensionInfo)
    (w : World) : World :=
  {| cls_info := f (cls_info w); cls_registration := cls_registration w;
     _extension_classes := _extension_classes w;
     _extension_instances := _extension_instances w;
     url_patterns := url_patterns w; INSTALLED_APPS := INSTALLED_APPS w;
     objects := objects w; htdocs := htdocs w;
     unremovable := unremovable w; hook_points := hook_points w;
     next_obj := next_obj w; trace := trace w |}.

Definition set_cls_registration
    (f : gmap string RegisteredExtension → gmap string RegisteredExtension)
    (w : World) : World :=
  {| cls_info := cls_info w; cls_registration := f (cls_registration w);
     _extension_classes := _extension_classes w;
     _extension_instances := _extension_instances w;
     url_patterns := url_patterns w; INSTALLED_APPS := INSTALLED_APPS w;
     objects := objects w; htdocs := htdocs w;
     unremovable := unremovable w; hook_points := hook_points w;
     next_obj := next_obj w; trace := trace w |}.

Definition set_extension_classes (f : list string → list string) (w : World) : World :=
  {| cls_info := cls_info w; cls_registration := cls_registration w;
     _extension_classes := f (_extension_classes w);
     _extension_instances := _extension_instances w;
     url_patterns := url_patterns w; INSTALLED_APPS := INSTALLED_APPS w;
     objects := objects w; htdocs := htdocs w;
     unremovable := unremovable w; hook_points := hook_points w;
     next_obj := next_obj w; trace := trace w |}.

Definition set_extension_instances
    (f : gmap string Extension → gmap string Extension) (w : World) : World :=
  {| cls_info := cls_info w; cls_registration := cls_registration w;
     _extension_classes := _extension_classes w;
     _extension_instances := f (_extension_instances w);
     url_patterns := url_patterns w; INSTALLED_APPS := INSTALLED_APPS w;
     objects := objects w; htdocs := htdocs w;
     unremovable := unremovable w; hook_points := hook_points w;
     next_obj := next_obj w; trace := trace w |}.

Definition set_url_patterns (f : list urlpattern → list urlpattern) (w : World) : World :=
  {| cls_info := cls_info w; cls_registration := cls_registration w;
     _extension_classes := _extension_classes w;
     _extension_instances := _extension_instances w;
     url_patterns := f (url_patterns w); INSTALLED_APPS := INSTALLED_APPS w;
     objects := objects w; htdocs := htdocs w;
     unremovable := unremovable w; hook_points := hook_points w;
     next_obj := next_obj w; trace := trace w |}.

Definition set_INSTALLED_APPS (f : list string → list string) (w : World) : World :=
  {| cls_info := cls_info w; cls_registration := cls_registration w;
     _extension_classes := _extension_classes w;
     _extension_instances := _extension_instances w;
     url_patterns := url_patterns w; INSTALLED_APPS := f (INSTALLED_APPS w);
     objects := objects w; htdocs := htdocs w;
     unremovable := unremovable w; hook_points := hook_points w;
     next_obj := next_obj w; trace := trace w |}.

Definition set_objects
    (f : gmap string RegisteredExtension → gmap string RegisteredExtension)
    (w : World) : World :=
  {| cls_info := cls_info w; cls_registration := cls_registration w;
     _extension_classes := _extension_classes w;
     _extension_instances := _extension_instances w;
     url_patterns := url_patterns w; INSTALLED_APPS := INSTALLED_APPS w;
     objects := f (objects w); htdocs := htdocs w;
     unremovable := unremovable w; hook_points := hook_points w;
     next_obj := next_obj w; trace := trace w |}.

Definition set_htdocs (f : list string → list string) (w : World) : World :=
  {| cls_info := cls_info w; cls_registration := cls_registration w;
     _extension_classes := _extension_classes w;
     _extension_instances := _extension_instances w;
     url_patterns := url_patterns w; INSTALLED_APPS := INSTALLED_APPS w;
     objects := objects w; htdocs := f (htdocs w);
     unremovable := unremovable w; hook_points := hook_points w;
     next_obj := next_obj w; trace := trace w |}.

Definition set_hook_points
    (f : gmap string (list ExtensionHook) → gmap string (list ExtensionHook))
    (w : World) : World :=
  {| cls_info := cls_info w; cls_registration := cls_registration w;
     _extension_classes := _extension_classes w;
     _extension_instances := _extension_instances w;
     url_patterns := url_patterns w; INSTALLED_APPS := INSTALLED_APPS w;
     objects := objects w; htdocs := htdocs w;
     unremovable := unremovable w; hook_points := f (hook_points w);
     next_obj := next_obj w; trace := trace w |}.

Definition set_next_obj (f : nat → nat) (w : World) : World :=
  {| cls_info := cls_info w; cls_registration := cls_registration w;
     _extension_classes := _extension_classes w;
     _extension_instances := _extension_instances w;
     url_patterns := url_patterns w; INSTALLED_APPS := INSTALLED_APPS w;
     objects := objects w; htdocs := htdocs w;
     unremovable := unremovable w; hook_points := hook_points w;
     next_obj := f (next_obj w); trace := trace w |}.

Definition set_trace (f : list event → list event) (w : World) : World :=
  {| cls_info := cls_info w; cls_registration := cls_registration w;
     _extension_classes := _extension_classes w;
     _extension_instances := _extension_instances w;
     url_patterns := url_patterns w; INSTALLED_APPS := INSTALLED_APPS w;
     objects := objects w; htdocs := htdocs w;
     unremovable := unremovable w; hook_points := hook_points w;
     next_obj := next_obj w; trace := f (trace w) |}.

(** ** The monad of calls: a world in, a world and a result out *)

Definition M (A : Type) : Type := World → World * result A.

Definition ret {A} (a : A) : M A := λ w, (w, Return a).
Definition raise {A} (e : exn) : M A := λ w, (w, Raise e).
Definition bind {A B} (m : M A) (k : A → M B) : M B :=
  λ w, match m w with
       | (w', Return a) => k a w'
       | (w', Raise e) => (w', Raise e)
       end.
Definition gets {A} (f : World → A) : M A := λ w, (w, Return (f w)).
Definition modify (f : World → World) : M unit := λ w, (f w, Return tt).
Definition emit (e : event) : M unit := modify (set_trace (λ t, t ++ [e])).

(** [try: m except e: h e], where [h] answers [None] for the exceptions the
    [except] clause does not name. *)
Definition try_except {A} (m : M A) (h : exn → option (M A)) : M A :=
  λ w, match m w with
       | (w', Return a) => (w', Return a)
       | (w', Raise e) =>
           match h e with
           | Some k => k w'
           | None => (w', Raise e)
           end
       end.

(** An attribute or dictionary access that raises when the entry is absent. *)
Definition attr {A} (o : option A) (e : exn) : M A :=
  match o with
  | Some a => ret a
  | None => raise e
  end.

Declare Scope call_scope.
Delimit Scope call_scope with call.
Notation "x <- m ;; k" := (bind m (λ x, k))
  (at level 100, m at next level, right associativity) : call_scope.
Notation "m ;;; k" := (bind m (λ _, k))
  (at level 100, right associativity) : call_scope.
Open Scope call_scope.

(** [for x in l: body x] *)
Fixpoint for_each {A} (l : list A) (body : A → M unit) : M unit :=
  match l with
  | [] => ret tt
  | x :: l' => body x ;;; for_each l' body
  end.

(** ** Python containers *)

(** [l.remove(x)]: drops the first occurrence; [None] is the [ValueError]
    of an absent element. *)
Fixpoint list_remove {A} `{EqDecision A} (x : A) (l : list A) : option (list A) :=
  match l with
  | [] => None
  | y :: l' => if decide (x = y) then Some l' else (y ::.) <$> list_remove x l'
  end.

(** [d.update(other)]: the entries of [other] win. *)
Definition dict_update (d other : gmap string string) : gmap string string :=
  other ∪ d.

(** The dictionary [_extension_classes] maps an id to the class of that id, so
    it is given by its keys, kept in iteration order. *)
Definition dict_setitem (k : string) (keys : list string) : list string :=
  if bool_decide (k ∈ keys) then keys else keys ++ [k].

Definition dict_delitem (k : string) (keys : list string) : list string :=
  filter (λ x, x ≠ k) keys.

(** ** Settings *)

(** [d.update(items)] for a sequence of pairs: the pairs are inserted one
    after the other. *)
Definition dict_update_items (d : gmap string string)
    (items : list (string * string)) : gmap string string :=
  foldl (λ m kv, <[kv.1 := kv.2]> m) d items.

(** [self.update(registration.settings)], on the dictionary [self]: the
    dictionary it leaves, and whether it returned or raised. *)
Definition Settings_update (registration : RegisteredExtension)
    (self : gmap string string) : gmap string string * result unit :=
  match reg_settings registration with
  | stored_mapping d => (dict_update self d, Return tt)
  | stored_items items stop =>
      (dict_update_items self items,
       match stop with
       | Some e => Raise e
       | None => Return tt
       end)
  end.

(** [Settings.load], on the dictionary [self] of an extension whose
    registration is [registration]:
    [try: self.update(registration.settings) except ValueError: pass]. *)
Definition Settings_load (registration : RegisteredExtension)
    (self : gmap string string) : gmap string string * result unit :=
  match Settings_update registration self with
  | (self', Raise ValueError) => (self', Return tt)
  | outcome => outcome
  end.

(** ** Attribute access on extension classes *)

Definition get_info (c : string) : M ExtensionInfo :=
  w <- gets cls_info ;; attr (w !! c) (AttributeError "info").

Definition get_registration (c : string) : M RegisteredExtension :=
  w <- gets cls_registration ;; attr (w !! c) (AttributeError "registration").

Definition set_reg_enabled (b : bool) (r : RegisteredExtension) : RegisteredExtension :=
  {| reg_class_name := reg_class_name r; reg_name := reg_name r;
     reg_enabled := b; reg_installed := reg_installed r;
     reg_settings := reg_settings r |}.

Definition set_reg_installed (b : bool) (r : RegisteredExtension) : RegisteredExtension :=
  {| reg_class_name := reg_class_name r; reg_name := reg_name r;
     reg_enabled := reg_enabled r; reg_installed := b;
     reg_settings := reg_settings r |}.

Definition set_reg_settings (d : stored_settings) (r : RegisteredExtension)
    : RegisteredExtension :=
  {| reg_class_name := reg_class_name r; reg_name := reg_name r;
     reg_enabled := reg_enabled r; reg_installed := reg_installed r;
     reg_settings := d |}.

Definition set_info_enabled (b : bool) (i : ExtensionInfo) : ExtensionInfo :=
  {| info_name := info_name i; info_app_name := info_app_name i;
     info_enabled := b; info_installed := info_installed i;
     info_is_configurable := info_is_configurable i;
     info_htdocs_path := info_htdocs_path i;
     info_requirements := info_requirements i |}.

Definition set_info_installed (b : bool) (i : ExtensionInfo) : ExtensionInfo :=
  {| info_name := info_name i; info_app_name := info_app_name i;
     info_enabled := info_enabled i; info_installed := b;
     info_is_configurable := info_is_configurable i;
     info_htdocs_path := info_htdocs_path i;
     info_requirements := info_requirements i |}.

Definition set_info_requirements (l : list string) (i : ExtensionInfo) : ExtensionInfo :=
  {| info_name := info_name i; info_app_name := info_app_name i;
     info_enabled := info_enabled i; info_installed := info_installed i;
     info_is_configurable := info_is_configurable i;
     info_htdocs_path := info_htdocs_path i;
     info_requirements := Some l |}.

(** [c.registration.<field> = ...] and [c.info.<field> = ...] *)
Definition update_registration (c : string)
    (f : RegisteredExtension → RegisteredExtension) : M unit :=
  r <- get_registration c ;;
  modify (set_cls_registration (<[c := f r]>)).

Definition update_info (c : string) (f : ExtensionInfo → ExtensionInfo) : M unit :=
  i <- get_info c ;;
  modify (set_cls_info (<[c := f i]>)).

(** [c.registration.save()]: the row of the record's class name is replaced. *)
Definition registration_save (c : string) : M unit :=
  r <- get_registration c ;;
  modify (set_objects (<[reg_class_name r := r]>)) ;;;
  emit (ev_save r).

(** [Settings.save] of the extension [self]. *)
Definition Settings_save (self : Extension) : M unit :=
  update_registration (ext_id self) (set_reg_settings (stored_mapping (settings self))) ;;;
  registration_save (ext_id self).

(** A new object. *)
Definition new_object : M nat :=
  n <- gets next_obj ;; modify (set_next_obj S) ;;; ret n.

(** ** Hooks and hook points *)

Definition point_hooks (w : World) (point : string) : list ExtensionHook :=
  default [] (hook_points w !! point).

(** [ExtensionHookPoint.add_hook] *)
Definition add_hook (hook : ExtensionHook) : M unit :=
  l <- gets (λ w, point_hooks w (hook_point hook)) ;;
  modify (set_hook_points (<[hook_point hook := l ++ [hook]]>)) ;;;
  emit (ev_add_hook hook).

(** [ExtensionHookPoint.remove_hook] *)
Definition remove_hook (hook : ExtensionHook) : M unit :=
  l <- gets (λ w, point_hooks w (hook_point hook)) ;;
  l' <- attr (list_remove hook l) ValueError ;;
  modify (set_hook_points (<[hook_point hook := l']>)) ;;;
  emit (ev_remove_hook hook).

(** [ExtensionHook.__init__] of a hook of the given hook point, for the
    extension object [extension]; the new hook is returned so that the caller
    records it in [extension.hooks]. *)
Definition ExtensionHook_init (extension : nat) (point : string) : M ExtensionHook :=
  o <- new_object ;;
  let hook := {| hook_obj := o; hook_point := point; hook_extension := extension |} in
  add_hook hook ;;;
  ret hook.

(** [ExtensionHook.shutdown] *)
Definition ExtensionHook_shutdown (hook : ExtensionHook) : M unit :=
  remove_hook hook.

Fixpoint create_hooks (extension : nat) (points : list string) : M (list ExtensionHook) :=
  match points with
  | [] => ret []
  | p :: points' =>
      h <- ExtensionHook_init extension p ;;
      hs <- create_hooks extension points' ;;
      ret (h :: hs)
  end.

(** [ext_class()]: [Extension.__init__] makes the empty hook set and the
    settings, which are loaded at once, an error of [Settings.load] ending
    the construction; the constructor of the subclass then makes one hook
    for each hook point of [cls_hooks], and returns the instance or raises
    [cls_init_raises].  A hook that was made stays with its hook point when
    the constructor raises. *)
Definition Extension_init (env : Env) (c : string) : M Extension :=
  o <- new_object ;;
  registration <- get_registration c ;;
  match Settings_load registration ∅ with
  | (_, Raise e) => raise e
  | (d, Return _) =>
      hs <- create_hooks o (cls_hooks (ext_class env c)) ;;
      match cls_init_raises (ext_class env c) with
      | Some e => raise e
      | None =>
          ret {| ext_obj := o; ext_id := c; hooks := hs;
                 admin_urlpatterns := None; settings := d |}
      end
  end.

(** [Extension.shutdown], the method of the base class: it shuts down every
    hook of the instance's own set. *)
Definition Extension_shutdown (extension : Extension) : M unit :=
  emit (ev_shutdown (ext_obj extension)) ;;;
  for_each (hooks extension) ExtensionHook_shutdown.

(** ** ExtensionManager *)

Definition RECURSION_LIMIT : exn :=
  RuntimeError "maximum recursion depth exceeded".

Definition DICT_CHANGED_SIZE : exn :=
  RuntimeError "dictionary changed size during iteration".

Definition get_enabled_extension (extension_id : string) (w : World) : option Extension :=
  _extension_instances w !! extension_id.

Definition get_installed_extension (extension_id : string) : M string :=
  classes <- gets _extension_classes ;;
  if bool_decide (extension_id ∈ classes) then ret extension_id
  else raise (InvalidExtensionError extension_id).

(** The two loops of [get_dependent_extensions]: [items] is what is left of
    [_extension_classes.iteritems()]. *)
Fixpoint dependents_loop (dependency : string) (items : list string)
    (result : list string) : M (list string) :=
  match items with
  | [] => ret result
  | extension_id :: items' =>
      if decide (extension_id = dependency)
      then dependents_loop dependency items' result
      else
        info <- get_info extension_id ;;
        requirements <- attr (info_requirements info) (AttributeError "requirements") ;;
        dependents_loop dependency items'
          (result ++ ((λ _, extension_id) <$> filter (λ r, r = dependency) requirements))
  end.

Definition get_dependent_extensions (dependency_extension_id : string)
    : M (list string) :=
  instances <- gets _extension_instances ;;
  match instances !! dependency_extension_id with
  | None => raise (InvalidExtensionError dependency_extension_id)
  | Some _ =>
      dependency <- get_installed_extension dependency_extension_id ;;
      classes <- gets _extension_classes ;;
      dependents_loop dependency classes []
  end.

Definition _add_to_installed_apps (c : string) : M unit :=
  info <- get_info c ;;
  emit (ev_add_to_installed_apps (info_app_name info)) ;;;
  apps <- gets INSTALLED_APPS ;;
  if bool_decide (info_app_name info ∈ apps) then ret tt
  else modify (set_INSTALLED_APPS (λ l, l ++ [info_app_name info])).

Definition _remove_from_installed_apps (c : string) : M unit :=
  info <- get_info c ;;
  emit (ev_remove_from_installed_apps (info_app_name info)) ;;;
  apps <- gets INSTALLED_APPS ;;
  match list_remove (info_app_name info) apps with
  | Some apps' => modify (set_INSTALLED_APPS (λ _, apps'))
  | None => ret tt
  end.

Definition _reset_templatetags_cache : M unit :=
  emit ev_reset_templatetags_cache.

(** [shutil.rmtree(path, ignore_errors=True)]: the path is removed unless it
    is one that cannot be; the call returns in both cases, the error being
    ignored. *)
Definition rmtree (path : string) : M unit :=
  stuck <- gets unremovable ;;
  (if bool_decide (path ∈ stuck) then ret tt
   else modify (set_htdocs (dict_delitem path))) ;;;
  emit (ev_rmtree path).

(** [shutil.copytree(extracted_path, path, symlinks=True)] of the [htdocs]
    resource of [module]: it raises when the destination exists and when the
    copy fails. *)
Definition copytree (env : Env) (module path : string) : M unit :=
  dirs <- gets htdocs ;;
  if bool_decide (path ∈ dirs) then raise (OSError path)
  else if copytree_fails env module then raise (OSError path)
  else
    modify (set_htdocs (λ l, l ++ [path])) ;;;
    emit (ev_copytree module path).

(** [Evolution().evolve(...)] while the extension [c] is installed. *)
Definition evolve (env : Env) (c : string) : M unit :=
  match evolve_error env c with
  | Some message => raise (CommandError message)
  | None => emit ev_evolve
  end.

Definition _install_extension (env : Env) (c : string) : M unit :=
  info <- get_info c ;;
  let ext_path := info_htdocs_path info in
  dirs <- gets htdocs ;;
  (if bool_decide (ext_path ∈ dirs) then rmtree ext_path else ret tt) ;;;
  (if resource_exists_htdocs env (cls_module (ext_class env c))
   then copytree env (cls_module (ext_class env c)) ext_path
   else ret tt) ;;;
  update_registration c (set_reg_installed true) ;;;
  registration_save c ;;;
  _add_to_installed_apps c ;;;
  emit ev_syncdb ;;;
  try_except (evolve env c)
    (λ e, match e with
          | CommandError message =>
              Some (emit (ev_log_error message) ;;;
                    raise (InstallExtensionError message))
          | _ => None
          end) ;;;
  _remove_from_installed_apps c ;;;
  update_registration c (set_reg_installed true) ;;;
  registration_save c.

Definition _uninstall_extension (extension : Extension) : M unit :=
  info <- get_info (ext_id extension) ;;
  let ext_path := info_htdocs_path info in
  dirs <- gets htdocs ;;
  if bool_decide (ext_path ∈ dirs) then rmtree ext_path else ret tt.

Definition set_admin_urlpatterns (l : list urlpattern) (e : Extension) : Extension :=
  {| ext_obj := ext_obj e; ext_id := ext_id e; hooks := hooks e;
     admin_urlpatterns := Some l; settings := settings e |}.

(** [_install_admin_urls]; the attribute [admin_urlpatterns] is set on the
    instance that [_extension_instances] already holds, and the instance so
    changed is returned. *)
Definition _install_admin_urls (env : Env) (extension : Extension) : M Extension :=
  match admin_urlconf env (ext_id extension) with
  | None =>
      raise (ImproperlyConfigured "Error while importing extension's admin URLconf")
  | Some false => ret extension
  | Some true =>
      o <- new_object ;;
      let l := [ {| url_obj := o;
                    url_regex := ("^" ++ admin_prefix env ++ ext_id extension
                                  ++ "/config/")%string |} ] in
      let extension' := set_admin_urlpatterns l extension in
      modify (set_extension_instances (<[ext_id extension := extension']>)) ;;;
      modify (set_url_patterns (λ p, p ++ l)) ;;;
      emit (ev_install_admin_urls l) ;;;
      ret extension'
  end.

Definition _init_extension (env : Env) (c : string) : M Extension :=
  instances <- gets _extension_instances ;;
  match instances !! c with
  | Some _ => raise AssertionError
  | None =>
      extension <- Extension_init env c ;;
      modify (set_extension_instances (<[ext_id extension := extension]>)) ;;;
      extension <- (if cls_is_configurable (ext_class env c)
                    then _install_admin_urls env extension
                    else ret extension) ;;
      registration <- get_registration c ;;
      update_info c (set_info_installed (reg_installed registration)) ;;;
      update_info c (set_info_enabled true) ;;;
      _add_to_installed_apps c ;;;
      _reset_templatetags_cache ;;;
      emit (extension_initialized c (ext_obj extension)) ;;;
      ret extension
  end.

Definition remove_urlpattern (u : urlpattern) : M unit :=
  p <- gets url_patterns ;;
  p' <- attr (list_remove u p) ValueError ;;
  modify (set_url_patterns (λ _, p')) ;;;
  emit (ev_remove_admin_url u).

Definition _uninit_extension (extension : Extension) : M unit :=
  Extension_shutdown extension ;;;
  match admin_urlpatterns extension with
  | Some l => for_each l remove_urlpattern
  | None => ret tt
  end ;;;
  _remove_from_installed_apps (ext_id extension) ;;;
  _reset_templatetags_cache ;;;
  update_info (ext_id extension) (set_info_enabled false) ;;;
  emit (extension_uninitialized (ext_id extension) (ext_obj extension)) ;;;
  instances <- gets _extension_instances ;;
  match instances !! ext_id extension with
  | None => raise (KeyError (ext_id extension))
  | Some _ =>
      modify (set_extension_instances (delete (ext_id extension))) ;;;
      emit (ev_del_instance (ext_id extension))
  end.

(** [enable_extension]; the result is [None] where Python returns [None]. *)
Fixpoint enable_extension (env : Env) (depth : nat) (extension_id : string)
    : M (option Extension) :=
  match depth with
  | 0 => raise RECURSION_LIMIT
  | S depth' =>
      instances <- gets _extension_instances ;;
      match instances !! extension_id with
      | Some _ => ret None
      | None =>
          classes <- gets _extension_classes ;;
          if bool_decide (extension_id ∈ classes) then
            for_each (cls_requirements (ext_class env extension_id))
              (λ requirement_id,
                 enable_extension env depth' requirement_id ;;; ret tt) ;;;
            try_except (_install_extension env extension_id)
              (λ e, match e with
                    | InstallExtensionError message =>
                        Some (raise (EnablingExtensionError message))
                    | _ => None
                    end) ;;;
            update_registration extension_id (set_reg_enabled true) ;;;
            registration_save extension_id ;;;
            extension <- _init_extension env extension_id ;;
            ret (Some extension)
          else raise (InvalidExtensionError extension_id)
      end
  end.

Fixpoint disable_extension (depth : nat) (extension_id : string) : M unit :=
  match depth with
  | 0 => raise RECURSION_LIMIT
  | S depth' =>
      instances <- gets _extension_instances ;;
      match instances !! extension_id with
      | None => ret tt
      | Some extension =>
          classes <- gets _extension_classes ;;
          if bool_decide (extension_id ∈ classes) then
            dependents <- get_dependent_extensions extension_id ;;
            for_each dependents (disable_extension depth') ;;;
            _uninstall_extension extension ;;;
            _uninit_extension extension ;;;
            update_registration (ext_id extension) (set_reg_enabled false) ;;;
            registration_save (ext_id extension)
          else raise (InvalidExtensionError extension_id)
      end
  end.

(** ** Discovery: [load] *)

(** An entry point of [pkg_resources.iter_entry_points(self.key)].  [ep_load]
    is the class that [entrypoint.load()] returns, and [None] when that call,
    or the construction of the [ExtensionInfo] after it, raises. *)
Record EntryPoint : Type := {
  ep_name : string;
  ep_load : option string;
  ep_project_name : string
}.

(** ['.'.join(module.split('.')[:-1])]: [Some] of the text before the last
    dot, [None] when there is no dot. *)
Fixpoint before_last_dot (s : string) : option string :=
  match s with
  | EmptyString => None
  | String a s' =>
      match before_last_dot s' with
      | Some p => Some (String a p)
      | None => if Ascii.eqb a "."%char then Some EmptyString else None
      end
  end.

Definition app_name_of (module : string) : string :=
  default EmptyString (before_last_dot module).

(** [ExtensionInfo.__init__]; [os.path.join] is taken on a root without a
    trailing separator and a relative name. *)
Definition ExtensionInfo_init (env : Env) (entrypoint : EntryPoint) (c : string)
    : ExtensionInfo :=
  {| info_name := ep_project_name entrypoint;
     info_app_name := app_name_of (cls_module (ext_class env c));
     info_enabled := false;
     info_installed := false;
     info_is_configurable := cls_is_configurable (ext_class env c);
     info_htdocs_path :=
       (EXTENSIONS_STATIC_ROOT env ++ "/" ++ ep_project_name entrypoint)%string;
     info_requirements := None |}.

(** Modelled from the spec: the defaults of a new [RegisteredExtension], whose
    model class ([djblets/extensions/models.py]) is not among the sources; a
    record starts as Registered, [installed=false] and [enabled=false], with
    an empty settings mapping. *)
Definition RegisteredExtension_new (class_name name : string) : RegisteredExtension :=
  {| reg_class_name := class_name; reg_name := name;
     reg_enabled := false; reg_installed := false;
     reg_settings := stored_mapping ∅ |}.

(** The body of the first loop of [load], for one entry point; [found] is
    [found_extensions], given by its keys as [_extension_classes] is. *)
Definition load_entrypoint (env : Env)
    (registered_extensions : gmap string RegisteredExtension)
    (found : list string) (entrypoint : EntryPoint) : M (list string) :=
  match ep_load entrypoint with
  | None => emit (ev_print (ep_name entrypoint)) ;;; ret found
  | Some c =>
      infos <- gets cls_info ;;
      match infos !! c with
      | Some _ => ret tt
      | None => modify (set_cls_info (<[c := ExtensionInfo_init env entrypoint c]>))
      end ;;;
      modify (set_extension_classes (dict_setitem c)) ;;;
      registrations <- gets cls_registration ;;
      match registrations !! c with
      | Some _ => ret tt
      | None =>
          registered_ext <-
            match registered_extensions !! c with
            | Some r => ret r
            | None =>
                rows <- gets objects ;;
                match rows !! c with
                | Some r => ret r
                | None =>
                    let r := RegisteredExtension_new c (ep_project_name entrypoint) in
                    modify (set_objects (<[c := r]>)) ;;;
                    emit (ev_save r) ;;;
                    ret r
                end
            end ;;
          modify (set_cls_registration (<[c := registered_ext]>))
      end ;;;
      registration <- get_registration c ;;
      instances <- gets _extension_instances ;;
      match reg_enabled registration, instances !! c with
      | true, None => _init_extension env c ;;; ret tt
      | _, _ => ret tt
      end ;;;
      ret (dict_setitem c found)
  end.

Fixpoint load_entrypoints (env : Env)
    (registered_extensions : gmap string RegisteredExtension)
    (found : list string) (entrypoints : list EntryPoint) : M (list string) :=
  match entrypoints with
  | [] => ret found
  | entrypoint :: entrypoints' =>
      found' <- load_entrypoint env registered_extensions found entrypoint ;;
      load_entrypoints env registered_extensions found' entrypoints'
  end.

(** [[f(x) for x in l]] *)
Fixpoint map_calls {A B} (f : A → M B) (l : list A) : M (list B) :=
  match l with
  | [] => ret []
  | x :: l' => y <- f x ;; ys <- map_calls f l' ;; ret (y :: ys)
  end.

(** The last loop of [load], over [_extension_classes.iteritems()].  A
    dictionary iterator of Python 2 compares, each time the next item is asked
    for, the size of the dictionary with its size when the iteration began
    ([size]), and raises [RuntimeError] when they differ; [items] is what is
    left of the iteration. *)
Fixpoint load_reconcile (env : Env) (depth : nat) (found : list string)
    (size : nat) (items : list string) : M unit :=
  match items with
  | [] =>
      classes <- gets _extension_classes ;;
      if bool_decide (length classes = size) then ret tt
      else raise DICT_CHANGED_SIZE
  | class_name :: items' =>
      classes <- gets _extension_classes ;;
      if bool_decide (length classes = size) then
        (if bool_decide (class_name ∈ found) then
           requirements <- map_calls get_installed_extension
                             (cls_requirements (ext_class env class_name)) ;;
           update_info class_name (set_info_requirements requirements)
         else
           instances <- gets _extension_instances ;;
           match instances !! class_name with
           | Some _ => disable_extension depth class_name
           | None => ret tt
           end ;;;
           modify (set_extension_classes (dict_delitem class_name))) ;;;
        load_reconcile env depth found size items'
      else raise DICT_CHANGED_SIZE
  end.

Definition load (env : Env) (depth : nat) (entrypoints : list EntryPoint) : M unit :=
  registered_extensions <- gets objects ;;
  found <- load_entrypoints env registered_extensions [] entrypoints ;;
  classes <- gets _extension_classes ;;
  load_reconcile env depth found (length classes) classes.

(** [ExtensionManager.__init__] in a host with nothing registered yet. *)
Definition ExtensionManager_init : World :=
  {| cls_info := ∅; cls_registration := ∅; _extension_classes := [];
     _extension_instances := ∅; url_patterns := []; INSTALLED_APPS := [];
     objects := ∅; htdocs := []; unremovable := [];
     hook_points := ∅; next_obj := 0; trace := [] |}.


(** * Reasoning about calls *)

(** [wp m Q E w]: the call [m] made in [w] either returns a value [a] in a
    world [w'] with [Q a w'], or raises [e] in a world [w'] with [E e w']. *)
Definition wp {A} (m : M A) (Q : A → World → Prop) (E : exn → World → Prop)
    (w : World) : Prop :=
  match m w with
  | (w', Return a) => Q a w'
  | (w', Raise e) => E e w'
  end.

(** [preserves R m]: whatever the outcome of [m], the world it leaves is
    related by [R] to the one it started in. *)
Definition preserves {A} (R : relation World) (m : M A) : Prop :=
  ∀ w, R w (m w).1.

(** [same f]: the component [f] of the world is left as it was. *)
Definition same {B} (f : World → B) : relation World := λ w w', f w' = f w.

(** * The properties of the specification, and worlds to try them on *)

(** What the specification says of [Settings.load]: the mapping in memory is
    replaced by the persisted one, and is empty when that one does not
    decode. *)
(** The entries that [dict.update] takes from the persisted value before it
    ends: those of a mapping; of a sequence of pairs, the last pair of each
    key. *)
Definition stored_entries (registration : RegisteredExtension)
    : gmap string string :=
  match reg_settings registration with
  | stored_mapping d => d
  | stored_items items _ => list_to_map (reverse items)
  end.

Definition persisted_mapping (registration : RegisteredExtension)
    : gmap string string :=
  match reg_settings registration with
  | stored_mapping d => d
  | stored_items _ _ => ∅
  end.

Definition load_replaces_contents (registration : RegisteredExtension)
    (self : gmap string string) : Prop :=
  Settings_load registration self
  = (persisted_mapping registration, Return tt).

Definition stale_settings : gmap string string := {[ "color" := "red" ]}.

Definition stored_registration (d : stored_settings) : RegisteredExtension :=
  {| reg_class_name := "pkg.ext.Ext"; reg_name := "Ext";
     reg_enabled := true; reg_installed := true; reg_settings := d |}.

(** What the specification says of an id that was never discovered. *)
Definition unknown_id_is_reported (env : Env) (depth : nat) (extension_id : string)
    (w : World) : Prop :=
  (enable_extension env depth extension_id w).2
    = Raise (InvalidExtensionError extension_id)
  ∧ (disable_extension depth extension_id w).2
    = Raise (InvalidExtensionError extension_id).

(** Two packages: A, and B that requires A and is configurable. *)
Definition plain_env : Env :=
  {| ext_class := λ c,
       if decide (c = "pkg.b.B")
       then {| cls_module := "pkg.b"; cls_requirements := ["pkg.a.A"];
               cls_is_configurable := true; cls_hooks := ["NavigationHook"];
               cls_init_raises := None |}
       else {| cls_module := "pkg.a"; cls_requirements := [];
               cls_is_configurable := false;
               cls_hooks := ["NavigationHook"; "URLHook"];
               cls_init_raises := None |};
     EXTENSIONS_STATIC_ROOT := "/static/ext";
     admin_prefix := "admin/extensions/";
     resource_exists_htdocs := λ _, true;
     copytree_fails := λ _, false;
     evolve_error := λ _, None;
     admin_urlconf := λ _, Some true |}.

Definition two_entrypoints : list EntryPoint :=
  [ {| ep_name := "a"; ep_load := Some "pkg.a.A"; ep_project_name := "ProjA" |};
    {| ep_name := "b"; ep_load := Some "pkg.b.B"; ep_project_name := "ProjB" |} ].

(** The world after the first discovery of A and B. *)
Definition discovered_world : World :=
  Eval vm_compute in (load plain_env 10 two_entrypoints ExtensionManager_init).1.

(** The world after B, and so A, was enabled. *)
Definition enabled_world : World :=
  Eval vm_compute in (enable_extension plain_env 10 "pkg.b.B" discovered_world).1.

(** The ids and objects of the [extension_initialized] and of the
    [extension_uninitialized] notifications of a trace, in order. *)
Definition inits (t : list event) : list (string * nat) :=
  omap (λ e, match e with
             | extension_initialized c o => Some (c, o)
             | _ => None
             end) t.

Definition uninits (t : list event) : list (string * nat) :=
  omap (λ e, match e with
             | extension_uninitialized c o => Some (c, o)
             | _ => None
             end) t.

(** [Settings.load] does not raise on the settings that the registration
    stores. *)
Definition Settings_loads (r : RegisteredExtension) : bool :=
  match reg_settings r with
  | stored_items _ (Some e) => bool_decide (e = ValueError)
  | _ => true
  end.

(** The host stands in the way of no extension: the static directory of the
    class can be removed and the settings of its registration can be
    loaded. *)
Definition host_ready (w : World) (c : string) : bool :=
  from_option (λ i, bool_decide (info_htdocs_path i ∉ unremovable w)) true
    (cls_info w !! c)
  && from_option Settings_loads true (cls_registration w !! c).

(** Every known class carries the attributes that [load] sets, and the host
    stands in its way neither with a static directory that cannot be removed
    nor with stored settings that cannot be loaded. *)
Definition ready (w : World) : Prop :=
  Forall (λ c, is_Some (cls_info w !! c) ∧ is_Some (cls_registration w !! c)
               ∧ host_ready w c = true)
    (_extension_classes w).

(** The install and the initialization of [c] meet no failure of the host:
    the copy of the static files and the evolution of the database succeed,
    and the admin URLconf of a configurable extension can be imported. *)
Definition install_ok (env : Env) (c : string) : bool :=
  negb (resource_exists_htdocs env (cls_module (ext_class env c))
        && copytree_fails env (cls_module (ext_class env c)))
  && bool_decide (evolve_error env c = None).

Definition init_ok (env : Env) (c : string) : bool :=
  negb (cls_is_configurable (ext_class env c))
  || bool_decide (is_Some (admin_urlconf env c)).

(** The constructor of the class [c] does not raise. *)
Definition construct_ok (env : Env) (c : string) : bool :=
  bool_decide (cls_init_raises (ext_class env c) = None).

(** [enableable env known n c]: the requirements below [c] form a tree of
    depth at most [n] of known classes whose install, construction and
    initialization meet no failure. *)
Fixpoint enableable (env : Env) (known : list string) (n : nat) (c : string) : bool :=
  match n with
  | 0 => false
  | S n' =>
      bool_decide (c ∈ known) && install_ok env c && init_ok env c
      && construct_ok env c
      && forallb (enableable env known n') (cls_requirements (ext_class env c))
  end.

(** The world a successful [_install_extension] of [c] leaves: the
    registration of [c], in memory and persisted, is marked installed; the
    installed apps and the static directories are some lists; the events
    added hold no notification. *)
Definition installed_world (w : World) (c : string) (r : RegisteredExtension)
    (apps dirs : list string) (t : list event) : World :=
  {| cls_info := cls_info w;
     cls_registration := <[c := set_reg_installed true r]> (cls_registration w);
     _extension_classes := _extension_classes w;
     _extension_instances := _extension_instances w;
     url_patterns := url_patterns w;
     INSTALLED_APPS := apps;
     objects := <[reg_class_name r := set_reg_installed true r]> (objects w);
     htdocs := dirs;
     unremovable := unremovable w;
     hook_points := hook_points w;
     next_obj := next_obj w;
     trace := trace w ++ t |}.

(** The world a successful [_init_extension] of [c] leaves: the instance
    [e] is the live instance of [c], the info of [c] says enabled, and the
    last event is the notification that carries [e]. *)
Definition initialized_world (w : World) (c : string) (e : Extension)
    (i : ExtensionInfo) (r : RegisteredExtension)
    (urls : list urlpattern) (apps : list string)
    (hp : gmap string (list ExtensionHook)) (n : nat) (t : list event) : World :=
  {| cls_info := <[c := set_info_enabled true (set_info_installed (reg_installed r) i)]>
                   (cls_info w);
     cls_registration := cls_registration w;
     _extension_classes := _extension_classes w;
     _extension_instances := <[c := e]> (_extension_instances w);
     url_patterns := urls;
     INSTALLED_APPS := apps;
     objects := objects w;
     htdocs := htdocs w;
     unremovable := unremovable w;
     hook_points := hp;
     next_obj := n;
     trace := trace w ++ t ++ [extension_initialized c (ext_obj e)] |}.

(** What a successful [enable_extension] of an id of requirement depth [n]
    changes, from [w] to [w']: the known classes stay; live instances stay,
    with their registrations; an id that is not [enableable] at depth [n]
    keeps its registration and has no instance made; the notifications added are those of the instances
    made, which all end up installed and enabled. *)
Definition enable_post (env : Env) (known : list string) (n : nat)
    (w w' : World) : Prop :=
  _extension_classes w' = _extension_classes w
  ∧ ready w'
  ∧ (∀ y e, _extension_instances w !! y = Some e →
            _extension_instances w' !! y = Some e)
  ∧ (∀ y, is_Some (_extension_instances w !! y) →
          cls_registration w' !! y = cls_registration w !! y)
  ∧ (∀ z, enableable env known n z = false →
          cls_registration w' !! z = cls_registration w !! z
          ∧ _extension_instances w' !! z = _extension_instances w !! z)
  ∧ ∃ t, trace w' = trace w ++ t
      ∧ (∀ y o, (y, o) ∈ inits t ↔
                _extension_instances w !! y = None
                ∧ ∃ e, _extension_instances w' !! y = Some e ∧ ext_obj e = o)
      ∧ (∀ y, _extension_instances w !! y = None →
              is_Some (_extension_instances w' !! y) →
              ∃ r, cls_registration w' !! y = Some r
                   ∧ reg_enabled r = true ∧ reg_installed r = true).

(** The result of [enable_extension] of [c] from [w] to [w']: [None] when
    [c] was enabled already and nothing was done, the new live instance
    otherwise, its notification being the last event and every requirement
    of [c] being enabled. *)
Definition enable_result (env : Env) (c : string) (w : World)
    (r : option Extension) (w' : World) : Prop :=
  match r with
  | None => w' = w ∧ is_Some (_extension_instances w !! c)
  | Some e =>
      _extension_instances w !! c = None
      ∧ _extension_instances w' !! c = Some e
      ∧ (∀ x, x ∈ cls_requirements (ext_class env c) →
              is_Some (_extension_instances w' !! x))
      ∧ ∃ t, trace w' = trace w ++ t ++ [extension_initialized c (ext_obj e)]
  end.

(** What the specification says of an install that fails: the enable is
    reported as an [EnablingExtensionError] and the extension stays
    Registered, neither installed nor enabled, with no live instance and no
    notification. *)
Definition install_failure_leaves_registered (env : Env) (depth : nat)
    (c : string) (w : World) : Prop :=
  let w' := (enable_extension env depth c w).1 in
  (∃ message,
     (enable_extension env depth c w).2 = Raise (EnablingExtensionError message))
  ∧ (∃ r, cls_registration w' !! c = Some r
          ∧ reg_installed r = false ∧ reg_enabled r = false)
  ∧ _extension_instances w' !! c = None
  ∧ ∀ o, extension_initialized c o ∉ trace w'.

(** The packages of [plain_env] on a host where the evolution of the
    database fails for B, and on a host where the copy of the static files
    fails. *)
Definition failing_evolve_env : Env :=
  {| ext_class := ext_class plain_env;
     EXTENSIONS_STATIC_ROOT := EXTENSIONS_STATIC_ROOT plain_env;
     admin_prefix := admin_prefix plain_env;
     resource_exists_htdocs := λ _, true;
     copytree_fails := λ _, false;
     evolve_error := λ c, if decide (c = "pkg.b.B")
                          then Some "evolution failed" else None;
     admin_urlconf := admin_urlconf plain_env |}.

Definition failing_copy_env : Env :=
  {| ext_class := ext_class plain_env;
     EXTENSIONS_STATIC_ROOT := EXTENSIONS_STATIC_ROOT plain_env;
     admin_prefix := admin_prefix plain_env;
     resource_exists_htdocs := λ _, true;
     copytree_fails := λ _, true;
     evolve_error := λ _, None;
     admin_urlconf := admin_urlconf plain_env |}.

(** What the specification says of enabling twice: the second call returns
    the same live instance as the first. *)
Definition second_enable_returns_same_instance (env : Env) (depth : nat)
    (c : string) (w : World) : Prop :=
  (enable_extension env depth c (enable_extension env depth c w).1).2
  = (enable_extension env depth c w).2.

(** The live instance of B in [enabled_world]. *)
Definition enabled_B : Extension :=
  {| ext_obj := 3; ext_id := "pkg.b.B";
     hooks := [ {| hook_obj := 4; hook_point := "NavigationHook";
                   hook_extension := 3 |} ];
     admin_urlpatterns :=
       Some [ {| url_obj := 5;
                 url_regex := "^admin/extensions/pkg.b.B/config/" |} ];
     settings := ∅ |}.

(** * Disabling *)

(** [c.info.requirements], when the class has its info and [load] has
    resolved its requirements. *)
Definition requirements_at (w : World) (c : string) : option (list string) :=
  cls_info w !! c ≫= info_requirements.

(** The list that the two loops of [get_dependent_extensions] build over
    [items]. *)
Fixpoint dependents_in (w : World) (dependency : string) (items : list string)
    : list string :=
  match items with
  | [] => []
  | x :: items' =>
      (if decide (x = dependency) then []
       else (λ _, x) <$> filter (λ r, r = dependency)
                           (default [] (requirements_at w x)))
      ++ dependents_in w dependency items'
  end.

Definition dependents_of (w : World) (c : string) : list string :=
  dependents_in w c (_extension_classes w).

(** [cascade_ok w n c]: the classes that depend on [c], and those that depend
    on them, form a tree of depth at most [n]. *)
Fixpoint cascade_ok (w : World) (n : nat) (c : string) : bool :=
  match n with
  | 0 => false
  | S n' => forallb (cascade_ok w n') (dependents_of w c)
  end.

Definition urls_of (e : Extension) : list urlpattern :=
  default [] (admin_urlpatterns e).

(** Every known class carries its registration and its resolved
    requirements. *)
Definition resolved (w : World) : Prop :=
  Forall (λ c, is_Some (cls_registration w !! c) ∧ is_Some (requirements_at w c))
    (_extension_classes w).

(** Every live instance is stored under its own id, which is a known class;
    its hooks are registered with their hook points and its admin URL
    patterns with the resolver; and no hook or pattern belongs to two
    instances. *)
Definition owns_registered (w : World) : Prop :=
  map_Forall (λ c e,
    ext_id e = c
    ∧ c ∈ _extension_classes w
    ∧ NoDup (hooks e)
    ∧ Forall (λ h, h ∈ point_hooks w (hook_point h)) (hooks e)
    ∧ NoDup (urls_of e)
    ∧ Forall (λ u, u ∈ url_patterns w) (urls_of e)
    ∧ map_Forall (λ c' e',
        c' ≠ c →
        Forall (λ h, h ∉ hooks e') (hooks e)
        ∧ Forall (λ u, u ∉ urls_of e') (urls_of e))
        (_extension_instances w))
    (_extension_instances w).

Definition disable_ready (w : World) : Prop := resolved w ∧ owns_registered w.

(** The steps of [disable_extension] on the instance [e] itself, after its
    dependents were disabled; [b] tells whether its static directory
    existed. *)
Definition disable_steps (b : bool) (e : Extension) (i : ExtensionInfo)
    (r : RegisteredExtension) : list event :=
  (if b then [ev_rmtree (info_htdocs_path i)] else [])
  ++ [ev_shutdown (ext_obj e)]
  ++ (ev_remove_hook <$> hooks e)
  ++ (ev_remove_admin_url <$> urls_of e)
  ++ [ev_remove_from_installed_apps (info_app_name i);
      ev_reset_templatetags_cache;
      extension_uninitialized (ext_id e) (ext_obj e);
      ev_del_instance (ext_id e);
      ev_save (set_reg_enabled false r)].

(** What a successful [disable_extension] of an id of cascade depth [n]
    changes, from [w] to [w']. *)
Definition disable_post (n : nat) (w w' : World) : Prop :=
  _extension_classes w' = _extension_classes w
  ∧ (∀ x, requirements_at w' x = requirements_at w x)
  ∧ disable_ready w'
  ∧ (∀ y e, _extension_instances w' !! y = Some e →
            _extension_instances w !! y = Some e)
  ∧ (∀ z, cascade_ok w n z = false →
          _extension_instances w' !! z = _extension_instances w !! z)
  ∧ (∀ y, _extension_instances w !! y = None
          ∨ is_Some (_extension_instances w' !! y) →
          cls_registration w' !! y = cls_registration w !! y
          ∧ cls_info w' !! y = cls_info w !! y)
  ∧ (∀ y, is_Some (_extension_instances w !! y) →
          _extension_instances w' !! y = None →
          ∃ r, cls_registration w !! y = Some r
               ∧ cls_registration w' !! y = Some (set_reg_enabled false r))
  ∧ ∃ t, trace w' = trace w ++ t
      ∧ (∀ y o, (y, o) ∈ uninits t ↔
                _extension_instances w' !! y = None
                ∧ ∃ e, _extension_instances w !! y = Some e ∧ ext_obj e = o).

(** The world a successful [_uninit_extension] of the live instance [e]
    leaves. *)
Definition uninitialized_world (w : World) (e : Extension) (i : ExtensionInfo)
    (urls : list urlpattern) (apps : list string)
    (hp : gmap string (list ExtensionHook)) : World :=
  {| cls_info := <[ext_id e := set_info_enabled false i]> (cls_info w);
     cls_registration := cls_registration w;
     _extension_classes := _extension_classes w;
     _extension_instances := delete (ext_id e) (_extension_instances w);
     url_patterns := urls;
     INSTALLED_APPS := apps;
     objects := objects w;
     htdocs := htdocs w;
     unremovable := unremovable w;
     hook_points := hp;
     next_obj := next_obj w;
     trace := trace w ++ [ev_shutdown (ext_obj e)]
                ++ (ev_remove_hook <$> hooks e)
                ++ (ev_remove_admin_url <$> urls_of e)
                ++ [ev_remove_from_installed_apps (info_app_name i);
                    ev_reset_templatetags_cache;
                    extension_uninitialized (ext_id e) (ext_obj e);
                    ev_del_instance (ext_id e)] |}.

(** The result of a successful [disable_extension] of [c], from [w] to [w']:
    [c] has no live instance; when [c] had the live instance [e], its
    dependents have none either, and the events added are those of the
    cascade, which hold the
    notification of every dependent that was live, followed by the steps on
    [e] itself. *)
Definition disable_result (c : string) (w w' : World) : Prop :=
  _extension_instances w' !! c = None
  ∧ match _extension_instances w !! c with
    | None => w' = w
    | Some e =>
        (∀ x, x ∈ dependents_of w c → _extension_instances w' !! x = None)
        ∧ ∃ i r b t,
            cls_info w !! c = Some i
            ∧ cls_registration w !! c = Some r
            ∧ trace w' = trace w ++ t ++ disable_steps b e i r
            ∧ ∀ x e', x ∈ dependents_of w c →
                      _extension_instances w !! x = Some e' →
                      (x, ext_obj e') ∈ uninits t
    end.

(** What the specification says of the order of the steps of a disable: the
    static directory is only removed after the instance was uninitialized,
    that is, every removal of a directory among the events of the call comes
    after the [extension_uninitialized] notification of the id. *)
Definition uninit_precedes_uninstall (depth : nat) (c : string) (w : World) : Prop :=
  let t := drop (length (trace w)) (trace (disable_extension depth c w).1) in
  ∀ k path, t !! k = Some (ev_rmtree path) →
            ∃ j o, j < k ∧ t !! j = Some (extension_uninitialized c o).

(** The live instance of A in [enabled_world]. *)
Definition enabled_A : Extension :=
  {| ext_obj := 0; ext_id := "pkg.a.A";
     hooks := [ {| hook_obj := 1; hook_point := "NavigationHook";
                   hook_extension := 0 |};
                {| hook_obj := 2; hook_point := "URLHook";
                   hook_extension := 0 |} ];
     admin_urlpatterns := None;
     settings := ∅ |}.

(** * Hooks *)

(** The part of the world that the ownership of hooks is about. *)
Definition hook_state (w : World)
    : gmap string Extension * gmap string (list ExtensionHook) * nat :=
  (_extension_instances w, hook_points w, next_obj w).

(** The invariant of hooks: a hook held by a hook point is held once, by the
    hook point of its class, and is owned by a live instance; no hook is in
    the ownership set of two instances; every instance is stored under its
    own id; and the hooks of the instances are objects that were made. *)
Definition hooks_consistent (w : World) : Prop :=
  (∀ p h, h ∈ point_hooks w p →
          hook_point h = p
          ∧ ∃ c e, _extension_instances w !! c = Some e ∧ h ∈ hooks e)
  ∧ (∀ c1 c2 e1 e2 h,
       _extension_instances w !! c1 = Some e1 →
       _extension_instances w !! c2 = Some e2 →
       h ∈ hooks e1 → h ∈ hooks e2 → c1 = c2)
  ∧ (∀ c e h, _extension_instances w !! c = Some e → h ∈ hooks e →
              hook_obj h < next_obj w)
  ∧ (∀ p, NoDup (point_hooks w p))
  ∧ (∀ c e, _extension_instances w !! c = Some e → ext_id e = c).


(** The package A with a constructor that makes its hook and then looks up
    a setting that is not there. *)
Definition raising_env : Env :=
  {| ext_class := λ c,
       {| cls_module := "pkg.a"; cls_requirements := [];
          cls_is_configurable := false;
          cls_hooks := ["NavigationHook"];
          cls_init_raises := Some (KeyError "color") |};
     EXTENSIONS_STATIC_ROOT := "/static/ext";
     admin_prefix := "admin/extensions/";
     resource_exists_htdocs := λ _, true;
     copytree_fails := λ _, false;
     evolve_error := λ _, None;
     admin_urlconf := λ _, Some false |}.

Definition a_entrypoint : EntryPoint :=
  {| ep_name := "a"; ep_load := Some "pkg.a.A"; ep_project_name := "ProjA" |}.


(** [keeps_hooks w w']: the invariant of hooks passes from [w] to [w']. *)
Definition keeps_hooks : relation World :=
  λ w w', hooks_consistent w → hooks_consistent w'.

(** The operations of the manager, and a run of them; the outcome of each
    call, a value or an exception, is dropped, the world it leaves is kept. *)
Inductive operation : Type :=
  | op_load (entrypoints : list EntryPoint)
  | op_enable (extension_id : string)
  | op_disable (extension_id : string).

Definition run_operation (env : Env) (depth : nat) (w : World) (o : operation)
    : World :=
  match o with
  | op_load entrypoints => (load env depth entrypoints w).1
  | op_enable c => (enable_extension env depth c w).1
  | op_disable c => (disable_extension depth c w).1
  end.

Definition run_operations (env : Env) (depth : nat) (ops : list operation)
    (w : World) : World :=
  fold_left (run_operation env depth) ops w.

(** [hooks_shrink w w']: instances and object counter are as they were, and
    the hook points only lost hooks. *)
Definition hooks_shrink (w w' : World) : Prop :=
  _extension_instances w' = _extension_instances w
  ∧ next_obj w' = next_obj w
  ∧ (∀ h p, h ∈ point_hooks w' p → h ∈ point_hooks w p)
  ∧ ((∀ p, NoDup (point_hooks w p)) → ∀ p, NoDup (point_hooks w' p)).

(** [instances_shrink w w']: the live instances of [w'] are live instances
    of [w]. *)
Definition instances_shrink (w w' : World) : Prop :=
  ∀ y e, _extension_instances w' !! y = Some e →
         _extension_instances w !! y = Some e.

(** * Rediscovery *)

(** Two packages that do not require each other, X and Y. *)
Definition xy_env : Env :=
  {| ext_class := λ c,
       {| cls_module := if decide (c = "ypkg.extension.Y")
                        then "ypkg.extension" else "xpkg.extension";
          cls_requirements := [];
          cls_is_configurable := false;
          cls_hooks := ["NavigationHook"];
          cls_init_raises := None |};
     EXTENSIONS_STATIC_ROOT := "/static/ext";
     admin_prefix := "admin/extensions/";
     resource_exists_htdocs := λ _, true;
     copytree_fails := λ _, false;
     evolve_error := λ _, None;
     admin_urlconf := λ _, Some false |}.

Definition x_entrypoint : EntryPoint :=
  {| ep_name := "x"; ep_load := Some "xpkg.extension.X"; ep_project_name := "XExt" |}.

Definition y_entrypoint : EntryPoint :=
  {| ep_name := "y"; ep_load := Some "ypkg.extension.Y"; ep_project_name := "YExt" |}.

(** The world after X and Y were discovered, in this order and in the other,
    and both enabled. *)
Definition xy_world : World :=
  Eval vm_compute in
    run_operations xy_env 10
      [op_load [x_entrypoint; y_entrypoint];
       op_enable "xpkg.extension.X"; op_enable "ypkg.extension.Y"]
      ExtensionManager_init.

Definition yx_world : World :=
  Eval vm_compute in
    run_operations xy_env 10
      [op_load [y_entrypoint; x_entrypoint];
       op_enable "xpkg.extension.X"; op_enable "ypkg.extension.Y"]
      ExtensionManager_init.

(** [classes_grow w w']: the known classes of [w] are known in [w']. *)
Definition classes_grow : relation World :=
  λ w w', ∀ z, z ∈ _extension_classes w → z ∈ _extension_classes w'.

(** * Further functions of the module *)

(** ** Package metadata: the loop of [ExtensionInfo.__init__] *)

(** [Some] of what follows the prefix [p] in [s]. *)
Fixpoint str_drop_prefix (p s : string) : option string :=
  match p, s with
  | EmptyString, _ => Some s
  | String a p', String b s' =>
      if Ascii.eqb a b then str_drop_prefix p' s' else None
  | String _ _, EmptyString => None
  end.

(** [s.split(sep, 1)] for a separator that is not empty: [None] stands for
    the list of one element that Python returns when [sep] does not occur in
    [s], [Some (before, after)] for the two texts around the first
    occurrence. *)
Fixpoint split_once (sep s : string) : option (string * string) :=
  match str_drop_prefix sep s with
  | Some rest => Some (EmptyString, rest)
  | None =>
      match s with
      | EmptyString => None
      | String a s' => (λ p, (String a p.1, p.2)) <$> split_once sep s'
      end
  end.

(** The loop over [entrypoint.dist.get_metadata_lines("PKG-INFO")]:
    [key, value = line.split(": ", 1)] raises [ValueError] on a line without
    the separator; a value [UNKNOWN] is not recorded. *)
Fixpoint metadata_lines (lines : list string) (metadata : gmap string string)
    : result (gmap string string) :=
  match lines with
  | [] => Return metadata
  | line :: lines' =>
      match split_once ": " line with
      | None => Raise ValueError
      | Some (key, value) =>
          metadata_lines lines'
            (if decide (value = "UNKNOWN"%string) then metadata
             else <[key := value]> metadata)
      end
  end.

(** The attributes of an [ExtensionInfo] that come from the package. *)
Record PackageInfo : Type := {
  pkg_metadata : gmap string string;
  pkg_name : string;
  pkg_version : string;
  pkg_summary : option string;
  pkg_description : option string;
  pkg_author : option string;
  pkg_author_email : option string;
  pkg_license : option string;
  pkg_url : option string
}.

Definition ExtensionInfo_package (lines : list string) (project_name version : string)
    : result PackageInfo :=
  match metadata_lines lines ∅ with
  | Raise e => Raise e
  | Return metadata =>
      Return {| pkg_metadata := metadata;
                pkg_name := project_name;
                pkg_version := version;
                pkg_summary := metadata !! "Summary"%string;
                pkg_description := metadata !! "Description"%string;
                pkg_author := metadata !! "Author"%string;
                pkg_author_email := metadata !! "Author-email"%string;
                pkg_license := metadata !! "License"%string;
                pkg_url := metadata !! "Home-page"%string |}
  end.

(** The characters of a text. *)
Fixpoint chars (s : string) : list ascii :=
  match s with
  | EmptyString => []
  | String a s' => a :: chars s'
  end.

(** ** Settings *)

(** [Settings.__init__]: the empty dictionary, loaded at once. *)
Definition Settings_init (registration : RegisteredExtension)
    : gmap string string * result unit :=
  Settings_load registration ∅.

(** ** The lists of the manager *)

(** [get_enabled_extensions] and [get_installed_extensions]: the values of
    the two dictionaries, the classes being given by their ids. *)
Definition get_enabled_extensions (w : World) : list Extension :=
  (map_to_list (_extension_instances w)).*2.

Definition get_installed_extensions (w : World) : list string :=
  _extension_classes w.

(** The info of A in [discovered_world]. *)
Definition discovered_info_A : ExtensionInfo :=
  {| info_name := "ProjA"; info_app_name := "pkg";
     info_enabled := false; info_installed := false;
     info_is_configurable := false;
     info_htdocs_path := "/static/ext/ProjA";
     info_requirements := Some [] |}.

(** Two packages that require each other, and the world after their
    discovery. *)
Definition cyclic_env : Env :=
  {| ext_class := λ c,
       if decide (c = "pkg.b.B")
       then {| cls_module := "pkg.b"; cls_requirements := ["pkg.a.A"];
               cls_is_configurable := false; cls_hooks := [];
               cls_init_raises := None |}
       else {| cls_module := "pkg.a"; cls_requirements := ["pkg.b.B"];
               cls_is_configurable := false; cls_hooks := [];
               cls_init_raises := None |};
     EXTENSIONS_STATIC_ROOT := "/static/ext";
     admin_prefix := "admin/extensions/";
     resource_exists_htdocs := λ _, false;
     copytree_fails := λ _, false;
     evolve_error := λ _, None;
     admin_urlconf := λ _, Some false |}.

Definition cyclic_world : World :=
  Eval vm_compute in (load cyclic_env 10 two_entrypoints ExtensionManager_init).1.

(** * What is known and what is enabled *)

(** The part of the world that says which extensions are enabled and which
    are known. *)
Definition runtime (w : World) : gmap string Extension * list string :=
  (_extension_instances w, _extension_classes w).

(** [enable_grows w w']: the known classes are the same; the live instances
    of [w] are live instances of [w']; and an id that is live in [w'] was
    live in [w] or is known. *)
Definition enable_grows : relation World :=
  λ w w',
    _extension_classes w' = _extension_classes w
    ∧ (∀ y e, _extension_instances w !! y = Some e →
              _extension_instances w' !! y = Some e)
    ∧ (∀ y, is_Some (_extension_instances w' !! y) →
            is_Some (_extension_instances w !! y) ∨ y ∈ _extension_classes w).

(** The part of the world that the consistency of the manager is about. *)
Definition live_state (w : World)
    : gmap string Extension * gmap string (list ExtensionHook) * nat * list string :=
  (hook_state w, _extension_classes w).

(** Every id that has a live instance is known. *)
Definition live_known (w : World) : Prop :=
  ∀ c, is_Some (_extension_instances w !! c) → c ∈ _extension_classes w.

(** Every live instance is stored under its own id. *)
Definition stored_under_own_id (w : World) : Prop :=
  ∀ c e, _extension_instances w !! c = Some e → ext_id e = c.

(** [keeps_own_id w w']: that passes from [w] to [w']. *)
Definition keeps_own_id : relation World :=
  λ w w', stored_under_own_id w → stored_under_own_id w'.

Definition manager_consistent (w : World) : Prop :=
  stored_under_own_id w ∧ live_known w.

(** [keeps_consistent w w']: the consistency of the manager passes from [w]
    to [w']; [keeps_consistent_with c] says so of the worlds where [c] is
    known. *)
Definition keeps_consistent : relation World :=
  λ w w', manager_consistent w → manager_consistent w'.

Definition keeps_consistent_with (c : string) : relation World :=
  λ w w', manager_consistent w ∧ c ∈ _extension_classes w →
          manager_consistent w' ∧ c ∈ _extension_classes w'.

(** The world after a discovery that finds B, which requires A, and not
    A. *)
Definition missing_requirement_world : World :=
  Eval vm_compute in
    (load plain_env 10 (drop 1 two_entrypoints) ExtensionManager_init).1.

(** * What a call that returns has done *)

(** [trace_grows w w']: the events of [w'] are those of [w] followed by
    others. *)
Definition trace_grows : relation World :=
  λ w w', ∃ t, trace w' = trace w ++ t.

(** [registrations_kept w w']: moreover the registrations, in memory and
    persisted, are as they were. *)
Definition registrations_kept : relation World :=
  λ w w', cls_registration w' = cls_registration w
          ∧ objects w' = objects w
          ∧ trace_grows w w'.

(** * What a discovery that returns has done *)

(** Every id found so far by the first loop of [load] is known and carries
    its registration, and has a live instance when the registration says
    enabled. *)
Definition found_loaded (found : list string) (w : World) : Prop :=
  ∀ z, z ∈ found →
       z ∈ _extension_classes w
       ∧ ∃ r, cls_registration w !! z = Some r
              ∧ (reg_enabled r = true → is_Some (_extension_instances w !! z)).

(** The part of the world that the last loop of [load] leaves alone when it
    returns. *)
Definition registered_state (w : World)
    : gmap string Extension * list string * gmap string RegisteredExtension :=
  (runtime w, cls_registration w).

(** A new process on the host that [enabled_world] leaves: the manager is
    new, the persisted registrations and the static files are there. *)
Definition restart_world : World :=
  {| cls_info := ∅; cls_registration := ∅; _extension_classes := [];
     _extension_instances := ∅; url_patterns := []; INSTALLED_APPS := [];
     objects := objects enabled_world; htdocs := htdocs enabled_world;
     unremovable := [];
     hook_points := ∅; next_obj := 0; trace := [] |}.

(** The packages of [plain_env] on a host where the admin URLconf of an
    extension cannot be imported. *)
Definition failing_import_env : Env :=
  {| ext_class := ext_class plain_env;
     EXTENSIONS_STATIC_ROOT := EXTENSIONS_STATIC_ROOT plain_env;
     admin_prefix := admin_prefix plain_env;
     resource_exists_htdocs := λ _, true;
     copytree_fails := λ _, false;
     evolve_error := λ _, None;
     admin_urlconf := λ _, None |}.

(** [keeps_apps_nodup w w']: when [INSTALLED_APPS] holds no application
    twice in [w], it holds none twice in [w']. *)
Definition keeps_apps_nodup : relation World :=
  λ w w', NoDup (INSTALLED_APPS w) → NoDup (INSTALLED_APPS w').

(** The part of the world that says which applications are installed, with
    the infos of the classes. *)
Definition apps_state (w : World) : list string * gmap string ExtensionInfo :=
  (INSTALLED_APPS w, cls_info w).

(** * Starting and stopping an extension *)

(** The hooks of [hs] that belong to the hook point [p]. *)
Definition hooks_at (p : string) (hs : list ExtensionHook) : list ExtensionHook :=
  filter (λ h, hook_point h = p) hs.

(** The part of the world that the making of hooks leaves alone. *)
Definition urls_state (w : World)
    : list urlpattern * (list string * gmap string ExtensionInfo) :=
  (url_patterns w, apps_state w).

(** The world [w] on a host where [shutil.rmtree] cannot remove the paths
    [paths]. *)
Definition with_unremovable (paths : list string) (w : World) : World :=
  {| cls_info := cls_info w; cls_registration := cls_registration w;
     _extension_classes := _extension_classes w;
     _extension_instances := _extension_instances w;
     url_patterns := url_patterns w; INSTALLED_APPS := INSTALLED_APPS w;
     objects := objects w; htdocs := htdocs w; unremovable := paths;
     hook_points := hook_points w; next_obj := next_obj w; trace := trace w |}.

(** [static_stuck w path]: the path exists and cannot be removed. *)
Definition static_stuck (w : World) (path : string) : bool :=
  bool_decide (path ∈ htdocs w) && bool_decide (path ∈ unremovable w).


(** * djblets.pipeline.compilers.bless: the LessCSS compiler of the pipeline

    [BlessCompiler] sends a style sheet to a conversion service, after it has
    replaced the import lines of the sheet by the files they name.  Texts are
    byte strings; the files of the host and the answer of the service are
    given. *)

(** The exceptions of the compiler. *)
Inductive bless_exn : Type :=
  | CompilerError (message : string)
  | HTTPError (code : nat) (body : string)
  | URLError (reason : string)
  | IOError (path : string).

Inductive bless_result (A : Type) : Type :=
  | Ok (a : A)
  | Err (e : bless_exn).
Arguments Ok {A} a.
Arguments Err {A} e.

(** The double quote, the line feed and the carriage return. *)
Definition quote : ascii := ascii_of_nat 34.
Definition LF : ascii := ascii_of_nat 10.
Definition CR : ascii := ascii_of_nat 13.

(** [s.endswith(suffix)] *)
Fixpoint endswith (s suffix : string) : bool :=
  if String.eqb s suffix then true
  else match s with
       | EmptyString => false
       | String _ s' => endswith s' suffix
       end.

(** [s.splitlines(True)] of a byte string: a line ends with a line feed, a
    carriage return, or a carriage return followed by a line feed, which it
    keeps; [cur] is the line read so far. *)
Fixpoint splitlines_from (cur s : string) : list string :=
  match s with
  | EmptyString => match cur with EmptyString => [] | _ => [cur] end
  | String a s' =>
      if Ascii.eqb a LF then (cur ++ String LF EmptyString)%string :: splitlines_from EmptyString s'
      else if Ascii.eqb a CR then
        match s' with
        | String b s'' =>
            if Ascii.eqb b LF
            then (cur ++ String CR (String LF EmptyString))%string
                 :: splitlines_from EmptyString s''
            else (cur ++ String CR EmptyString)%string :: splitlines_from EmptyString s'
        | EmptyString => [(cur ++ String CR EmptyString)%string]
        end
      else splitlines_from (cur ++ String a EmptyString)%string s'
  end.

Definition splitlines (s : string) : list string := splitlines_from EmptyString s.

(** [s.startswith(prefix)] *)
Definition startswith (s prefix : string) : bool :=
  match str_drop_prefix prefix s with
  | Some _ => true
  | None => false
  end.

(** [posixpath.join(a, *p)] *)
Definition path_join (a : string) (p : list string) : string :=
  fold_left (λ path b,
               if startswith b "/" then b
               else if bool_decide (path = EmptyString) || endswith path "/"
                    then (path ++ b)%string
                    else (path ++ "/" ++ b)%string)
    p a.

(** The longest run of characters other than the quote at the head of [s],
    and what follows it. *)
Fixpoint span_not_quote (s : string) : string * string :=
  match s with
  | EmptyString => (EmptyString, EmptyString)
  | String a s' =>
      if Ascii.eqb a quote then (EmptyString, s)
      else (String a (span_not_quote s').1, (span_not_quote s').2)
  end.

(** [IMPORT_RE.match(line)] for the pattern [^@import "([^"]+)";], which is
    matched at the head of the line: [Some] of the group, the name between
    the quotes.  The class [[^"]] takes every character but the quote, so the
    name is the whole run up to the next quote. *)
Definition IMPORT_RE_match (line : string) : option string :=
  match str_drop_prefix ("@import " ++ String quote EmptyString) line with
  | None => None
  | Some s =>
      match (span_not_quote s).1,
            str_drop_prefix (String quote ";") (span_not_quote s).2 with
      | String a name, Some _ => Some (String a name)
      | _, _ => None
      end
  end.

(** A request to the service, and what [urlopen(r).read()] gives. *)
Record Request : Type := {
  req_url : string;
  req_data : string;
  req_content_type : string;
  req_content_length : string
}.

Inductive http_outcome : Type :=
  | http_ok (body : string)
  | http_error (code : nat) (body : string)
  | http_unreachable (reason : string).

(** The settings and the host: [bless_files] gives [Some content] for a path
    that exists and can be read, [None] for one that exists and cannot. *)
Record BlessHost : Type := {
  BLESS_URL : string;
  BLESS_IMPORT_PATHS : list string;
  STATIC_ROOT : string;
  bless_files : gmap string (option string);
  choose_boundary : string;
  bless_verbose : bool;
  urlopen : Request → http_outcome
}.

(** [BlessCompiler.match_file] *)
Definition BlessCompiler_match_file (filename : string) : bool :=
  endswith filename ".less".

(** The loop of [BlessCompiler._load_import] over what is left of
    [BLESS_IMPORT_PATHS]. *)
Fixpoint load_import_from (host : BlessHost) (import_paths : list string)
    (filename : string) : bless_result string :=
  match import_paths with
  | [] =>
      Err (CompilerError ("Unable to find import file " ++ String quote filename
                          ++ String quote EmptyString))
  | import_path :: import_paths' =>
      let path := path_join (STATIC_ROOT host) [import_path; filename] in
      match bless_files host !! path with
      | Some (Some content) => Ok content
      | Some None => Err (IOError path)
      | None => load_import_from host import_paths' filename
      end
  end.

Definition BlessCompiler_load_import (host : BlessHost) (filename : string)
    : bless_result string :=
  load_import_from host (BLESS_IMPORT_PATHS host) filename.

(** The name of the file that an import line stands for. *)
Definition import_filename (filename : string) : string :=
  if negb (endswith filename ".css") && negb (endswith filename ".less")
  then (filename ++ ".less")%string else filename.

(** The loop of [BlessCompiler.compile_file] over the lines of the sheet. *)
Fixpoint compile_lines (host : BlessHost) (lines : list string) (blob : string)
    : bless_result string :=
  match lines with
  | [] => Ok blob
  | line :: lines' =>
      match IMPORT_RE_match line with
      | Some filename =>
          match BlessCompiler_load_import host (import_filename filename) with
          | Ok line' => compile_lines host lines' (blob ++ line')
          | Err e => Err e
          end
      | None => compile_lines host lines' (blob ++ line)
      end
  end.

Definition CRLF : string := String CR (String LF EmptyString).

(** The form data that [compile_file] builds, and the request that carries
    it. *)
Definition compile_blob (host : BlessHost) (content : string) : bless_result string :=
  match compile_lines host (splitlines content)
          ("--" ++ choose_boundary host ++ CRLF
           ++ "Content-Disposition: form-data; name=" ++ String quote "style.less"
           ++ String quote CRLF
           ++ CRLF) with
  | Ok blob => Ok (blob ++ CRLF ++ "--" ++ choose_boundary host ++ "--" ++ CRLF ++ CRLF)%string
  | Err e => Err e
  end.

Definition compile_request (host : BlessHost) (content : string)
    : bless_result Request :=
  match compile_blob host content with
  | Ok blob =>
      Ok {| req_url := BLESS_URL host;
            req_data := blob;
            req_content_type :=
              ("multipart/form-data; boundary=" ++ choose_boundary host)%string;
            req_content_length := pretty (String.length blob) |}
  | Err e => Err e
  end.

(** [BlessCompiler.compile_file]: what it prints, and what it returns or
    raises. *)
Definition BlessCompiler_compile_file (host : BlessHost) (content path : string)
    : list string * bless_result string :=
  (if bless_verbose host
   then [("Converting lesscss using " ++ BLESS_URL host)%string] else [],
   match compile_request host content with
   | Err e => Err e
   | Ok r =>
       match urlopen host r with
       | http_ok body => Ok body
       | http_error code body =>
           if decide (code = 400)
           then Err (CompilerError ("Error processing lessCSS files: " ++ body))
           else Err (HTTPError code body)
       | http_unreachable reason => Err (URLError reason)
       end
   end).

(** A host to try the compiler on: two import paths, one file of mixins
    under the second, and a service that answers with the data it was
    sent. *)
Definition bless_host : BlessHost :=
  {| BLESS_URL := "http://blesscss.cloudfoundry.com/min";
     BLESS_IMPORT_PATHS := ["less"; "vendor/less"];
     STATIC_ROOT := "/srv/static";
     bless_files := {[ "/srv/static/vendor/less/mixins.less" := Some ".m() { }" ]};
     choose_boundary := "192.168.0.1.1000.4242.1";
     bless_verbose := false;
     urlopen := λ r, http_ok (req_data r) |}.

(** The events of the entry points that do not load. *)
Definition load_errors (entrypoints : list EntryPoint) : list event :=
  omap (λ ep, match ep_load ep with
              | None => Some (ev_print (ep_name ep))
              | Some _ => None
              end) entrypoints.

(** The enumeration of A and B, with a third entry point whose module
    cannot be imported. *)
Definition broken_entrypoints : list EntryPoint :=
  two_entrypoints
  ++ [ {| ep_name := "c"; ep_load := None; ep_project_name := "ProjC" |} ].

(** * Lemmas on calls *)

Lemma wp_ret {A} (a : A) Q E w : Q a w → wp (ret a) Q E w.
Proof. done. Qed.

Lemma wp_raise {A} e (Q : A → World → Prop) E w : E e w → wp (raise e) Q E w.
Proof. done. Qed.

Lemma wp_gets {A} (f : World → A) Q E w : Q (f w) w → wp (gets f) Q E w.
Proof. done. Qed.

Lemma wp_modify f Q E w : Q tt (f w) → wp (modify f) Q E w.
Proof. done. Qed.

Lemma wp_emit e Q E w :
  Q tt (set_trace (λ t, t ++ [e]) w) → wp (emit e) Q E w.
Proof. done. Qed.

Lemma wp_attr {A} (o : option A) e Q E w :
  match o with Some a => Q a w | None => E e w end → wp (attr o e) Q E w.
Proof. by destruct o. Qed.

Lemma wp_bind {A B} (m : M A) (k : A → M B) Q E w :
  wp m (λ a w', wp (k a) Q E w') E w → wp (bind m k) Q E w.
Proof. unfold wp, bind. by destruct (m w) as [w' [a|e]]. Qed.

Lemma wp_bind_inv {A B} (m : M A) (k : A → M B) Q E w :
  wp (bind m k) Q E w → wp m (λ a w', wp (k a) Q E w') E w.
Proof. unfold wp, bind. by destruct (m w) as [w' [a|e]]. Qed.

Lemma wp_try_except {A} (m : M A) h Q E w :
  wp m Q (λ e w', match h e with Some k => wp k Q E w' | None => E e w' end) w →
  wp (try_except m h) Q E w.
Proof.
  unfold wp, try_except. destruct (m w) as [w' [a|e]]; [done|].
  by destruct (h e).
Qed.

Lemma wp_mono {A} (m : M A) (Q Q' : A → World → Prop) (E E' : exn → World → Prop) w :
  wp m Q E w →
  (∀ a w', Q a w' → Q' a w') →
  (∀ e w', E e w' → E' e w') →
  wp m Q' E' w.
Proof. unfold wp. destruct (m w) as [w' [a|e]]; auto. Qed.

Lemma wp_and {A} (m : M A) (Q Q' : A → World → Prop) (E E' : exn → World → Prop) w :
  wp m Q E w → wp m Q' E' w →
  wp m (λ a w', Q a w' ∧ Q' a w') (λ e w', E e w' ∧ E' e w') w.
Proof. unfold wp. destruct (m w) as [w' [a|e]]; auto. Qed.

Lemma wp_eq {A} (m : M A) Q E w w' r :
  m w = (w', r) →
  (wp m Q E w ↔ match r with Return a => Q a w' | Raise e => E e w' end).
Proof. unfold wp. by intros ->. Qed.

Lemma wp_returns {A} (m : M A) (Q : A → World → Prop) w :
  wp m Q (λ _ _, False) w → ∃ w' a, m w = (w', Return a) ∧ Q a w'.
Proof. unfold wp. destruct (m w) as [w' [a|e]]; [eauto|done]. Qed.

Lemma wp_for_each {A} (I : list A → World → Prop) (l : list A) body Q E w :
  I l w →
  (∀ x rest w1, I (x :: rest) w1 → wp (body x) (λ _ w2, I rest w2) E w1) →
  (∀ w1, I [] w1 → Q tt w1) →
  wp (for_each l body) Q E w.
Proof.
  intros HI Hbody HQ. revert w HI.
  induction l as [|x l IH]; intros w HI; simpl.
  - apply wp_ret. auto.
  - apply wp_bind. eapply wp_mono; [by apply Hbody| |done].
    simpl. intros _ w'. apply IH.
Qed.

Section preserves.
Context (R : relation World) `{!PreOrder R}.

Lemma preserves_ret {A} (a : A) : preserves R (ret a).
Proof. intros w. reflexivity. Qed.

Lemma preserves_raise {A} e : preserves R (raise (A:=A) e).
Proof. intros w. reflexivity. Qed.

Lemma preserves_gets {A} (f : World → A) : preserves R (gets f).
Proof. intros w. reflexivity. Qed.

Lemma preserves_attr {A} (o : option A) e : preserves R (attr o e).
Proof. intros w. destruct o; reflexivity. Qed.

Lemma preserves_modify f : (∀ w, R w (f w)) → preserves R (modify f).
Proof. intros H w. apply H. Qed.

Lemma preserves_bind {A B} (m : M A) (k : A → M B) :
  preserves R m → (∀ a, preserves R (k a)) → preserves R (bind m k).
Proof.
  intros Hm Hk w. unfold bind. specialize (Hm w).
  destruct (m w) as [w' [a|e]]; [|done].
  etrans; [exact Hm|apply Hk].
Qed.

Lemma preserves_try_except {A} (m : M A) h :
  preserves R m → (∀ e k, h e = Some k → preserves R k) →
  preserves R (try_except m h).
Proof.
  intros Hm Hh w. unfold try_except. specialize (Hm w).
  destruct (m w) as [w' [a|e]]; [done|].
  destruct (h e) as [k|] eqn:He; [|done].
  etrans; [exact Hm|by eapply Hh].
Qed.

Lemma preserves_for_each {A} (l : list A) body :
  (∀ x, preserves R (body x)) → preserves R (for_each l body).
Proof.
  intros H. induction l; simpl; [apply preserves_ret|].
  apply preserves_bind; auto.
Qed.

Lemma preserves_map_calls {A B} (f : A → M B) l :
  (∀ x, preserves R (f x)) → preserves R (map_calls f l).
Proof.
  intros H. induction l; simpl; [apply preserves_ret|].
  apply preserves_bind; [auto|]. intros y.
  apply preserves_bind; [auto|]. intros ys. apply preserves_ret.
Qed.

Lemma preserves_wp {A} (m : M A) w :
  preserves R m → wp m (λ _ w', R w w') (λ _ w', R w w') w.
Proof. intros H. specialize (H w). unfold wp. by destruct (m w) as [w' [a|e]]. Qed.
End preserves.

#[global] Instance same_preorder {B} (f : World → B) : PreOrder (same f).
Proof. split; [by intros w|]. intros w1 w2 w3. unfold same. congruence. Qed.

(** Proves [preserves R m] along the structure of [m]; what is left are the
    steps that change the world. *)
Ltac preserves_step :=
  match goal with
  | |- PreOrder _ => apply _
  | |- ∀ _, _ => intros ?
  | |- preserves _ (ret _) => apply preserves_ret
  | |- preserves _ (raise _) => apply preserves_raise
  | |- preserves _ (gets _) => apply preserves_gets
  | |- preserves _ (attr _ _) => apply preserves_attr
  | |- preserves _ (bind _ _) => apply preserves_bind
  | |- preserves _ (try_except _ _) => apply preserves_try_except
  | |- preserves _ (for_each _ _) => apply preserves_for_each
  | |- preserves _ (map_calls _ _) => apply preserves_map_calls
  | |- preserves _ (modify _) => apply preserves_modify
  | |- preserves _ (emit _) => apply preserves_modify
  | H : match ?e with _ => _ end = Some _ |- _ => destruct e; simplify_eq/=
  | |- preserves _ (match ?x with _ => _ end) => destruct x
  | |- preserves _ (if ?x then _ else _) => destruct x
  end.

Ltac preserves_tac := repeat (first [ solve [eauto with pres] | preserves_step ]).

Create HintDb pres discriminated.

(** * Unknown ids *)

Lemma enable_extension_unknown env depth extension_id w :
  extension_id ∉ _extension_classes w →
  _extension_instances w !! extension_id = None →
  enable_extension env (S depth) extension_id w
  = (w, Raise (InvalidExtensionError extension_id)).
Proof.
  intros Hc Hi. simpl. unfold bind, gets. rewrite Hi.
  by rewrite bool_decide_eq_false_2.
Qed.

Lemma disable_extension_not_enabled depth extension_id w :
  _extension_instances w !! extension_id = None →
  disable_extension (S depth) extension_id w = (w, Return tt).
Proof. intros Hi. simpl. unfold bind, gets. by rewrite Hi. Qed.

Lemma disable_extension_unknown_class depth extension_id w :
  is_Some (_extension_instances w !! extension_id) →
  extension_id ∉ _extension_classes w →
  disable_extension (S depth) extension_id w
  = (w, Raise (InvalidExtensionError extension_id)).
Proof.
  intros [e Hi] Hc. simpl. unfold bind, gets. rewrite Hi.
  by rewrite bool_decide_eq_false_2.
Qed.


(** * Settings.load *)

Lemma dict_update_lookup (d other : gmap string string) k :
  dict_update d other !! k
  = match other !! k with Some v => Some v | None => d !! k end.
Proof.
  unfold dict_update. rewrite lookup_union.
  destruct (other !! k), (d !! k); done.
Qed.

Lemma dict_update_items_union (items : list (string * string)) :
  ∀ d, dict_update_items d items = list_to_map (reverse items) ∪ d.
Proof.
  unfold dict_update_items.
  induction items as [|[k v] items IH]; intros d; simpl.
  { by rewrite (left_id_L ∅ (∪)). }
  rewrite IH, reverse_cons, list_to_map_app. simpl.
  rewrite <-(assoc_L (∪)), insert_empty. by rewrite <-insert_union_singleton_l.
Qed.

Lemma Settings_update_lookup registration self k :
  (Settings_update registration self).1 !! k
  = match stored_entries registration !! k with
    | Some v => Some v
    | None => self !! k
    end.
Proof.
  unfold Settings_update, stored_entries.
  destruct (reg_settings registration) as [d|items stop]; simpl.
  - apply dict_update_lookup.
  - rewrite dict_update_items_union. apply (dict_update_lookup self).
Qed.

Lemma Settings_load_update registration self :
  (Settings_load registration self).1 = (Settings_update registration self).1.
Proof.
  unfold Settings_load.
  by destruct (Settings_update registration self) as [d [[]|[]]].
Qed.

(** C9, as the specification states it, fails: [load] does not replace what
    is in memory, and it lets an error through.  A key held in memory and
    absent from the persisted mapping survives the call; with a blob that
    does not decode the mapping in memory is left as it is, not emptied; and
    with a persisted value that [update] cannot iterate over, [load] raises
    the [TypeError] of [update]. *)
Lemma Settings_load_keeps_memory :
  ¬ load_replaces_contents
      (stored_registration (stored_mapping {[ "size" := "10" ]})) stale_settings
  ∧ ¬ load_replaces_contents
        (stored_registration (stored_items [] (Some ValueError))) stale_settings
  ∧ ¬ load_replaces_contents
        (stored_registration (stored_items [] (Some TypeError))) ∅.
Proof.
  split; [|split]; intros H.
  - apply (f_equal (λ p, p.1 !! "color")) in H. vm_compute in H. discriminate.
  - apply (f_equal (λ p, p.1 !! "color")) in H. vm_compute in H. discriminate.
  - apply (f_equal snd) in H. vm_compute in H. discriminate.
Qed.

(** C9, amended: [Settings.load] merges into the mapping in memory the
    entries that [update] takes from the persisted value: these win, every
    other entry in memory stays, and no key is ever removed.  It returns
    normally when [update] returns and when [update] raises [ValueError],
    what was merged before the error staying merged; every other error of
    [update], such as the [TypeError] of a persisted value that is neither a
    mapping nor a sequence of pairs, reaches the caller.  On the empty
    mapping of a new [Settings], a persisted mapping gives exactly that
    mapping. *)
Theorem Settings_load_merges (registration : RegisteredExtension)
    (self : gmap string string) :
  (Settings_load registration self).2
  = match reg_settings registration with
    | stored_items _ (Some e) =>
        if decide (e = ValueError) then Return tt else Raise e
    | _ => Return tt
    end
  ∧ (∀ k, (Settings_load registration self).1 !! k
          = match stored_entries registration !! k with
            | Some v => Some v
            | None => self !! k
            end)
  ∧ (∀ k, is_Some (self !! k) →
          is_Some ((Settings_load registration self).1 !! k))
  ∧ (Settings_load registration ∅).1 = stored_entries registration
  ∧ ∀ d, reg_settings registration = stored_mapping d →
         Settings_load registration ∅ = (d, Return tt).
Proof.
  assert (∀ k, (Settings_load registration self).1 !! k
               = match stored_entries registration !! k with
                 | Some v => Some v
                 | None => self !! k
                 end) as Hk.
  { intros k. rewrite Settings_load_update. apply Settings_update_lookup. }
  split; [|split; [done|split; [|split]]].
  - unfold Settings_load, Settings_update.
    destruct (reg_settings registration) as [d|items [e|]]; simpl; [done| |done].
    destruct (decide (e = ValueError)) as [->|]; [done|]. by destruct e.
  - intros k [v Hv]. rewrite Hk, Hv.
    destruct (stored_entries registration !! k); eauto.
  - apply map_eq. intros k. rewrite Settings_load_update, Settings_update_lookup.
    rewrite lookup_empty. by destruct (_ !! k).
  - intros d Hd. unfold Settings_load, Settings_update, dict_update.
    rewrite Hd. by rewrite (right_id_L ∅ (∪)).
Qed.

(** * Ids that were never discovered *)

(** C7, as the specification states it, fails: in the manager that has
    discovered nothing, disabling an id returns without an error. *)
Lemma disable_unknown_returns_silently :
  ¬ unknown_id_is_reported plain_env 5 "pkg.none.Missing" ExtensionManager_init.
Proof. intros [_ H]. vm_compute in H. discriminate. Qed.

(** C7, amended: for an id that was never discovered, which has no known
    class and no live instance, [enable_extension] raises
    [InvalidExtensionError] and changes nothing, while [disable_extension]
    takes its not-enabled exit: it returns normally and changes nothing. *)
Theorem unknown_id_enable_raises_disable_returns env depth extension_id w :
  extension_id ∉ _extension_classes w →
  _extension_instances w !! extension_id = None →
  enable_extension env (S depth) extension_id w
    = (w, Raise (InvalidExtensionError extension_id))
  ∧ disable_extension (S depth) extension_id w = (w, Return tt).
Proof.
  intros Hc Hi. split.
  - by apply enable_extension_unknown.
  - by apply disable_extension_not_enabled.
Qed.

Lemma unknown_id_witness :
  enable_extension plain_env 3 "pkg.none.Missing" discovered_world
    = (discovered_world, Raise (InvalidExtensionError "pkg.none.Missing"))
  ∧ disable_extension 3 "pkg.none.Missing" discovered_world
    = (discovered_world, Return tt).
Proof.
  apply (unknown_id_enable_raises_disable_returns plain_env 2
           "pkg.none.Missing" discovered_world).
  - vm_compute. intros H. by repeat (apply elem_of_cons in H as [H|H]; [discriminate|]);
      apply elem_of_nil in H.
  - reflexivity.
Defined.

(** * Rules for the steps of the manager *)

Lemma wp_get_info c i Q E w :
  cls_info w !! c = Some i → Q i w → wp (get_info c) Q E w.
Proof. intros H HQ. unfold get_info. apply wp_bind, wp_gets. by rewrite H. Qed.

Lemma wp_get_registration c r Q E w :
  cls_registration w !! c = Some r → Q r w → wp (get_registration c) Q E w.
Proof. intros H HQ. unfold get_registration. apply wp_bind, wp_gets. by rewrite H. Qed.

Lemma wp_update_registration c f r Q E w :
  cls_registration w !! c = Some r →
  Q tt (set_cls_registration (<[c := f r]>) w) →
  wp (update_registration c f) Q E w.
Proof.
  intros H HQ. unfold update_registration. apply wp_bind.
  eapply wp_get_registration; [done|]. by apply wp_modify.
Qed.

Lemma wp_update_info c f i Q E w :
  cls_info w !! c = Some i →
  Q tt (set_cls_info (<[c := f i]>) w) →
  wp (update_info c f) Q E w.
Proof.
  intros H HQ. unfold update_info. apply wp_bind.
  eapply wp_get_info; [done|]. by apply wp_modify.
Qed.

Lemma wp_registration_save c r Q E w :
  cls_registration w !! c = Some r →
  Q tt (set_trace (λ t, t ++ [ev_save r])
          (set_objects (<[reg_class_name r := r]>) w)) →
  wp (registration_save c) Q E w.
Proof.
  intros H HQ. unfold registration_save. apply wp_bind.
  eapply wp_get_registration; [done|]. apply wp_bind, wp_modify. by apply wp_emit.
Qed.

Lemma wp_add_to_installed_apps c i Q E w :
  cls_info w !! c = Some i →
  (∀ apps, Q tt (set_INSTALLED_APPS (λ _, apps)
                   (set_trace (λ t, t ++ [ev_add_to_installed_apps (info_app_name i)]) w))) →
  wp (_add_to_installed_apps c) Q E w.
Proof.
  intros H HQ. unfold _add_to_installed_apps. apply wp_bind.
  eapply wp_get_info; [done|]. apply wp_bind, wp_emit, wp_bind, wp_gets.
  case_bool_decide.
  - apply wp_ret. specialize (HQ (INSTALLED_APPS w)). by destruct w.
  - apply wp_modify. apply (HQ (INSTALLED_APPS w ++ [info_app_name i])).
Qed.

Lemma wp_remove_from_installed_apps c i Q E w :
  cls_info w !! c = Some i →
  (∀ apps, Q tt (set_INSTALLED_APPS (λ _, apps)
                   (set_trace (λ t, t ++ [ev_remove_from_installed_apps (info_app_name i)]) w))) →
  wp (_remove_from_installed_apps c) Q E w.
Proof.
  intros H HQ. unfold _remove_from_installed_apps. apply wp_bind.
  eapply wp_get_info; [done|]. apply wp_bind, wp_emit, wp_bind, wp_gets.
  simpl. destruct (list_remove _ _) as [apps'|].
  - apply wp_modify. apply (HQ apps').
  - apply wp_ret. specialize (HQ (INSTALLED_APPS w)). by destruct w.
Qed.

Lemma wp_new_object Q E w :
  Q (next_obj w) (set_next_obj S w) → wp new_object Q E w.
Proof. intros HQ. unfold new_object. by apply wp_bind, wp_gets, wp_bind, wp_modify, wp_ret. Qed.

Lemma wp_cut {A} (Q1 : A → World → Prop) (E1 : exn → World → Prop) m Q E w :
  wp m Q1 E1 w →
  (∀ a w', Q1 a w' → Q a w') →
  (∀ e w', E1 e w' → E e w') →
  wp m Q E w.
Proof. apply wp_mono. Qed.

(** * Lists, traces *)

Lemma not_elem_of_dict_delitem k l : k ∉ dict_delitem k l.
Proof. unfold dict_delitem. by intros [? _]%list_elem_of_filter. Qed.

Lemma inits_app t1 t2 : inits (t1 ++ t2) = inits t1 ++ inits t2.
Proof. apply omap_app. Qed.

Lemma uninits_app t1 t2 : uninits (t1 ++ t2) = uninits t1 ++ uninits t2.
Proof. apply omap_app. Qed.

Lemma elem_of_inits c o t : (c, o) ∈ inits t ↔ extension_initialized c o ∈ t.
Proof.
  unfold inits. rewrite list_elem_of_omap. split.
  - intros (e & He & Heq). destruct e; simplify_eq. done.
  - intros H. by exists (extension_initialized c o).
Qed.

Lemma elem_of_uninits c o t : (c, o) ∈ uninits t ↔ extension_uninitialized c o ∈ t.
Proof.
  unfold uninits. rewrite list_elem_of_omap. split.
  - intros (e & He & Heq). destruct e; simplify_eq. done.
  - intros H. by exists (extension_uninitialized c o).
Qed.


(** Computes the fields of a world built with the [set_] functions. *)
Ltac refold_world w :=
  fold (cls_info w); fold (cls_registration w); fold (_extension_classes w);
  fold (_extension_instances w); fold (url_patterns w); fold (INSTALLED_APPS w);
  fold (objects w); fold (htdocs w); fold (unremovable w); fold (hook_points w);
  fold (next_obj w);
  fold (trace w).

Ltac refold_world_in w H :=
  fold (cls_info w) in H; fold (cls_registration w) in H;
  fold (_extension_classes w) in H; fold (_extension_instances w) in H;
  fold (url_patterns w) in H; fold (INSTALLED_APPS w) in H;
  fold (objects w) in H; fold (htdocs w) in H; fold (unremovable w) in H;
  fold (hook_points w) in H;
  fold (next_obj w) in H; fold (trace w) in H.

Ltac wsimpl :=
  cbv [set_cls_info set_cls_registration set_extension_classes
       set_extension_instances set_url_patterns set_INSTALLED_APPS set_objects
       set_htdocs set_hook_points set_next_obj set_trace
       installed_world initialized_world uninitialized_world
       cls_info cls_registration _extension_classes _extension_instances
       url_patterns INSTALLED_APPS objects htdocs unremovable hook_points next_obj
       trace];
  repeat match goal with w : World |- _ => progress refold_world w end.

Tactic Notation "wsimpl" "in" hyp(H) :=
  cbv [set_cls_info set_cls_registration set_extension_classes
       set_extension_instances set_url_patterns set_INSTALLED_APPS set_objects
       set_htdocs set_hook_points set_next_obj set_trace
       installed_world initialized_world uninitialized_world
       cls_info cls_registration _extension_classes _extension_instances
       url_patterns INSTALLED_APPS objects htdocs unremovable hook_points next_obj
       trace] in H;
  repeat match goal with w : World |- _ => progress refold_world_in w H end.

(** * Install *)

(** The three outcomes of [_install_extension] for a class that carries its
    attributes and whose static directory can be removed: success; the error
    of a failed copy, raised before the registration is touched; the error
    of a failed evolution, raised after the registration was marked installed
    and saved. *)
Lemma _install_extension_spec env c w i r :
  cls_info w !! c = Some i →
  cls_registration w !! c = Some r →
  info_htdocs_path i ∉ unremovable w →
  wp (_install_extension env c)
    (λ _ w', install_ok env c = true
             ∧ ∃ apps dirs t, w' = installed_world w c r apps dirs t
                              ∧ inits t = [] ∧ uninits t = [])
    (λ e w', (install_ok env c = false
              ∧ copytree_fails env (cls_module (ext_class env c)) = true
              ∧ e = OSError (info_htdocs_path i)
              ∧ ∃ dirs t, w' = set_trace (λ _, trace w ++ t) (set_htdocs (λ _, dirs) w)
                          ∧ inits t = [] ∧ uninits t = [])
             ∨ (install_ok env c = false
                ∧ ∃ message, evolve_error env c = Some message
                ∧ e = InstallExtensionError message
                ∧ ∃ apps dirs t, w' = installed_world w c r apps dirs t
                                 ∧ inits t = [] ∧ uninits t = []))
    w.
Proof.
  intros Hi Hr Hrm. unfold _install_extension, install_ok.
  apply wp_bind. eapply wp_get_info; [done|].
  apply wp_bind, wp_gets. apply wp_bind.
  apply (wp_cut (λ _ w1, (info_htdocs_path i ∉ htdocs w1)
                         ∧ ∃ dirs t, w1 = set_trace (λ _, trace w ++ t)
                                            (set_htdocs (λ _, dirs) w)
                                     ∧ inits t = [] ∧ uninits t = [])
                (λ _ _, False)).
  { case_bool_decide.
    - unfold rmtree. apply wp_bind, wp_gets.
      rewrite bool_decide_eq_false_2 by done.
      apply wp_bind, wp_modify, wp_emit. simpl.
      split; [apply not_elem_of_dict_delitem|].
      by exists (dict_delitem (info_htdocs_path i) (htdocs w)), [ev_rmtree (info_htdocs_path i)].
    - apply wp_ret. split; [done|]. exists (htdocs w), [].
      rewrite app_nil_r. by destruct w. }
  2: done.
  intros _ w1 (Hp & dirs1 & t1 & -> & Ht1 & Hu1). simpl in Hp.
  apply wp_bind.
  apply (wp_cut (λ _ w2, negb (resource_exists_htdocs env (cls_module (ext_class env c))
                               && copytree_fails env (cls_module (ext_class env c))) = true
                         ∧ ∃ dirs t, w2 = set_trace (λ _, trace w ++ t)
                                            (set_htdocs (λ _, dirs) w)
                                     ∧ inits t = [] ∧ uninits t = [])
                (λ e w2, negb (resource_exists_htdocs env (cls_module (ext_class env c))
                               && copytree_fails env (cls_module (ext_class env c))) = false
                         ∧ copytree_fails env (cls_module (ext_class env c)) = true
                         ∧ e = OSError (info_htdocs_path i)
                         ∧ ∃ dirs t, w2 = set_trace (λ _, trace w ++ t)
                                            (set_htdocs (λ _, dirs) w)
                                     ∧ inits t = [] ∧ uninits t = [])).
  { destruct (resource_exists_htdocs env _) eqn:Hres; simpl.
    - unfold copytree. apply wp_bind, wp_gets. simpl.
      rewrite bool_decide_eq_false_2 by done.
      destruct (copytree_fails env _) eqn:Hcp; simpl.
      + apply wp_raise. do 3 (split; [done|]). by exists dirs1, t1.
      + apply wp_bind, wp_modify, wp_emit. simpl. split; [done|].
        exists (dirs1 ++ [info_htdocs_path i]),
               (t1 ++ [ev_copytree (cls_module (ext_class env c)) (info_htdocs_path i)]).
        rewrite inits_app, uninits_app, Ht1, Hu1, app_assoc. done.
    - apply wp_ret. split; [done|]. by exists dirs1, t1. }
  2: { intros e w2 (-> & ? & -> & ?). by left. }
  intros _ w2 (-> & dirs2 & t2 & -> & Ht2 & Hu2). simpl. clear Hp.
  apply wp_bind. eapply wp_update_registration; [done|].
  apply wp_bind. eapply wp_registration_save; [by simpl; simplify_map_eq|].
  apply wp_bind. eapply wp_add_to_installed_apps; [done|]. intros apps.
  apply wp_bind, wp_emit, wp_bind, wp_try_except. unfold evolve.
  destruct (evolve_error env c) as [message|] eqn:Hev.
  - apply wp_raise. apply wp_bind, wp_emit, wp_raise. right.
    split; [done|]. exists message. do 2 (split; [done|]).
    eexists apps, dirs2, (t2 ++ [_; _; _; _]).
    split; [wsimpl; f_equal; by rewrite <-!app_assoc|].
    by rewrite inits_app, uninits_app, Ht2, Hu2.
  - apply wp_emit. apply wp_bind. eapply wp_remove_from_installed_apps; [done|].
    intros apps'. apply wp_bind.
    eapply wp_update_registration; [by simpl; simplify_map_eq|].
    eapply wp_registration_save; [by simpl; simplify_map_eq|].
    split; [done|]. eexists apps', dirs2, (t2 ++ [_; _; _; _; _; _]).
    split; [wsimpl; rewrite !insert_insert_eq; f_equal; by rewrite <-!app_assoc|].
    by rewrite inits_app, uninits_app, Ht2, Hu2.
Qed.

(** * Initialization *)

Lemma create_hooks_spec o points w :
  wp (create_hooks o points)
    (λ _ w', ∃ hp n t, w' = set_trace (λ _, trace w ++ t)
                              (set_next_obj (λ _, n) (set_hook_points (λ _, hp) w))
                       ∧ inits t = [] ∧ uninits t = [])
    (λ _ _, False) w.
Proof.
  revert w. induction points as [|p points IH]; intros w; simpl.
  - apply wp_ret. exists (hook_points w), (next_obj w), [].
    rewrite app_nil_r. by destruct w.
  - apply wp_bind. unfold ExtensionHook_init.
    apply wp_bind, wp_new_object, wp_bind. unfold add_hook.
    apply wp_bind, wp_gets, wp_bind, wp_modify, wp_emit, wp_ret, wp_bind.
    eapply wp_cut; [apply IH| |done].
    intros hs w' (hp & n & t & -> & Ht & Hu). apply wp_ret.
    eexists hp, n, ([_] ++ t). split; [wsimpl; by rewrite <-app_assoc|].
    by rewrite inits_app, uninits_app, Ht, Hu.
Qed.

Lemma Settings_loads_load r :
  Settings_loads r = true → ∃ d, Settings_load r ∅ = (d, Return tt).
Proof.
  unfold Settings_loads, Settings_load, Settings_update.
  destruct (reg_settings r) as [d|items [e|]]; [eauto| |eauto].
  intros ->%bool_decide_eq_true. eauto.
Qed.

Lemma _init_extension_spec env c w i r :
  _extension_instances w !! c = None →
  cls_info w !! c = Some i →
  cls_registration w !! c = Some r →
  init_ok env c = true →
  construct_ok env c = true →
  Settings_loads r = true →
  wp (_init_extension env c)
    (λ e w', ext_id e = c
             ∧ ∃ urls apps hp n t,
                 w' = initialized_world w c e i r urls apps hp n t
                 ∧ inits t = [] ∧ uninits t = [])
    (λ _ _, False) w.
Proof.
  intros Hn Hi Hr Hok Hctor Hset. unfold _init_extension.
  apply wp_bind, wp_gets. rewrite Hn. apply wp_bind.
  unfold Extension_init. apply wp_bind, wp_new_object, wp_bind.
  eapply wp_get_registration; [done|].
  destruct (Settings_loads_load r Hset) as [d ->].
  apply bool_decide_eq_true in Hctor. rewrite Hctor.
  apply wp_bind. eapply wp_cut; [apply create_hooks_spec| |done].
  intros hs w1 (hp & n & t & -> & Ht & Hu). apply wp_ret.
  apply wp_bind, wp_modify. apply wp_bind.
  set (e0 := {| ext_obj := next_obj w; ext_id := c; hooks := hs;
                admin_urlpatterns := None; settings := d |}).
  apply (wp_cut (λ e w2, ext_id e = c ∧ ext_obj e = next_obj w
                   ∧ ∃ urls n2 t2,
                       w2 = set_trace (λ _, trace w ++ t2)
                              (set_url_patterns (λ _, urls)
                                 (set_extension_instances (<[c := e]>)
                                    (set_next_obj (λ _, n2)
                                       (set_hook_points (λ _, hp) w))))
                       ∧ inits t2 = [] ∧ uninits t2 = [])
                (λ _ _, False)).
  { unfold init_ok in Hok. destruct (cls_is_configurable _); simpl in Hok.
    - apply bool_decide_eq_true in Hok as [b Hb]. unfold _install_admin_urls.
      simpl. rewrite Hb. destruct b.
      + apply wp_bind, wp_new_object, wp_bind, wp_modify, wp_bind, wp_modify,
          wp_bind, wp_emit, wp_ret.
        do 2 (split; [done|]). eexists _, _, (t ++ [_]).
        split; [wsimpl; rewrite insert_insert_eq, <-app_assoc; reflexivity|].
        by rewrite inits_app, uninits_app, Ht, Hu.
      + apply wp_ret. do 2 (split; [done|]). by exists (url_patterns w), n, t.
    - apply wp_ret. do 2 (split; [done|]). by exists (url_patterns w), n, t. }
  2: done.
  intros e w2 (He & Ho & urls & n2 & t2 & -> & Ht2 & Hu2). clear e0.
  apply wp_bind. eapply wp_get_registration; [done|].
  apply wp_bind. eapply wp_update_info; [done|].
  apply wp_bind. eapply wp_update_info; [by wsimpl; simplify_map_eq|].
  apply wp_bind. eapply wp_add_to_installed_apps; [by wsimpl; simplify_map_eq|].
  intros apps. apply wp_bind, wp_emit, wp_bind, wp_emit, wp_ret.
  split; [done|]. eexists urls, apps, hp, n2, (t2 ++ [_; _]).
  split; [wsimpl; rewrite !insert_insert_eq, <-!app_assoc; reflexivity|].
  by rewrite inits_app, uninits_app, Ht2, Hu2.
Qed.

(** * Enabling: the successful path *)

Lemma enableable_S env known n c :
  enableable env known n c = true → enableable env known (S n) c = true.
Proof.
  revert c. induction n as [|n IH]; intros c; [done|].
  intros H. simpl in H. apply andb_prop in H as [H1 H2].
  change (enableable env known (S (S n)) c) with
    (bool_decide (c ∈ known) && install_ok env c && init_ok env c
     && construct_ok env c
     && forallb (enableable env known (S n)) (cls_requirements (ext_class env c))).
  rewrite H1. simpl. apply forallb_forall. intros x Hx.
  apply IH. revert x Hx. by apply forallb_forall.
Qed.

Lemma enableable_known env known n c :
  enableable env known n c = true →
  c ∈ known ∧ install_ok env c = true ∧ init_ok env c = true
  ∧ forallb (enableable env known (pred n)) (cls_requirements (ext_class env c)) = true
  ∧ construct_ok env c = true.
Proof.
  destruct n; [done|]. simpl. intros H.
  repeat (apply andb_prop in H as [H ?]). apply bool_decide_eq_true in H. done.
Qed.

Lemma ready_lookup w c :
  ready w → c ∈ _extension_classes w →
  ∃ i r, cls_info w !! c = Some i ∧ cls_registration w !! c = Some r.
Proof.
  intros Hr Hc. unfold ready in Hr. rewrite Forall_forall in Hr.
  destruct (Hr c Hc) as ([i Hi] & [r Hreg] & _). eauto.
Qed.

(** For a known class of a ready world, the host stands in the way neither
    of the removal of its static directory nor of the loading of its
    settings. *)
Lemma ready_host w c i r :
  ready w → c ∈ _extension_classes w →
  cls_info w !! c = Some i → cls_registration w !! c = Some r →
  (info_htdocs_path i ∉ unremovable w) ∧ Settings_loads r = true.
Proof.
  intros Hr Hc Hi Hreg. unfold ready in Hr. rewrite Forall_forall in Hr.
  destruct (Hr c Hc) as (_ & _ & Hh). unfold host_ready in Hh.
  rewrite Hi, Hreg in Hh. simpl in Hh. apply andb_prop in Hh as [Hp Hs].
  by apply bool_decide_eq_true in Hp.
Qed.

Lemma enable_post_refl env known n w : ready w → enable_post env known n w w.
Proof.
  intros Hr. do 5 (split; [done|]).
  exists []. split; [by rewrite app_nil_r|]. split.
  - intros y o. split; [by intros ?%elem_of_nil|].
    intros [Hn (e & He & _)]. congruence.
  - intros y Hn [e He]. congruence.
Qed.

Lemma enable_post_S env known n w w' :
  enable_post env known n w w' → enable_post env known (S n) w w'.
Proof.
  intros (Hc & Hr & Hs & Hk & Hu & Ht). do 4 (split; [done|]). split; [|done].
  intros z Hz. apply Hu. destruct (enableable env known n z) eqn:E; [|done].
  apply enableable_S in E. congruence.
Qed.

Lemma enable_post_trans env known n w w1 w2 :
  enable_post env known n w w1 → enable_post env known n w1 w2 →
  enable_post env known n w w2.
Proof.
  intros (Hc & Hr & Hs & Hk & Hu & t & Ht & Hi & Hreg)
         (Hc' & Hr' & Hs' & Hk' & Hu' & t' & Ht' & Hi' & Hreg').
  split; [congruence|]. split; [done|]. split; [by auto|]. split.
  { intros y [e Hy]. rewrite Hk' by eauto. apply Hk. eauto. }
  split.
  { intros z Hz. destruct (Hu z Hz) as [<- <-]. by apply Hu'. }
  exists (t ++ t'). split; [by rewrite Ht', Ht, app_assoc|]. split.
  - intros y o. rewrite inits_app, elem_of_app, Hi, Hi'. split.
    + intros [[Hn (e & He & Ho)]|[Hn (e & He & Ho)]].
      * split; [done|]. exists e. auto.
      * split; [|by eauto]. destruct (_extension_instances w !! y) eqn:E; [|done].
        apply Hs in E. congruence.
    + intros [Hn (e & He & Ho)].
      destruct (_extension_instances w1 !! y) as [e1|] eqn:E.
      * left. split; [done|]. exists e1. split; [done|].
        apply Hs' in E. congruence.
      * right. eauto.
  - intros y Hn Hy.
    destruct (_extension_instances w1 !! y) as [e1|] eqn:E.
    + rewrite Hk' by eauto. apply Hreg; eauto.
    + by apply Hreg'.
Qed.

(** The loop over the requirements, given that enabling at depth [n]
    succeeds. *)
Lemma enable_requirements_ok env known n depth :
  (∀ c w, enableable env known n c = true → ready w →
          _extension_classes w = known →
          wp (enable_extension env depth c)
            (λ r w', enable_post env known n w w' ∧ enable_result env c w r w')
            (λ _ _, False) w) →
  ∀ l w, forallb (enableable env known n) l = true → ready w →
         _extension_classes w = known →
         wp (for_each l (λ requirement_id,
                           enable_extension env depth requirement_id ;;; ret tt))
           (λ _ w', enable_post env known n w w'
                    ∧ ∀ r, r ∈ l → is_Some (_extension_instances w' !! r))
           (λ _ _, False) w.
Proof.
  intros IH l. induction l as [|x l IHl]; intros w Hl Hr Hk; simpl.
  - apply wp_ret. split; [by apply enable_post_refl|]. by intros r ?%elem_of_nil.
  - simpl in Hl. apply andb_prop in Hl as [Hx Hl].
    apply wp_bind, wp_bind. eapply wp_cut; [by apply IH| |done].
    intros r w1 [Hpost Hres]. apply wp_ret.
    assert (is_Some (_extension_instances w1 !! x)) as Hx1.
    { destruct r as [e|]; simpl in Hres.
      - destruct Hres as (_ & ? & _). eauto.
      - by destruct Hres as [-> ?]. }
    pose proof Hpost as (Hc1 & Hr1 & Hs1 & _).
    eapply wp_cut; [apply IHl; [done|done|congruence]| |done].
    intros _ w2 [Hpost2 Hall]. split; [by eapply enable_post_trans|].
    intros y [->|Hy]%elem_of_cons; [|by auto].
    destruct Hx1 as [e He]. destruct Hpost2 as (_ & _ & Hs2 & _).
    apply Hs2 in He. eauto.
Qed.

(** The steps of [enable_extension] that follow the loop, seen as a whole. *)
Lemma enable_step_post env known n c w1 w3 e i3 r3 t :
  enableable env known n c = true →
  ready w1 →
  _extension_instances w1 !! c = None →
  _extension_classes w3 = _extension_classes w1 →
  cls_info w3 = <[c := i3]> (cls_info w1) →
  cls_registration w3 = <[c := r3]> (cls_registration w1) →
  reg_enabled r3 = true → reg_installed r3 = true →
  _extension_instances w3 = <[c := e]> (_extension_instances w1) →
  trace w3 = trace w1 ++ t ++ [extension_initialized c (ext_obj e)] →
  inits t = [] →
  unremovable w3 = unremovable w1 →
  host_ready w3 c = true →
  enable_post env known n w1 w3.
Proof.
  intros Hen Hr Hn Hc Hi Hreg He Hin Hinst Ht Hti Hun Hhost.
  split; [done|]. split.
  { unfold ready. rewrite Hc. eapply Forall_impl; [exact Hr|].
    intros x ([ix Hx] & [rx Hrx] & Hhx). simpl.
    destruct (decide (x = c)) as [->|Hne].
    - rewrite Hi, Hreg, !lookup_insert_eq. eauto.
    - unfold host_ready in *. rewrite Hi, Hreg, Hun.
      rewrite !lookup_insert_ne by done. eauto. }
  split.
  { intros y e' Hy. rewrite Hinst. rewrite lookup_insert_ne; [done|congruence]. }
  split.
  { intros y [e' Hy]. rewrite Hreg. rewrite lookup_insert_ne; [done|congruence]. }
  split.
  { intros z Hz. rewrite Hreg, Hinst.
    rewrite !lookup_insert_ne by congruence. done. }
  exists (t ++ [extension_initialized c (ext_obj e)]). split; [done|]. split.
  - intros y o. rewrite inits_app, Hti. simpl. rewrite list_elem_of_singleton.
    rewrite Hinst. split.
    + intros [= -> ->]. split; [done|]. exists e. by simplify_map_eq.
    + intros [Hy (e' & He' & Ho)]. destruct (decide (y = c)) as [->|Hne].
      * rewrite lookup_insert_eq in He'. by simplify_eq.
      * rewrite lookup_insert_ne in He' by done. congruence.
  - intros y Hy [e' He']. rewrite Hinst in He'. rewrite Hreg.
    destruct (decide (y = c)) as [->|Hne].
    + rewrite lookup_insert_eq. eauto.
    + rewrite lookup_insert_ne in He' by done. congruence.
Qed.

Lemma enable_extension_ok env known n :
  ∀ depth c w,
    enableable env known n c = true → n ≤ depth → ready w →
    _extension_classes w = known →
    wp (enable_extension env depth c)
      (λ r w', enable_post env known n w w' ∧ enable_result env c w r w')
      (λ _ _, False) w.
Proof.
  induction n as [|n IH]; intros depth c w Hen Hle Hr Hk; [done|].
  destruct (enableable env known n c) eqn:Hen'.
  { eapply wp_cut; [apply (IH depth c w); [done|lia|done|done]| |done].
    intros r w' [? ?]. split; [by apply enable_post_S|done]. }
  destruct depth as [|depth]; [lia|]. simpl.
  apply wp_bind, wp_gets.
  destruct (_extension_instances w !! c) as [e|] eqn:Hinst.
  { apply wp_ret. split; [by apply enable_post_refl|]. simpl. eauto. }
  apply wp_bind, wp_gets.
  destruct (enableable_known _ _ _ _ Hen) as (Hc & Hinstall & Hinit & Hreqs & Hctor).
  simpl in Hreqs. rewrite Hk. rewrite bool_decide_eq_true_2 by done.
  apply wp_bind.
  eapply wp_cut;
    [apply (enable_requirements_ok env known n depth);
       [intros; apply IH; [done|lia|done|done]|done|done|done]| |done].
  intros _ w1 [Hpost Hall].
  pose proof Hpost as (Hc1 & Hr1 & Hs1 & Hk1 & Hu1 & _).
  destruct (Hu1 c Hen') as [Hreg1 Hinst1]. rewrite Hinst in Hinst1.
  destruct (ready_lookup w1 c Hr1) as (i & r & Hi & Hreg); [congruence|].
  destruct (ready_host w1 c i r Hr1) as [Hrm Hset]; [congruence|done|done|].
  apply wp_bind, wp_try_except.
  eapply wp_cut; [by apply _install_extension_spec| |].
  2: { intros e w' [[? _]|[? _]]; congruence. }
  intros _ w2 (_ & apps & dirs & t & -> & Ht & Hu).
  apply wp_bind. eapply wp_update_registration; [by wsimpl; simplify_map_eq|].
  apply wp_bind. eapply wp_registration_save; [by wsimpl; simplify_map_eq|].
  apply wp_bind.
  eapply wp_cut;
    [eapply _init_extension_spec;
       [done|done|by wsimpl; simplify_map_eq|done|done|done]| |done].
  intros e w3 (Hid & urls & apps' & hp & n' & t' & -> & Ht' & Hu').
  apply wp_ret.
  match goal with |- enable_post _ _ _ _ ?w' ∧ _ => set (w3 := w') end.
  assert (enable_post env known (S n) w1 w3) as Hstep.
  { eapply (enable_step_post env known (S n) c w1 w3 e _
              (set_reg_enabled true (set_reg_installed true r))
              (t ++ [_] ++ t')); [done|done|done|done| | |done|done|done| | |done|].
    - subst w3. wsimpl. reflexivity.
    - subst w3. wsimpl. by rewrite insert_insert_eq.
    - subst w3. wsimpl. by rewrite <-!app_assoc.
    - by rewrite !inits_app, Ht, Ht'.
    - subst w3. unfold host_ready. wsimpl. rewrite !lookup_insert_eq. simpl.
      rewrite bool_decide_eq_true_2 by done. done. }
  split; [eapply enable_post_trans; [by apply enable_post_S|done]|].
  simpl. split; [done|]. split; [subst w3; wsimpl; by simplify_map_eq|].
  split.
  { intros x Hx. destruct (Hall x Hx) as [ex Hex].
    destruct Hstep as (_ & _ & Hs3 & _). apply Hs3 in Hex. eauto. }
  destruct Hpost as (_ & _ & _ & _ & _ & tl & Htl & _).
  eexists (tl ++ t ++ [_] ++ t'). subst w3. wsimpl.
  rewrite Htl. by rewrite <-!app_assoc.
Qed.

Lemma enableable_not_own_requirement env known n c :
  enableable env known n c = true → c ∉ cls_requirements (ext_class env c).
Proof.
  revert c. induction n as [|n IH]; intros c Hen Hc; [done|].
  destruct (enableable_known _ _ _ _ Hen) as (_ & _ & _ & Hreqs & _). simpl in Hreqs.
  rewrite forallb_forall in Hreqs. specialize (Hreqs c).
  rewrite <-list_elem_of_In in Hreqs. by eapply IH; [apply Hreqs|].
Qed.

(** Decides a closed proposition by evaluation. *)
Ltac by_compute := apply (bool_decide_unpack _); vm_compute; exact I.

(** C3: let B be a discovered class that requires the discovered class A,
    neither being enabled, in a world where every known class carries its
    attributes, with a static directory that can be removed and stored
    settings that can be loaded, and let the requirements below B form a
    tree of known classes whose install, construction and initialization do
    not fail, no deeper than the recursion limit allows.  Then [enable_extension] of B returns the live
    instance of B; afterwards A and B both have a live instance and a
    registration that says enabled, and the [extension_initialized]
    notification of A was sent before that of B, which is the last event. *)
Theorem enable_extension_enables_requirement_first env n depth A B w :
  ready w →
  enableable env (_extension_classes w) n B = true →
  n ≤ depth →
  A ∈ cls_requirements (ext_class env B) →
  _extension_instances w !! A = None →
  _extension_instances w !! B = None →
  ∃ w' eA eB rA rB t1 t2,
    enable_extension env depth B w = (w', Return (Some eB))
    ∧ _extension_instances w' !! A = Some eA
    ∧ _extension_instances w' !! B = Some eB
    ∧ cls_registration w' !! A = Some rA ∧ reg_enabled rA = true
    ∧ cls_registration w' !! B = Some rB ∧ reg_enabled rB = true
    ∧ trace w' = trace w ++ t1 ++ [extension_initialized A (ext_obj eA)]
                   ++ t2 ++ [extension_initialized B (ext_obj eB)].
Proof.
  intros Hr Hen Hle HA HnA HnB.
  destruct (wp_returns _ _ _ (enable_extension_ok env _ n depth B w Hen Hle Hr eq_refl))
    as (w' & r & Hrun & Hpost & Hres).
  destruct r as [eB|]; simpl in Hres.
  2: { destruct Hres as [_ [? ?]]. congruence. }
  destruct Hres as (_ & HB & Hreqs & t0 & Ht0).
  destruct (Hreqs A HA) as [eA HeA].
  destruct Hpost as (_ & _ & _ & _ & _ & t & Ht & Hi & Hreg).
  assert (t = t0 ++ [extension_initialized B (ext_obj eB)]) as ->.
  { rewrite Ht0 in Ht. by apply app_inv_head in Ht. }
  destruct (Hreg A HnA) as (rA & HrA & HenA & _); [by eauto|].
  destruct (Hreg B HnB) as (rB & HrB & HenB & _); [by eauto|].
  assert (extension_initialized A (ext_obj eA) ∈ t0) as Hin.
  { assert ((A, ext_obj eA) ∈ inits (t0 ++ [extension_initialized B (ext_obj eB)]))
      as Hin by (apply Hi; eauto).
    rewrite inits_app, elem_of_app in Hin. destruct Hin as [Hin|Hin].
    - by apply elem_of_inits.
    - simpl in Hin. apply list_elem_of_singleton in Hin. simplify_eq.
      by apply enableable_not_own_requirement in Hen. }
  apply list_elem_of_split in Hin as (t1 & t2 & ->).
  exists w', eA, eB, rA, rB, t1, t2. repeat (split; [done|]).
  rewrite Ht0. by rewrite <-!app_assoc.
Qed.

Lemma enable_extension_enables_requirement_first_witness :
  ∃ w' eA eB rA rB t1 t2,
    enable_extension plain_env 10 "pkg.b.B" discovered_world
      = (w', Return (Some eB))
    ∧ _extension_instances w' !! "pkg.a.A" = Some eA
    ∧ _extension_instances w' !! "pkg.b.B" = Some eB
    ∧ cls_registration w' !! "pkg.a.A" = Some rA ∧ reg_enabled rA = true
    ∧ cls_registration w' !! "pkg.b.B" = Some rB ∧ reg_enabled rB = true
    ∧ trace w' = trace discovered_world ++ t1
                   ++ [extension_initialized "pkg.a.A" (ext_obj eA)]
                   ++ t2 ++ [extension_initialized "pkg.b.B" (ext_obj eB)].
Proof.
  apply (enable_extension_enables_requirement_first plain_env 2 10
           "pkg.a.A" "pkg.b.B" discovered_world).
  - by_compute.
  - reflexivity.
  - lia.
  - by_compute.
  - reflexivity.
  - reflexivity.
Defined.

(** * Enabling: a failing install *)

Lemma wp_raises {A} (m : M A) (E : exn → World → Prop) w :
  wp m (λ _ _, False) E w → ∃ w' e, m w = (w', Raise e) ∧ E e w'.
Proof. unfold wp. destruct (m w) as [w' [a|e]]; [done|eauto]. Qed.

Lemma not_enableable_install env known n c :
  install_ok env c = false → enableable env known n c = false.
Proof.
  intros H. destruct n; [done|]. simpl. rewrite H.
  by rewrite andb_false_r.
Qed.

(** C1, as the specification states it, fails.  When the evolution of the
    database fails the registration has already been marked installed and
    saved; when the copy of the static files fails the error is not an
    [EnablingExtensionError]. *)
Lemma install_failure_not_as_specified :
  ¬ install_failure_leaves_registered failing_evolve_env 10 "pkg.b.B" discovered_world
  ∧ ¬ install_failure_leaves_registered failing_copy_env 10 "pkg.a.A" discovered_world.
Proof.
  split.
  - intros (_ & (r & Hr & Hi & _) & _). vm_compute in Hr.
    injection Hr as <-. discriminate.
  - intros ((message & H) & _). vm_compute in H. discriminate.
Qed.

(** C1, amended: let [c] be a discovered class that is not enabled, whose
    requirements can be enabled, and whose install fails, in a world where
    every known class carries its attributes and the host can remove its
    static directory.  Then
    [enable_extension] raises; afterwards [c] has no live instance and no
    [extension_initialized] notification was sent for it.  When the evolution
    of the database fails, the error is an [EnablingExtensionError] that
    carries the message of the cause, and the registration of [c] has been
    marked installed, in memory and in the database, its enabled flag being
    as before.  When the copy of the static files fails, the error of the copy
    is raised as it is and the registration of [c] is untouched. *)
Theorem enable_extension_install_failure env n depth c w r :
  ready w →
  c ∈ _extension_classes w →
  _extension_instances w !! c = None →
  cls_registration w !! c = Some r →
  forallb (enableable env (_extension_classes w) n)
    (cls_requirements (ext_class env c)) = true →
  n ≤ depth →
  install_ok env c = false →
  ∃ w' e t,
    enable_extension env (S depth) c w = (w', Raise e)
    ∧ _extension_instances w' !! c = None
    ∧ trace w' = trace w ++ t
    ∧ (∀ o, extension_initialized c o ∉ t)
    ∧ ((∃ message, evolve_error env c = Some message
          ∧ e = EnablingExtensionError message
          ∧ cls_registration w' !! c = Some (set_reg_installed true r)
          ∧ objects w' !! reg_class_name r = Some (set_reg_installed true r))
       ∨ (∃ path, copytree_fails env (cls_module (ext_class env c)) = true
            ∧ e = OSError path
            ∧ cls_registration w' !! c = Some r)).
Proof.
  intros Hr Hc Hinst Hreg Hreqs Hle Hfail.
  cut (wp (enable_extension env (S depth) c) (λ _ _, False)
         (λ e w', _extension_instances w' !! c = None
            ∧ (∃ t, trace w' = trace w ++ t ∧ ∀ o, extension_initialized c o ∉ t)
            ∧ ((∃ message, evolve_error env c = Some message
                  ∧ e = EnablingExtensionError message
                  ∧ cls_registration w' !! c = Some (set_reg_installed true r)
                  ∧ objects w' !! reg_class_name r = Some (set_reg_installed true r))
               ∨ (∃ path, copytree_fails env (cls_module (ext_class env c)) = true
                    ∧ e = OSError path
                    ∧ cls_registration w' !! c = Some r))) w).
  { intros (w' & e & Hrun & ? & (t & ? & ?) & ?)%wp_raises. by exists w', e, t. }
  simpl. apply wp_bind, wp_gets. rewrite Hinst.
  apply wp_bind, wp_gets. rewrite bool_decide_eq_true_2 by done.
  apply wp_bind.
  eapply wp_cut;
    [apply (enable_requirements_ok env (_extension_classes w) n depth);
       [intros; by apply enable_extension_ok|done|done|done]| |done].
  intros _ w1 [(Hc1 & Hr1 & _ & _ & Hu1 & tl & Htl & Hil & _) _].
  destruct (Hu1 c (not_enableable_install env _ n c Hfail)) as [Hreg1 Hinst1].
  rewrite Hreg in Hreg1. rewrite Hinst in Hinst1.
  destruct (ready_lookup w1 c Hr1) as (i & r' & Hi & Hreg'); [congruence|].
  assert (r' = r) as -> by congruence.
  destruct (ready_host w1 c i r Hr1) as [Hrm Hset]; [congruence|done|done|].
  assert (∀ o, extension_initialized c o ∉ tl) as Hno.
  { intros o Ho%elem_of_inits%Hil. destruct Ho as [_ (e & He & _)]. congruence. }
  apply wp_bind, wp_try_except.
  eapply wp_cut; [by apply _install_extension_spec| |].
  { intros _ w2 [? _]. congruence. }
  intros e w2 [(_ & Hcp & -> & dirs & t & -> & Ht & _)
              |(_ & message & Hev & -> & apps & dirs & t & -> & Ht & _)]; simpl.
  - split; [done|]. split.
    + exists (tl ++ t). wsimpl. rewrite Htl, app_assoc. split; [done|].
      intros o [?|Ho%elem_of_inits]%elem_of_app; [by eapply Hno|].
      rewrite Ht in Ho. by apply elem_of_nil in Ho.
    + right. by exists (info_htdocs_path i).
  - apply wp_raise. split; [done|]. split.
    + exists (tl ++ t). wsimpl. rewrite Htl, app_assoc. split; [done|].
      intros o [?|Ho%elem_of_inits]%elem_of_app; [by eapply Hno|].
      rewrite Ht in Ho. by apply elem_of_nil in Ho.
    + left. exists message. do 2 (split; [done|]). wsimpl. by simplify_map_eq.
Qed.

Lemma enable_extension_install_failure_witness :
  ∃ w' e t,
    enable_extension failing_evolve_env 3 "pkg.b.B" discovered_world = (w', Raise e)
    ∧ _extension_instances w' !! "pkg.b.B" = None
    ∧ trace w' = trace discovered_world ++ t
    ∧ (∀ o, extension_initialized "pkg.b.B" o ∉ t)
    ∧ ((∃ message, evolve_error failing_evolve_env "pkg.b.B" = Some message
          ∧ e = EnablingExtensionError message
          ∧ cls_registration w' !! "pkg.b.B"
            = Some (set_reg_installed true (RegisteredExtension_new "pkg.b.B" "ProjB"))
          ∧ objects w' !! reg_class_name (RegisteredExtension_new "pkg.b.B" "ProjB")
            = Some (set_reg_installed true (RegisteredExtension_new "pkg.b.B" "ProjB")))
       ∨ (∃ path, copytree_fails failing_evolve_env
                    (cls_module (ext_class failing_evolve_env "pkg.b.B")) = true
            ∧ e = OSError path
            ∧ cls_registration w' !! "pkg.b.B"
              = Some (RegisteredExtension_new "pkg.b.B" "ProjB"))).
Proof.
  apply (enable_extension_install_failure failing_evolve_env 1 2 "pkg.b.B"
           discovered_world (RegisteredExtension_new "pkg.b.B" "ProjB")).
  - by_compute.
  - by_compute.
  - reflexivity.
  - reflexivity.
  - reflexivity.
  - lia.
  - reflexivity.
Defined.

(** * Enabling twice *)

Lemma wp_True {A} (m : M A) w : wp m (λ _ _, True) (λ _ _, True) w.
Proof. unfold wp. by destruct (m w) as [? [?|?]]. Qed.

(** Whatever [_init_extension] meets, the instance it returns is the live
    instance of the class. *)
Lemma _init_extension_returns_live env c w :
  wp (_init_extension env c)
    (λ e w', _extension_instances w' !! c = Some e) (λ _ _, True) w.
Proof.
  unfold _init_extension. apply wp_bind, wp_gets.
  destruct (_extension_instances w !! c); [by apply wp_raise|].
  apply wp_bind. unfold Extension_init. apply wp_bind, wp_new_object, wp_bind.
  unfold get_registration. apply wp_bind, wp_gets, wp_attr.
  destruct (cls_registration _ !! c) as [r|]; [|done].
  destruct (Settings_load r ∅) as [d [[]|x]]; [|by apply wp_raise].
  apply wp_bind. eapply wp_cut; [apply create_hooks_spec| |done].
  intros hs w1 (hp & n & t & -> & _).
  destruct (cls_init_raises (ext_class env c)); [by apply wp_raise|]. apply wp_ret.
  apply wp_bind, wp_modify, wp_bind.
  apply (wp_cut (λ e w2, ∃ urls n2 t2 insts,
                   w2 = set_trace (λ _, t2)
                          (set_url_patterns (λ _, urls)
                             (set_extension_instances (λ _, <[c := e]> insts)
                                (set_next_obj (λ _, n2)
                                   (set_hook_points (λ _, hp) w)))))
                (λ _ _, True)).
  { destruct (cls_is_configurable _).
    - unfold _install_admin_urls. simpl. destruct (admin_urlconf env c) as [[]|].
      + apply wp_bind, wp_new_object, wp_bind, wp_modify, wp_bind, wp_modify,
          wp_bind, wp_emit, wp_ret. by eexists _, _, _, _.
      + apply wp_ret. by eexists _, _, _, _.
      + by apply wp_raise.
    - apply wp_ret. by eexists _, _, _, _. }
  2: done.
  intros e w2 (urls & n2 & t2 & insts & ->).
  apply wp_bind, wp_bind, wp_gets, wp_attr. wsimpl.
  destruct (cls_registration w !! c) as [r'|]; [|done].
  apply wp_bind. unfold update_info, get_info.
  apply wp_bind, wp_bind, wp_gets, wp_attr. wsimpl.
  destruct (cls_info w !! c) as [i|]; [|done].
  apply wp_modify, wp_bind, wp_bind, wp_bind, wp_gets, wp_attr. wsimpl.
  rewrite lookup_insert_eq.
  apply wp_modify, wp_bind. eapply wp_add_to_installed_apps; [by wsimpl; simplify_map_eq|].
  intros apps. apply wp_bind, wp_emit, wp_bind, wp_emit, wp_ret.
  wsimpl. by simplify_map_eq.
Qed.

(** The result of [enable_extension], whatever it meets. *)
Lemma enable_extension_result env depth c w :
  wp (enable_extension env depth c)
    (λ r w', match r with
             | Some e => _extension_instances w' !! c = Some e
             | None => w' = w ∧ is_Some (_extension_instances w !! c)
             end)
    (λ _ _, True) w.
Proof.
  destruct depth as [|depth]; [done|]. simpl.
  apply wp_bind, wp_gets.
  destruct (_extension_instances w !! c) eqn:Hinst.
  { apply wp_ret. eauto. }
  apply wp_bind, wp_gets. case_bool_decide; [|by apply wp_raise].
  apply wp_bind. eapply wp_cut; [apply wp_True| |done]. intros _ w1 _.
  apply wp_bind. eapply wp_cut; [apply wp_True| |done]. intros _ w2 _.
  apply wp_bind. eapply wp_cut; [apply wp_True| |done]. intros _ w3 _.
  apply wp_bind. eapply wp_cut; [apply wp_True| |done]. intros _ w4 _.
  apply wp_bind. eapply wp_cut; [apply _init_extension_returns_live| |done].
  intros e w5 He. by apply wp_ret.
Qed.

(** C2, as the specification states it, fails: the second call returns
    [None], not the instance the first call returned. *)
Lemma second_enable_returns_None :
  ¬ second_enable_returns_same_instance plain_env 10 "pkg.a.A" discovered_world.
Proof. intros H. vm_compute in H. discriminate. Qed.

(** C2, amended: when [enable_extension] of an id returns, a second call
    returns [None] and leaves the world as it is, the trace included: no
    route is registered again, nothing is installed or saved again.  The id
    is enabled, and its live instance is the one the first call returned, or
    the one it had before when the first call already returned [None]. *)
Theorem enable_extension_twice env depth depth' c w w1 r :
  enable_extension env depth c w = (w1, Return r) →
  enable_extension env (S depth') c w1 = (w1, Return None)
  ∧ is_Some (get_enabled_extension c w1)
  ∧ get_enabled_extension c w1
    = match r with Some e => Some e | None => get_enabled_extension c w end.
Proof.
  intros Hrun. pose proof (enable_extension_result env depth c w) as H.
  unfold wp in H. rewrite Hrun in H. unfold get_enabled_extension.
  assert (is_Some (_extension_instances w1 !! c)) as [e He].
  { destruct r; [by eauto|]. by destruct H as [-> ?]. }
  split; [|split; [by eauto|]].
  - simpl. unfold bind, gets. by rewrite He.
  - destruct r; [done|]. by destruct H as [-> _].
Qed.

Lemma enable_extension_twice_witness :
  enable_extension plain_env 3 "pkg.b.B" enabled_world
    = (enabled_world, Return None)
  ∧ is_Some (get_enabled_extension "pkg.b.B" enabled_world)
  ∧ get_enabled_extension "pkg.b.B" enabled_world = Some enabled_B.
Proof.
  apply (enable_extension_twice plain_env 10 2 "pkg.b.B" discovered_world
           enabled_world (Some enabled_B)).
  vm_compute. reflexivity.
Defined.

(** * Removal from Python lists *)

Lemma list_remove_Some {A} `{EqDecision A} (x : A) l :
  x ∈ l → is_Some (list_remove x l).
Proof.
  induction l as [|y l IH]; [by intros ?%elem_of_nil|].
  intros Hx. simpl. destruct (decide (x = y)) as [->|Hne]; [by eauto|].
  apply elem_of_cons in Hx as [?|Hx]; [done|].
  destruct (IH Hx) as [l' ->]. by eauto.
Qed.

Lemma list_remove_elem_of {A} `{EqDecision A} (x y : A) l l' :
  list_remove x l = Some l' → y ∈ l' → y ∈ l.
Proof.
  revert l'. induction l as [|z l IH]; intros l'; [done|]. simpl.
  destruct (decide (x = z)) as [->|Hne].
  - intros [= ->] ?. by apply elem_of_cons; right.
  - destruct (list_remove x l) as [l''|]; [|done]. intros [= <-].
    intros [->|?]%elem_of_cons; apply elem_of_cons; [by left|right; eauto].
Qed.

Lemma list_remove_elem_of_ne {A} `{EqDecision A} (x y : A) l l' :
  list_remove x l = Some l' → y ≠ x → y ∈ l → y ∈ l'.
Proof.
  revert l'. induction l as [|z l IH]; intros l'; [done|]. simpl.
  destruct (decide (x = z)) as [->|Hne].
  - intros [= ->] ? [?|?]%elem_of_cons; done.
  - destruct (list_remove x l) as [l''|]; [|done]. intros [= <-] ?.
    intros [->|?]%elem_of_cons; apply elem_of_cons; [by left|right; eauto].
Qed.

Lemma list_remove_NoDup {A} `{EqDecision A} (x : A) l l' :
  list_remove x l = Some l' → NoDup l → NoDup l' ∧ x ∉ l'.
Proof.
  revert l'. induction l as [|z l IH]; intros l'; [done|]. simpl.
  destruct (decide (x = z)) as [->|Hne].
  - intros [= ->] [? ?]%NoDup_cons. done.
  - destruct (list_remove x l) as [l''|] eqn:E; [|done]. intros [= <-].
    intros [Hz Hl]%NoDup_cons. destruct (IH _ eq_refl Hl) as [? ?]. split.
    + apply NoDup_cons. split; [|done]. intros ?. apply Hz.
      by eapply list_remove_elem_of.
    + intros [?|?]%elem_of_cons; done.
Qed.

(** * Dependents *)

Lemma dependents_loop_spec w dependency items result :
  Forall (λ x, x = dependency ∨ is_Some (requirements_at w x)) items →
  dependents_loop dependency items result w
  = (w, Return (result ++ dependents_in w dependency items)).
Proof.
  revert result. induction items as [|x items IH]; intros result Hall; simpl.
  - by rewrite app_nil_r.
  - apply Forall_cons in Hall as [Hx Hall].
    destruct (decide (x = dependency)) as [->|Hne]; [by apply IH|].
    destruct Hx as [?|[l Hl]]; [done|]. unfold requirements_at in *.
    unfold bind at 1. unfold get_info, bind, gets, attr.
    destruct (cls_info w !! x) as [i|]; [|done]. simpl in *.
    rewrite Hl. simpl. rewrite IH by done. by rewrite app_assoc.
Qed.

Lemma get_dependent_extensions_spec w c :
  is_Some (_extension_instances w !! c) →
  c ∈ _extension_classes w →
  resolved w →
  get_dependent_extensions c w = (w, Return (dependents_of w c)).
Proof.
  intros [e He] Hc Hres. unfold get_dependent_extensions, get_installed_extension.
  unfold bind at 1. unfold gets at 1. rewrite He.
  unfold bind at 1. unfold bind at 1. unfold gets at 1.
  rewrite bool_decide_eq_true_2 by done. unfold ret at 1.
  unfold bind, gets. unfold dependents_of.
  rewrite dependents_loop_spec; [done|].
  eapply Forall_impl; [exact Hres|]. intros x [_ ?]. by right.
Qed.

(** * Uninitialization *)

Lemma point_hooks_set_hook_points w f p :
  point_hooks (set_hook_points f w) p = default [] (f (hook_points w) !! p).
Proof. done. Qed.

(** Removing the hook [h] from its hook point. *)
Lemma remove_hook_spec h w :
  h ∈ point_hooks w (hook_point h) →
  wp (remove_hook h)
    (λ _ w', ∃ hp, w' = set_trace (λ _, trace w ++ [ev_remove_hook h])
                          (set_hook_points (λ _, hp) w)
             ∧ (∀ h' p, h' ∈ point_hooks w' p → h' ∈ point_hooks w p)
             ∧ (∀ h' p, h' ≠ h → h' ∈ point_hooks w p → h' ∈ point_hooks w' p))
    (λ _ _, False) w.
Proof.
  intros Hin. unfold remove_hook. apply wp_bind, wp_gets.
  destruct (list_remove_Some _ _ Hin) as [l' Hl'].
  apply wp_bind, wp_attr. rewrite Hl'. apply wp_bind, wp_modify, wp_emit.
  exists (<[hook_point h := l']> (hook_points w)). split; [done|].
  split.
  - intros h' p. unfold point_hooks at 1. wsimpl.
    destruct (decide (p = hook_point h)) as [->|Hne].
    + rewrite lookup_insert_eq. simpl. by eapply list_remove_elem_of.
    + by rewrite lookup_insert_ne.
  - intros h' p Hh' Hp. unfold point_hooks. wsimpl.
    destruct (decide (p = hook_point h)) as [->|Hne].
    + rewrite lookup_insert_eq. simpl. by eapply list_remove_elem_of_ne.
    + by rewrite lookup_insert_ne.
Qed.

Lemma shutdown_hooks_spec l :
  ∀ w, NoDup l → Forall (λ h, h ∈ point_hooks w (hook_point h)) l →
  wp (for_each l ExtensionHook_shutdown)
    (λ _ w', ∃ hp, w' = set_trace (λ _, trace w ++ (ev_remove_hook <$> l))
                          (set_hook_points (λ _, hp) w)
             ∧ (∀ h' p, h' ∈ point_hooks w' p → h' ∈ point_hooks w p)
             ∧ (∀ h' p, h' ∉ l → h' ∈ point_hooks w p → h' ∈ point_hooks w' p))
    (λ _ _, False) w.
Proof.
  induction l as [|h l IH]; intros w Hnd Hall; simpl.
  - apply wp_ret. exists (hook_points w). rewrite app_nil_r.
    split; [by destruct w|]. done.
  - apply NoDup_cons in Hnd as [Hh Hnd]. apply Forall_cons in Hall as [Hin Hall].
    apply wp_bind. unfold ExtensionHook_shutdown.
    eapply wp_cut; [by apply remove_hook_spec| |done].
    intros _ w1 (hp1 & -> & Hsub & Hkeep).
    eapply wp_cut; [apply IH; [done|]| |done].
    { rewrite Forall_forall in Hall |- *. intros h' Hh'. apply Hkeep; [|by auto].
      intros ->. done. }
    intros _ w2 (hp2 & -> & Hsub2 & Hkeep2). exists hp2. split.
    { wsimpl. by rewrite <-app_assoc. }
    split.
    + intros h' p Hh'. apply Hsub. by apply Hsub2.
    + intros h' p Hh' Hp. apply not_elem_of_cons in Hh' as [? ?].
      apply Hkeep2; [done|]. by apply Hkeep.
Qed.

Lemma remove_urlpatterns_spec l :
  ∀ w, NoDup l → Forall (λ u, u ∈ url_patterns w) l →
  wp (for_each l remove_urlpattern)
    (λ _ w', ∃ urls, w' = set_trace (λ _, trace w ++ (ev_remove_admin_url <$> l))
                            (set_url_patterns (λ _, urls) w)
             ∧ (∀ u, u ∈ urls → u ∈ url_patterns w)
             ∧ (∀ u, u ∉ l → u ∈ url_patterns w → u ∈ urls))
    (λ _ _, False) w.
Proof.
  induction l as [|u l IH]; intros w Hnd Hall; simpl.
  - apply wp_ret. exists (url_patterns w). rewrite app_nil_r.
    split; [by destruct w|]. done.
  - apply NoDup_cons in Hnd as [Hu Hnd]. apply Forall_cons in Hall as [Hin Hall].
    apply wp_bind. unfold remove_urlpattern. apply wp_bind, wp_gets.
    destruct (list_remove_Some _ _ Hin) as [l' Hl'].
    apply wp_bind, wp_attr. rewrite Hl'. apply wp_bind, wp_modify, wp_emit.
    eapply wp_cut; [apply IH; [done|]| |done].
    { rewrite Forall_forall in Hall |- *. intros u' Hu'. wsimpl.
      eapply list_remove_elem_of_ne; [done| |by auto]. intros ->. done. }
    intros _ w2 (urls & -> & Hsub & Hkeep). wsimpl in Hsub. wsimpl in Hkeep.
    exists urls. split.
    { wsimpl. by rewrite <-app_assoc. }
    split.
    + intros u' Hu'. eapply list_remove_elem_of; [done|]. by apply Hsub.
    + intros u' Hu' Hp. apply not_elem_of_cons in Hu' as [? ?].
      apply Hkeep; [done|]. by eapply list_remove_elem_of_ne.
Qed.

Lemma dict_delitem_not_elem_of k l : k ∉ l → dict_delitem k l = l.
Proof.
  unfold dict_delitem. induction l as [|x l IH]; [done|].
  intros [Hx Hl]%not_elem_of_cons. rewrite filter_cons_True by done.
  by rewrite IH.
Qed.

(** [_uninstall_extension] returns; it calls [rmtree] when the static
    directory exists, after which the directory is there only if it cannot
    be removed. *)
Lemma _uninstall_extension_spec e i w :
  cls_info w !! ext_id e = Some i →
  wp (_uninstall_extension e)
    (λ _ w', ∃ dirs,
       w' = set_trace (λ _, trace w ++
                            if bool_decide (info_htdocs_path i ∈ htdocs w)
                            then [ev_rmtree (info_htdocs_path i)] else [])
              (set_htdocs (λ _, dirs) w)
       ∧ dirs = if bool_decide (info_htdocs_path i ∈ unremovable w)
                then htdocs w
                else dict_delitem (info_htdocs_path i) (htdocs w))
    (λ _ _, False) w.
Proof.
  intros Hi. unfold _uninstall_extension. apply wp_bind.
  eapply wp_get_info; [done|]. apply wp_bind, wp_gets. case_bool_decide.
  - unfold rmtree. apply wp_bind, wp_gets, wp_bind. case_bool_decide.
    + apply wp_ret, wp_emit. exists (htdocs w). split; [by destruct w|done].
    + apply wp_modify, wp_emit. by eexists.
  - apply wp_ret. exists (htdocs w). rewrite app_nil_r. split; [by destruct w|].
    case_bool_decide; [done|]. by rewrite dict_delitem_not_elem_of.
Qed.

Lemma _uninit_extension_spec e i w :
  _extension_instances w !! ext_id e = Some e →
  cls_info w !! ext_id e = Some i →
  NoDup (hooks e) →
  Forall (λ h, h ∈ point_hooks w (hook_point h)) (hooks e) →
  NoDup (urls_of e) →
  Forall (λ u, u ∈ url_patterns w) (urls_of e) →
  wp (_uninit_extension e)
    (λ _ w', ∃ urls apps hp,
       w' = uninitialized_world w e i urls apps hp
       ∧ (∀ h p, h ∈ point_hooks w' p → h ∈ point_hooks w p)
       ∧ (∀ h p, h ∉ hooks e → h ∈ point_hooks w p → h ∈ point_hooks w' p)
       ∧ (∀ u, u ∈ urls → u ∈ url_patterns w)
       ∧ (∀ u, u ∉ urls_of e → u ∈ url_patterns w → u ∈ urls))
    (λ _ _, False) w.
Proof.
  intros Hinst Hi Hnd Hall Hndu Hallu. unfold _uninit_extension.
  apply wp_bind. unfold Extension_shutdown. apply wp_bind, wp_emit.
  eapply wp_cut; [apply shutdown_hooks_spec; [done|done]| |done].
  intros _ w1 (hp & -> & Hsub & Hkeep).
  apply wp_bind.
  apply (wp_cut (λ _ w2, ∃ urls,
                   w2 = set_trace (λ _, trace w ++ [ev_shutdown (ext_obj e)]
                                          ++ (ev_remove_hook <$> hooks e)
                                          ++ (ev_remove_admin_url <$> urls_of e))
                          (set_url_patterns (λ _, urls)
                             (set_hook_points (λ _, hp) w))
                   ∧ (∀ u, u ∈ urls → u ∈ url_patterns w)
                   ∧ (∀ u, u ∉ urls_of e → u ∈ url_patterns w → u ∈ urls))
                (λ _ _, False)).
  { unfold urls_of in *. destruct (admin_urlpatterns e) as [l|]; simpl in *.
    - eapply wp_cut; [apply remove_urlpatterns_spec; [done|done]| |done].
      intros _ w2 (urls & -> & ? & ?). exists urls. split; [|done].
      wsimpl. by rewrite <-!app_assoc.
    - apply wp_ret. exists (url_patterns w). split; [|done].
      wsimpl. rewrite app_nil_r, <-app_assoc. by destruct w. }
  2: done.
  intros _ w2 (urls & -> & Hsubu & Hkeepu).
  apply wp_bind. eapply wp_remove_from_installed_apps; [done|]. intros apps.
  apply wp_bind, wp_emit, wp_bind. eapply wp_update_info; [done|].
  apply wp_bind, wp_emit, wp_bind, wp_gets. wsimpl. rewrite Hinst.
  apply wp_bind, wp_modify, wp_emit.
  exists urls, apps, hp. split.
  { wsimpl. f_equal. by rewrite <-!app_assoc. }
  done.
Qed.

(** * Disabling: the successful path *)

Lemma dependents_in_ext w w' c items :
  (∀ x, requirements_at w' x = requirements_at w x) →
  dependents_in w' c items = dependents_in w c items.
Proof.
  intros H. induction items as [|x items IH]; [done|]. simpl.
  by rewrite H, IH.
Qed.

Lemma dependents_of_ext w w' c :
  _extension_classes w' = _extension_classes w →
  (∀ x, requirements_at w' x = requirements_at w x) →
  dependents_of w' c = dependents_of w c.
Proof. intros Hc H. unfold dependents_of. rewrite Hc. by apply dependents_in_ext. Qed.

Lemma cascade_ok_ext w w' n c :
  _extension_classes w' = _extension_classes w →
  (∀ x, requirements_at w' x = requirements_at w x) →
  cascade_ok w' n c = cascade_ok w n c.
Proof.
  intros Hc H. revert c. induction n as [|n IH]; intros c; [done|]. simpl.
  rewrite (dependents_of_ext w w') by done.
  induction (dependents_of w c) as [|x l IHl]; [done|]. simpl. by rewrite IH, IHl.
Qed.

Lemma cascade_ok_S w n c :
  cascade_ok w n c = true → cascade_ok w (S n) c = true.
Proof.
  revert c. induction n as [|n IH]; intros c; [done|].
  intros H. simpl in H.
  change (cascade_ok w (S (S n)) c)
    with (forallb (cascade_ok w (S n)) (dependents_of w c)).
  apply forallb_forall. intros x Hx. apply IH. revert x Hx. by apply forallb_forall.
Qed.

Lemma disable_post_refl n w : disable_ready w → disable_post n w w.
Proof.
  intros Hr. do 6 (split; [done|]). split.
  { intros y [e He] Hn. congruence. }
  exists []. split; [by rewrite app_nil_r|].
  intros y o. split; [by intros ?%elem_of_nil|].
  intros [Hn (e & He & _)]. congruence.
Qed.

Lemma disable_post_S n w w' : disable_post n w w' → disable_post (S n) w w'.
Proof.
  intros (Hc & Hq & Hr & Hs & Hu & Hrest). do 4 (split; [done|]). split; [|done].
  intros z Hz. apply Hu. destruct (cascade_ok w n z) eqn:E; [|done].
  apply cascade_ok_S in E. congruence.
Qed.

Lemma disable_post_trans n w w1 w2 :
  disable_post n w w1 → disable_post n w1 w2 → disable_post n w w2.
Proof.
  intros (Hc & Hq & Hr & Hs & Hu & Hk & Hrm & t & Ht & Hun)
         (Hc' & Hq' & Hr' & Hs' & Hu' & Hk' & Hrm' & t' & Ht' & Hun').
  split; [congruence|]. split; [intros x; by rewrite Hq'|]. split; [done|].
  split; [by auto|]. split.
  { intros z Hz. rewrite Hu'; [by apply Hu|]. by rewrite (cascade_ok_ext w w1). }
  split.
  { intros y Hy.
    assert (_extension_instances w1 !! y = None
            ∨ is_Some (_extension_instances w2 !! y)) as Hy1.
    { destruct Hy as [Hy|Hy]; [|by right]. left.
      destruct (_extension_instances w1 !! y) eqn:E; [|done].
      apply Hs in E. congruence. }
    assert (_extension_instances w !! y = None
            ∨ is_Some (_extension_instances w1 !! y)) as Hy0.
    { destruct Hy as [Hy|[e Hy]]; [by left|]. right. apply Hs' in Hy. eauto. }
    destruct (Hk' y Hy1) as [-> ->]. by apply Hk. }
  split.
  { intros y Hy Hn. destruct (_extension_instances w1 !! y) as [e1|] eqn:E.
    - destruct (Hrm' y) as (r & Hr1 & Hr2); [by eauto|done|].
      destruct (Hk y) as [Hreg _]; [by eauto|]. exists r. by rewrite <-Hreg.
    - destruct (Hrm y Hy E) as (r & Hr1 & Hr2). exists r. split; [done|].
      destruct (Hk' y) as [-> _]; [by left|done]. }
  exists (t ++ t'). split; [by rewrite Ht', Ht, app_assoc|].
  intros y o. rewrite uninits_app, elem_of_app, Hun, Hun'. split.
  - intros [[Hn (e & He & Ho)]|[Hn (e & He & Ho)]].
    + split; [|by eauto]. destruct (_extension_instances w2 !! y) eqn:E; [|done].
      apply Hs' in E. congruence.
    + split; [done|]. apply Hs in He. eauto.
  - intros [Hn (e & He & Ho)].
    destruct (_extension_instances w1 !! y) as [e1|] eqn:E.
    + right. split; [done|]. exists e1. split; [done|].
      apply Hs in E. congruence.
    + left. eauto.
Qed.

Lemma uninits_remove_hooks (l : list ExtensionHook) : uninits (ev_remove_hook <$> l) = [].
Proof. by induction l. Qed.

Lemma uninits_remove_urls (l : list urlpattern) :
  uninits (ev_remove_admin_url <$> l) = [].
Proof. by induction l. Qed.

Lemma uninits_disable_steps b e i r :
  uninits (disable_steps b e i r) = [(ext_id e, ext_obj e)].
Proof.
  unfold disable_steps. rewrite !uninits_app.
  rewrite uninits_remove_hooks, uninits_remove_urls. by destruct b.
Qed.

Lemma resolved_lookup w c :
  resolved w → c ∈ _extension_classes w →
  ∃ i r, cls_info w !! c = Some i ∧ cls_registration w !! c = Some r.
Proof.
  intros Hr Hc. unfold resolved in Hr. rewrite Forall_forall in Hr.
  destruct (Hr c Hc) as [[r Hreg] [l Hl]]. unfold requirements_at in Hl.
  destruct (cls_info w !! c) as [i|]; [eauto|done].
Qed.

(** The steps of [disable_extension] on the instance itself, seen as a
    whole. *)
Lemma disable_step_post n c e i r w1 w5 t :
  cascade_ok w1 n c = true →
  disable_ready w1 →
  _extension_instances w1 !! c = Some e →
  cls_info w1 !! c = Some i →
  cls_registration w1 !! c = Some r →
  _extension_classes w5 = _extension_classes w1 →
  cls_info w5 = <[c := set_info_enabled false i]> (cls_info w1) →
  cls_registration w5 = <[c := set_reg_enabled false r]> (cls_registration w1) →
  _extension_instances w5 = delete c (_extension_instances w1) →
  (∀ h p, h ∉ hooks e → h ∈ point_hooks w1 p → h ∈ point_hooks w5 p) →
  (∀ u, u ∉ urls_of e → u ∈ url_patterns w1 → u ∈ url_patterns w5) →
  trace w5 = trace w1 ++ t →
  uninits t = [(c, ext_obj e)] →
  disable_post n w1 w5.
Proof.
  intros Hn [Hres Hown] He Hi Hr Hc5 Hi5 Hr5 He5 Hh5 Hu5 Ht Hun.
  assert (∀ x, requirements_at w5 x = requirements_at w1 x) as Hq.
  { intros x. unfold requirements_at. rewrite Hi5.
    destruct (decide (x = c)) as [->|Hne].
    - rewrite lookup_insert_eq, Hi. done.
    - by rewrite lookup_insert_ne. }
  split; [done|]. split; [done|]. split.
  { split.
    - unfold resolved. rewrite Hc5. eapply Forall_impl; [exact Hres|].
      intros x [[rx Hx] ?]. simpl. rewrite Hq. split; [|done]. rewrite Hr5.
      destruct (decide (x = c)) as [->|Hne].
      + rewrite lookup_insert_eq. eauto.
      + rewrite lookup_insert_ne by done. eauto.
    - unfold owns_registered in *. rewrite He5.
      apply map_Forall_lookup. intros c2 e2 [Hne He2]%lookup_delete_Some.
      pose proof (map_Forall_lookup_1 _ _ _ _ Hown He2)
        as (? & ? & ? & Hhooks & ? & Hurls & Hdisj).
      pose proof (map_Forall_lookup_1 _ _ _ _ Hdisj He) as Hce.
      destruct (Hce Hne) as [Hdh Hdu].
      split; [done|]. split; [by rewrite Hc5|]. split; [done|]. split.
      { rewrite Forall_forall in Hhooks, Hdh |- *. intros h Hh.
        apply Hh5; [by apply Hdh|by apply Hhooks]. }
      split; [done|]. split.
      { rewrite Forall_forall in Hurls, Hdu |- *. intros u Hu.
        apply Hu5; [by apply Hdu|by apply Hurls]. }
      apply map_Forall_lookup. intros c3 e3 [_ He3]%lookup_delete_Some.
      by apply (map_Forall_lookup_1 _ _ _ _ Hdisj He3). }
  split.
  { intros y ey. rewrite He5. by intros [_ ?]%lookup_delete_Some. }
  split.
  { intros z Hz. rewrite He5. apply lookup_delete_ne. congruence. }
  split.
  { intros y Hy. assert (y ≠ c) as Hne.
    { intros ->. destruct Hy as [Hy|[ey Hy]]; [congruence|].
      rewrite He5, lookup_delete_eq in Hy. done. }
    rewrite Hr5, Hi5. by rewrite !lookup_insert_ne. }
  split.
  { intros y [ey Hy] Hy5. rewrite He5 in Hy5.
    destruct (decide (y = c)) as [->|Hne].
    - exists r. rewrite Hr5, lookup_insert_eq. done.
    - rewrite lookup_delete_ne in Hy5 by done. congruence. }
  exists t. split; [done|]. intros y o. rewrite Hun, list_elem_of_singleton, He5.
  split.
  - intros [= -> ->]. rewrite lookup_delete_eq. eauto.
  - intros [Hy (ey & Hey & Ho)]. destruct (decide (y = c)) as [->|Hne].
    + congruence.
    + rewrite lookup_delete_ne in Hy by done. congruence.
Qed.

(** The loop over the dependents, given that disabling at depth [n]
    succeeds. *)
Lemma disable_dependents_ok n depth :
  (∀ c w, cascade_ok w n c = true → disable_ready w →
          wp (disable_extension depth c)
            (λ _ w', disable_post n w w' ∧ disable_result c w w')
            (λ _ _, False) w) →
  ∀ l w, forallb (cascade_ok w n) l = true → disable_ready w →
         wp (for_each l (disable_extension depth))
           (λ _ w', disable_post n w w'
                    ∧ ∀ x, x ∈ l → _extension_instances w' !! x = None)
           (λ _ _, False) w.
Proof.
  intros IH l. induction l as [|x l IHl]; intros w Hl Hr; simpl.
  - apply wp_ret. split; [by apply disable_post_refl|]. by intros r ?%elem_of_nil.
  - simpl in Hl. apply andb_prop in Hl as [Hx Hl].
    apply wp_bind. eapply wp_cut; [by apply IH| |done].
    intros _ w1 [Hpost [Hx1 _]].
    pose proof Hpost as (Hc1 & Hq1 & Hr1 & _).
    eapply wp_cut; [apply IHl; [|done]| |done].
    { rewrite <-Hl. clear -Hc1 Hq1. induction l as [|y l IHl]; [done|]. simpl.
      by rewrite IHl, (cascade_ok_ext w w1). }
    intros _ w2 [Hpost2 Hall]. split; [by eapply disable_post_trans|].
    intros y [->|Hy]%elem_of_cons; [|by auto].
    destruct Hpost2 as (_ & _ & _ & Hs2 & _).
    destruct (_extension_instances w2 !! x) eqn:E; [|done].
    apply Hs2 in E. congruence.
Qed.

Lemma disable_extension_ok n :
  ∀ depth c w,
    cascade_ok w n c = true → n ≤ depth → disable_ready w →
    wp (disable_extension depth c)
      (λ _ w', disable_post n w w' ∧ disable_result c w w')
      (λ _ _, False) w.
Proof.
  induction n as [|n IH]; intros depth c w Hn Hle Hr; [done|].
  destruct (cascade_ok w n c) eqn:Hn'.
  { eapply wp_cut; [apply (IH depth c w); [done|lia|done]| |done].
    intros r w' [? ?]. split; [by apply disable_post_S|done]. }
  destruct depth as [|depth]; [lia|]. simpl.
  apply wp_bind, wp_gets. unfold disable_result.
  destruct (_extension_instances w !! c) as [e|] eqn:Hinst.
  2: { apply wp_ret. split; [by apply disable_post_refl|]. done. }
  pose proof Hr as [Hres Hown].
  pose proof (map_Forall_lookup_1 _ _ _ _ Hown Hinst) as (Hid & Hc & _).
  apply wp_bind, wp_gets. rewrite bool_decide_eq_true_2 by done.
  apply wp_bind. rewrite (wp_eq _ _ _ _ _ _ (get_dependent_extensions_spec w c
                            (mk_is_Some _ _ Hinst) Hc Hres)).
  apply wp_bind.
  eapply wp_cut;
    [apply (disable_dependents_ok n depth);
       [intros; apply IH; [done|lia|done]|done|done]| |done].
  intros _ w1 [Hpost Hall].
  pose proof Hpost as (Hc1 & Hq1 & [Hres1 Hown1] & Hs1 & Hu1 & Hk1 & Hrm1 & tl & Htl & Hunl).
  pose proof (Hu1 c Hn') as Hinst1. rewrite Hinst in Hinst1.
  destruct (Hk1 c) as [Hreg1 Hinfo1]; [by eauto|].
  destruct (resolved_lookup w1 c Hres1) as (i & r & Hi & Hreg); [congruence|].
  pose proof (map_Forall_lookup_1 _ _ _ _ Hown1 Hinst1)
    as (_ & _ & Hnd & Hhooks & Hndu & Hurls & _).
  subst c.
  apply wp_bind. eapply wp_cut; [by apply (_uninstall_extension_spec e i)| |done].
  intros _ w2 (dirs & -> & _).
  apply wp_bind.
  eapply wp_cut;
    [apply (_uninit_extension_spec e i); [done|done|done|done|done|done]| |done].
  intros _ w3 (urls & apps & hp & -> & Hsub & Hkeep & Hsubu & Hkeepu).
  apply wp_bind. eapply wp_update_registration; [done|].
  eapply wp_registration_save; [by wsimpl; simplify_map_eq|].
  match goal with |- disable_post _ _ ?w' ∧ _ => set (w5 := w') end.
  assert (trace w5 = trace w1 ++
            disable_steps (bool_decide (info_htdocs_path i ∈ htdocs w1)) e i r)
    as Ht5.
  { subst w5. unfold disable_steps. wsimpl. by rewrite <-!app_assoc. }
  assert (disable_post (S n) w1 w5) as Hstep.
  { eapply (disable_step_post (S n) (ext_id e) e i r w1 w5);
      [by rewrite (cascade_ok_ext w w1)|done|done|done|done| | | | | | |exact Ht5|].
    - by subst w5.
    - by subst w5.
    - by subst w5.
    - by subst w5.
    - intros h p Hh Hp. subst w5. by apply Hkeep.
    - intros u Hu Hp. subst w5. wsimpl. by apply Hkeepu.
    - apply uninits_disable_steps. }
  split; [eapply disable_post_trans; [by apply disable_post_S|done]|].
  split; [subst w5; wsimpl; apply lookup_delete_eq|].
  split.
  { intros x Hx. destruct Hstep as (_ & _ & _ & Hs5 & _).
    destruct (_extension_instances w5 !! x) eqn:E; [|done].
    apply Hs5 in E. rewrite Hall in E; done. }
  exists i, r, (bool_decide (info_htdocs_path i ∈ htdocs w1)), tl.
  split; [congruence|]. split; [congruence|].
  split; [by rewrite Ht5, Htl, <-app_assoc|].
  intros x e' Hx He'. apply Hunl. split; [by apply Hall|]. eauto.
Qed.

Lemma wp_self {A} (m : M A) Q E w :
  wp m Q E w →
  wp m (λ a w', m w = (w', Return a) ∧ Q a w') E w.
Proof. unfold wp. by destruct (m w) as [w' [a|e]]. Qed.

(** The run of a successful [disable_extension] of a live instance: the
    loop over the dependents leaves a world [w1]; the steps on the instance
    itself follow, the removal of the static directory coming first. *)
Lemma disable_extension_run n :
  ∀ depth c w e,
    cascade_ok w n c = true → n ≤ depth → disable_ready w →
    _extension_instances w !! c = Some e →
    wp (disable_extension depth c)
      (λ _ w', ∃ w1 i r,
         for_each (dependents_of w c) (disable_extension (pred depth)) w
         = (w1, Return tt)
         ∧ (∃ t, trace w1 = trace w ++ t)
         ∧ cls_info w !! c = Some i
         ∧ cls_registration w !! c = Some r
         ∧ trace w' = trace w1 ++
             disable_steps (bool_decide (info_htdocs_path i ∈ htdocs w1)) e i r
         ∧ htdocs w' = if bool_decide (info_htdocs_path i ∈ unremovable w1)
                       then htdocs w1
                       else dict_delitem (info_htdocs_path i) (htdocs w1))
      (λ _ _, False) w.
Proof.
  induction n as [|n IH]; intros depth c w e Hn Hle Hr Hinst; [done|].
  destruct (cascade_ok w n c) eqn:Hn'.
  { apply (IH depth c w e); [done|lia|done|done]. }
  destruct depth as [|depth]; [lia|]. cbn [disable_extension pred].
  apply wp_bind, wp_gets. rewrite Hinst.
  pose proof Hr as [Hres Hown].
  pose proof (map_Forall_lookup_1 _ _ _ _ Hown Hinst) as (Hid & Hc & _).
  apply wp_bind, wp_gets. rewrite bool_decide_eq_true_2 by done.
  apply wp_bind. rewrite (wp_eq _ _ _ _ _ _ (get_dependent_extensions_spec w c
                            (mk_is_Some _ _ Hinst) Hc Hres)).
  apply wp_bind.
  eapply wp_cut;
    [apply wp_self, (disable_dependents_ok n depth);
       [intros; apply disable_extension_ok; [done|lia|done]|done|done]| |done].
  intros [] w1 [Hloop [Hpost Hall]].
  pose proof Hpost
    as (Hc1 & Hq1 & [Hres1 Hown1] & Hs1 & Hu1 & Hk1 & Hrm1 & tl & Htl & _).
  pose proof (Hu1 c Hn') as Hinst1. rewrite Hinst in Hinst1.
  destruct (Hk1 c) as [Hreg1 Hinfo1]; [by eauto|].
  destruct (resolved_lookup w1 c Hres1) as (i & r & Hi & Hreg); [congruence|].
  pose proof (map_Forall_lookup_1 _ _ _ _ Hown1 Hinst1)
    as (_ & _ & Hnd & Hhooks & Hndu & Hurls & _).
  subst c.
  apply wp_bind. eapply wp_cut; [by apply (_uninstall_extension_spec e i)| |done].
  intros _ w2 (dirs & -> & Hdirs).
  apply wp_bind.
  eapply wp_cut;
    [apply (_uninit_extension_spec e i); [done|done|done|done|done|done]| |done].
  intros _ w3 (urls & apps & hp & -> & _).
  apply wp_bind. eapply wp_update_registration; [done|].
  eapply wp_registration_save; [by wsimpl; simplify_map_eq|].
  exists w1, i, r. split; [done|]. split; [by exists tl|].
  split; [congruence|]. split; [congruence|].
  split; [|by rewrite <-Hdirs].
  unfold disable_steps. wsimpl. by rewrite <-!app_assoc.
Qed.

Lemma elem_of_dependents_in w c x l items :
  x ∈ items → x ≠ c → requirements_at w x = Some l → c ∈ l →
  x ∈ dependents_in w c items.
Proof.
  intros Hx Hne Hl Hc. induction items as [|y items IH]; [by apply elem_of_nil in Hx|].
  simpl. apply elem_of_app. apply elem_of_cons in Hx as [<-|Hx]; [left|right; auto].
  rewrite decide_False by done. rewrite Hl. simpl.
  apply list_elem_of_fmap. exists c. split; [done|].
  by apply list_elem_of_filter.
Qed.

(** * Disabling: the theorems *)

(** C4: let A be enabled, and let B be another enabled extension whose
    resolved requirements include A, in a world where every known class
    carries its registration and resolved requirements and every live
    instance has its hooks and URL patterns registered, the dependents above
    A forming a tree no deeper than the recursion limit allows.  Then
    [disable_extension] of A returns; afterwards neither A nor B has a live
    instance, both registrations say not enabled, and the
    [extension_uninitialized] notification of B was sent before that of A. *)
Theorem disable_extension_disables_dependents_first n depth A B w eA eB l :
  disable_ready w →
  cascade_ok w n A = true →
  n ≤ depth →
  _extension_instances w !! A = Some eA →
  _extension_instances w !! B = Some eB →
  A ≠ B →
  requirements_at w B = Some l →
  A ∈ l →
  ∃ w' rA rB t1 t2 t3,
    disable_extension depth A w = (w', Return tt)
    ∧ _extension_instances w' !! A = None
    ∧ _extension_instances w' !! B = None
    ∧ cls_registration w' !! A = Some rA ∧ reg_enabled rA = false
    ∧ cls_registration w' !! B = Some rB ∧ reg_enabled rB = false
    ∧ trace w' = trace w ++ t1 ++ [extension_uninitialized B (ext_obj eB)]
                   ++ t2 ++ [extension_uninitialized A (ext_obj eA)] ++ t3.
Proof.
  intros Hr Hn Hle HA HB Hne Hl HAl.
  destruct (wp_returns _ _ _ (disable_extension_ok n depth A w Hn Hle Hr))
    as (w' & [] & Hrun & Hpost & HnA & Hres).
  rewrite HA in Hres. destruct Hres as (Hdeps & i & r & b & t & Hi & Hreg & Ht & Hun).
  pose proof Hr as [_ Hown].
  pose proof (map_Forall_lookup_1 _ _ _ _ Hown HB) as (_ & HBc & _).
  pose proof (map_Forall_lookup_1 _ _ _ _ Hown HA) as (HidA & _).
  assert (B ∈ dependents_of w A) as HBdep.
  { eapply elem_of_dependents_in; eauto. }
  destruct Hpost as (_ & _ & _ & _ & _ & _ & Hrm & _).
  destruct (Hrm A) as (rA & _ & HrA); [by eauto|done|].
  destruct (Hrm B) as (rB & _ & HrB); [by eauto|by apply Hdeps|].
  pose proof (Hun B eB HBdep HB) as Hin. apply elem_of_uninits in Hin.
  apply list_elem_of_split in Hin as (t1 & t2 & ->).
  exists w', (set_reg_enabled false rA), (set_reg_enabled false rB), t1,
    (t2 ++ (if b then [ev_rmtree (info_htdocs_path i)] else [])
        ++ [ev_shutdown (ext_obj eA)]
        ++ (ev_remove_hook <$> hooks eA)
        ++ (ev_remove_admin_url <$> urls_of eA)
        ++ [ev_remove_from_installed_apps (info_app_name i);
            ev_reset_templatetags_cache]),
    [ev_del_instance A; ev_save (set_reg_enabled false r)].
  split; [done|]. split; [done|]. split; [by apply Hdeps|].
  do 4 (split; [done|]). rewrite Ht. unfold disable_steps. rewrite HidA.
  rewrite <-!app_assoc. reflexivity.
Qed.

Lemma disable_extension_disables_dependents_first_witness :
  ∃ w' rA rB t1 t2 t3,
    disable_extension 5 "pkg.a.A" enabled_world = (w', Return tt)
    ∧ _extension_instances w' !! "pkg.a.A" = None
    ∧ _extension_instances w' !! "pkg.b.B" = None
    ∧ cls_registration w' !! "pkg.a.A" = Some rA ∧ reg_enabled rA = false
    ∧ cls_registration w' !! "pkg.b.B" = Some rB ∧ reg_enabled rB = false
    ∧ trace w' = trace enabled_world ++ t1
                   ++ [extension_uninitialized "pkg.b.B" (ext_obj enabled_B)]
                   ++ t2
                   ++ [extension_uninitialized "pkg.a.A" (ext_obj enabled_A)]
                   ++ t3.
Proof.
  apply (disable_extension_disables_dependents_first 2 5 "pkg.a.A" "pkg.b.B"
           enabled_world enabled_A enabled_B ["pkg.a.A"]).
  - split; by_compute.
  - vm_compute. reflexivity.
  - lia.
  - vm_compute. reflexivity.
  - vm_compute. reflexivity.
  - discriminate.
  - vm_compute. reflexivity.
  - by_compute.
Defined.

(** C6, as the specification states it, fails: when B is disabled in the
    world where A and B are enabled, the first event of the call is the
    removal of the static directory of B, which no notification precedes. *)
Lemma uninstall_precedes_uninit :
  ¬ uninit_precedes_uninstall 5 "pkg.b.B" enabled_world.
Proof.
  intros H. destruct (H 0 "/static/ext/ProjB") as (j & o & Hlt & _).
  - vm_compute. reflexivity.
  - lia.
Qed.

(** C6, amended: for an enabled id, in a world as in C4,
    [disable_extension] returns, and its run is this.  First the dependents
    of the id are disabled, which leaves a world [w1].  Then the static
    directory of the extension is removed: [rmtree] is called on it exactly
    when it exists in [w1], and afterwards it is gone unless it is one that
    cannot be removed, the error of [rmtree] being ignored.  Only then is the
    instance uninitialized: it is shut down, its hooks and its admin URL
    patterns are removed, the application is taken out of the installed
    apps, the template tag cache is reset, [extension_uninitialized] is sent
    and the live instance is dropped.  Last the registration is marked not
    enabled and saved.  The events after those of the dependents are exactly
    these, in this order. *)
Theorem disable_extension_steps n depth c w e :
  disable_ready w →
  cascade_ok w n c = true →
  n ≤ depth →
  _extension_instances w !! c = Some e →
  ∃ w1 w' i r t,
    for_each (dependents_of w c) (disable_extension (pred depth)) w
    = (w1, Return tt)
    ∧ trace w1 = trace w ++ t
    ∧ disable_extension depth c w = (w', Return tt)
    ∧ cls_info w !! c = Some i
    ∧ cls_registration w !! c = Some r
    ∧ _extension_instances w' !! c = None
    ∧ cls_registration w' !! c = Some (set_reg_enabled false r)
    ∧ trace w' = trace w1
        ++ (if bool_decide (info_htdocs_path i ∈ htdocs w1)
            then [ev_rmtree (info_htdocs_path i)] else [])
        ++ [ev_shutdown (ext_obj e)]
        ++ (ev_remove_hook <$> hooks e)
        ++ (ev_remove_admin_url <$> urls_of e)
        ++ [ev_remove_from_installed_apps (info_app_name i);
            ev_reset_templatetags_cache;
            extension_uninitialized c (ext_obj e);
            ev_del_instance c;
            ev_save (set_reg_enabled false r)]
    ∧ htdocs w' = (if bool_decide (info_htdocs_path i ∈ unremovable w1)
                   then htdocs w1
                   else dict_delitem (info_htdocs_path i) (htdocs w1))
    ∧ (info_htdocs_path i ∈ htdocs w' →
       info_htdocs_path i ∈ htdocs w1 ∧ info_htdocs_path i ∈ unremovable w1).
Proof.
  intros Hr Hn Hle He.
  destruct (wp_returns _ _ _ (disable_extension_ok n depth c w Hn Hle Hr))
    as (w' & [] & Hrun & Hpost & Hnc & _).
  destruct (wp_returns _ _ _ (disable_extension_run n depth c w e Hn Hle Hr He))
    as (w'' & [] & Hrun' & w1 & i & r & Hloop & [t Ht1] & Hi & Hreg & Ht & Hd).
  assert (w'' = w') as -> by congruence.
  destruct Hr as [_ Hown].
  pose proof (map_Forall_lookup_1 _ _ _ _ Hown He) as (Hid & _).
  destruct Hpost as (_ & _ & _ & _ & _ & _ & Hrm & _).
  destruct (Hrm c) as (r' & Hr1 & Hr2); [by eauto|done|].
  exists w1, w', i, r, t. do 6 (split; [done|]).
  split; [congruence|]. split.
  { rewrite Ht. unfold disable_steps. by rewrite Hid. }
  split; [done|]. rewrite Hd.
  destruct (decide (info_htdocs_path i ∈ unremovable w1)) as [Hun|Hun].
  - rewrite (bool_decide_eq_true_2 _ Hun). by split.
  - rewrite (bool_decide_eq_false_2 _ Hun).
    by intros ?%not_elem_of_dict_delitem.
Qed.

Lemma disable_extension_steps_witness :
  ∃ w1 w' i r t,
    for_each (dependents_of enabled_world "pkg.b.B") (disable_extension (pred 5))
      enabled_world
    = (w1, Return tt)
    ∧ trace w1 = trace enabled_world ++ t
    ∧ disable_extension 5 "pkg.b.B" enabled_world = (w', Return tt)
    ∧ cls_info enabled_world !! "pkg.b.B" = Some i
    ∧ cls_registration enabled_world !! "pkg.b.B" = Some r
    ∧ _extension_instances w' !! "pkg.b.B" = None
    ∧ cls_registration w' !! "pkg.b.B" = Some (set_reg_enabled false r)
    ∧ trace w' = trace w1
        ++ (if bool_decide (info_htdocs_path i ∈ htdocs w1)
            then [ev_rmtree (info_htdocs_path i)] else [])
        ++ [ev_shutdown (ext_obj enabled_B)]
        ++ (ev_remove_hook <$> hooks enabled_B)
        ++ (ev_remove_admin_url <$> urls_of enabled_B)
        ++ [ev_remove_from_installed_apps (info_app_name i);
            ev_reset_templatetags_cache;
            extension_uninitialized "pkg.b.B" (ext_obj enabled_B);
            ev_del_instance "pkg.b.B";
            ev_save (set_reg_enabled false r)]
    ∧ htdocs w' = (if bool_decide (info_htdocs_path i ∈ unremovable w1)
                   then htdocs w1
                   else dict_delitem (info_htdocs_path i) (htdocs w1))
    ∧ (info_htdocs_path i ∈ htdocs w' →
       info_htdocs_path i ∈ htdocs w1 ∧ info_htdocs_path i ∈ unremovable w1).
Proof.
  apply (disable_extension_steps 1 5 "pkg.b.B" enabled_world enabled_B).
  - split; by_compute.
  - vm_compute. reflexivity.
  - lia.
  - vm_compute. reflexivity.
Defined.

(** C8: for an enabled id whose registration says installed, in a world as
    in C4, [disable_extension] returns and leaves the registration of the id
    as it was but for [enabled], which is false: [installed] is still true.
    The call changes the [installed] flag of no registration at all. *)
Theorem disable_extension_keeps_installed n depth c w e r :
  disable_ready w →
  cascade_ok w n c = true →
  n ≤ depth →
  _extension_instances w !! c = Some e →
  cls_registration w !! c = Some r →
  reg_installed r = true →
  ∃ w' r',
    disable_extension depth c w = (w', Return tt)
    ∧ cls_registration w' !! c = Some r'
    ∧ reg_installed r' = true
    ∧ reg_enabled r' = false
    ∧ reg_settings r' = reg_settings r
    ∧ ∀ y, reg_installed <$> cls_registration w' !! y
           = reg_installed <$> cls_registration w !! y.
Proof.
  intros Hr Hn Hle He Hreg Hin.
  destruct (wp_returns _ _ _ (disable_extension_ok n depth c w Hn Hle Hr))
    as (w' & [] & Hrun & Hpost & Hnc & _).
  destruct Hpost as (_ & _ & _ & _ & _ & Hk & Hrm & _).
  destruct (Hrm c) as (r' & Hr1 & Hr2); [by eauto|done|].
  assert (r' = r) as -> by congruence.
  exists w', (set_reg_enabled false r). do 5 (split; [done|]).
  intros y. destruct (_extension_instances w !! y) as [ey|] eqn:Ey.
  - destruct (_extension_instances w' !! y) as [ey'|] eqn:Ey'.
    + destruct (Hk y) as [-> _]; [by eauto|done].
    + destruct (Hrm y) as (ry & -> & ->); [by eauto|done|done].
  - destruct (Hk y) as [-> _]; [by left|done].
Qed.

Lemma disable_extension_keeps_installed_witness :
  ∃ w' r',
    disable_extension 5 "pkg.a.A" enabled_world = (w', Return tt)
    ∧ cls_registration w' !! "pkg.a.A" = Some r'
    ∧ reg_installed r' = true
    ∧ reg_enabled r' = false
    ∧ reg_settings r'
      = reg_settings (set_reg_enabled true (set_reg_installed true
                        (RegisteredExtension_new "pkg.a.A" "ProjA")))
    ∧ ∀ y, reg_installed <$> cls_registration w' !! y
           = reg_installed <$> cls_registration enabled_world !! y.
Proof.
  apply (disable_extension_keeps_installed 2 5 "pkg.a.A" enabled_world enabled_A
           (set_reg_enabled true (set_reg_installed true
              (RegisteredExtension_new "pkg.a.A" "ProjA")))).
  - split; by_compute.
  - vm_compute. reflexivity.
  - lia.
  - vm_compute. reflexivity.
  - vm_compute. reflexivity.
  - reflexivity.
Defined.

(** * Steps that leave a part of the world alone *)

Lemma preserves_get_info R `{!PreOrder R} c : preserves R (get_info c).
Proof. unfold get_info. preserves_tac. Qed.

Lemma preserves_get_registration R `{!PreOrder R} c :
  preserves R (get_registration c).
Proof. unfold get_registration. preserves_tac. Qed.

Lemma preserves_get_installed_extension R `{!PreOrder R} c :
  preserves R (get_installed_extension c).
Proof. unfold get_installed_extension. preserves_tac. Qed.

Lemma preserves_dependents_loop R `{!PreOrder R} c items result :
  preserves R (dependents_loop c items result).
Proof.
  revert result. induction items as [|x items IH]; intros result; simpl.
  - preserves_tac.
  - destruct (decide (x = c)); [done|].
    pose proof (preserves_get_info R). preserves_tac.
Qed.

Lemma preserves_get_dependent_extensions R `{!PreOrder R} c :
  preserves R (get_dependent_extensions c).
Proof.
  unfold get_dependent_extensions.
  pose proof (preserves_get_installed_extension R).
  pose proof (preserves_dependents_loop R).
  preserves_tac.
Qed.

Section same_hook_state.
Let R := same hook_state.








End same_hook_state.

(** * The invariant of hooks *)

#[global] Instance keeps_hooks_preorder : PreOrder keeps_hooks.
Proof.
  split; [intros w H; exact H|]. intros w1 w2 w3 H1 H2 H. apply H2, H1, H.
Qed.



Lemma hooks_shrink_refl w : hooks_shrink w w.
Proof. done. Qed.








Lemma same_hook_state_emit e : preserves (same hook_state) (emit e).
Proof. preserves_tac. done. Qed.



Lemma instances_shrink_trans w1 w2 w3 :
  instances_shrink w1 w2 → instances_shrink w2 w3 → instances_shrink w1 w3.
Proof. intros H1 H2 y e He. by apply H1, H2. Qed.






















(** * Rediscovery *)

(** C5 at a failing input: X and Y are known and enabled, and [load] is
    called again when both packages are gone.  The first of the two in the
    iteration of [_extension_classes] is disabled and dropped; the iteration
    then raises [RuntimeError], the dictionary having changed size, and the
    other id stays known and enabled: enabling it again returns [None]
    instead of raising [InvalidExtensionError].  This holds whichever of the
    two comes first. *)
Theorem load_drops_only_first_missing :
  (load xy_env 10 [] xy_world).2 = Raise DICT_CHANGED_SIZE
  ∧ _extension_classes (load xy_env 10 [] xy_world).1 = ["ypkg.extension.Y"]
  ∧ _extension_instances (load xy_env 10 [] xy_world).1 !! "xpkg.extension.X" = None
  ∧ is_Some (_extension_instances (load xy_env 10 [] xy_world).1
               !! "ypkg.extension.Y")
  ∧ (enable_extension xy_env 10 "ypkg.extension.Y"
       (load xy_env 10 [] xy_world).1).2 = Return None
  ∧ (load xy_env 10 [] yx_world).2 = Raise DICT_CHANGED_SIZE
  ∧ _extension_classes (load xy_env 10 [] yx_world).1 = ["xpkg.extension.X"]
  ∧ is_Some (_extension_instances (load xy_env 10 [] yx_world).1
               !! "xpkg.extension.X")
  ∧ (enable_extension xy_env 10 "xpkg.extension.X"
       (load xy_env 10 [] yx_world).1).2 = Return None.
Proof.
  repeat split; try (vm_compute; reflexivity); by_compute.
Qed.

(** Unfolds the steps of the manager down to the changes of the world. *)
Ltac unfold_steps :=
  unfold _init_extension, _uninit_extension, _install_extension,
    _uninstall_extension, _install_admin_urls, Extension_init,
    Extension_shutdown, ExtensionHook_shutdown, ExtensionHook_init,
    remove_urlpattern, remove_hook, add_hook, new_object, rmtree, copytree,
    evolve, _add_to_installed_apps, _remove_from_installed_apps,
    _reset_templatetags_cache, registration_save, update_registration,
    update_info, get_registration, get_info, get_installed_extension,
    RECURSION_LIMIT, DICT_CHANGED_SIZE.

Section same_extension_classes.
Let R := same _extension_classes.

Lemma same_classes_create_hooks o points : preserves R (create_hooks o points).
Proof. induction points; simpl; unfold_steps; preserves_tac; done. Qed.

Lemma same_classes_init_extension env c : preserves R (_init_extension env c).
Proof.
  pose proof same_classes_create_hooks. unfold_steps.
  preserves_tac; done.
Qed.

Lemma same_classes_disable_extension depth :
  ∀ c, preserves R (disable_extension depth c).
Proof.
  induction depth as [|depth IH]; intros c; simpl.
  - unfold_steps. preserves_tac.
  - pose proof (preserves_get_dependent_extensions R). unfold_steps.
    preserves_tac; done.
Qed.
End same_extension_classes.

Lemma elem_of_dict_setitem x k l : x ∈ dict_setitem k l ↔ x = k ∨ x ∈ l.
Proof.
  unfold dict_setitem. case_bool_decide.
  - split; [by right|]. by intros [->|?].
  - rewrite elem_of_app, list_elem_of_singleton. tauto.
Qed.

Lemma elem_of_dict_delitem x k l : x ∈ dict_delitem k l ↔ x ≠ k ∧ x ∈ l.
Proof. unfold dict_delitem. by rewrite list_elem_of_filter. Qed.

Lemma length_dict_delitem k l : k ∈ l → length (dict_delitem k l) < length l.
Proof.
  unfold dict_delitem. induction l as [|y l IH]; [by intros ?%elem_of_nil|].
  intros Hk. rewrite filter_cons. case_decide as Hy; simpl.
  - apply elem_of_cons in Hk as [->|Hk]; [done|]. specialize (IH Hk). lia.
  - pose proof (length_filter (λ x, x ≠ k) l). lia.
Qed.

#[global] Instance classes_grow_preorder : PreOrder classes_grow.
Proof.
  split; [intros w z H; exact H|]. intros w1 w2 w3 H1 H2 z H. apply H2, H1, H.
Qed.

Lemma classes_grow_of_same {A} (m : M A) :
  preserves (same _extension_classes) m → preserves classes_grow m.
Proof. intros H w z. by rewrite H. Qed.

Lemma classes_grow_set (f : World → World) w :
  _extension_classes (f w) = _extension_classes w → classes_grow w (f w).
Proof. intros H z. by rewrite H. Qed.

Lemma load_entrypoint_classes env registered found entrypoint :
  preserves classes_grow (load_entrypoint env registered found entrypoint).
Proof.
  unfold load_entrypoint.
  pose proof (preserves_get_registration classes_grow).
  pose proof (λ c, classes_grow_of_same _ (same_classes_init_extension env c)).
  preserves_tac; try (by apply classes_grow_set).
  intros z Hz. simpl. apply elem_of_dict_setitem. by right.
Qed.

Lemma load_entrypoints_classes env registered entrypoints :
  ∀ found,
    preserves classes_grow (load_entrypoints env registered found entrypoints).
Proof.
  induction entrypoints as [|ep eps IH]; intros found; simpl.
  - preserves_tac.
  - pose proof (load_entrypoint_classes env registered). preserves_tac.
Qed.

Lemma wp_bind_const {A B} (m : M A) (k : A → M B) (P : B → Prop) w :
  (∀ a w', wp (k a) (λ b _, P b) (λ _ _, True) w') →
  wp (bind m k) (λ b _, P b) (λ _ _, True) w.
Proof. intros H. apply wp_bind. unfold wp at 1. destruct (m w) as [w' [a|e]]; auto. Qed.

(** The ids that the first loop of [load] finds are loaded by an entry
    point. *)
Lemma load_entrypoint_found env registered found entrypoint w :
  wp (load_entrypoint env registered found entrypoint)
    (λ found' _, ∀ z, z ∈ found' → z ∈ found ∨ ep_load entrypoint = Some z)
    (λ _ _, True) w.
Proof.
  unfold load_entrypoint. destruct (ep_load entrypoint) as [c|].
  - repeat (apply wp_bind_const; intros ? ?). apply wp_ret.
    intros z [->|?]%elem_of_dict_setitem; auto.
  - apply wp_bind_const. intros ? ?. apply wp_ret. auto.
Qed.

Lemma load_entrypoints_found env registered entrypoints :
  ∀ found w,
    wp (load_entrypoints env registered found entrypoints)
      (λ found' _, ∀ z, z ∈ found' →
                        z ∈ found ∨ ∃ ep, ep ∈ entrypoints ∧ ep_load ep = Some z)
      (λ _ _, True) w.
Proof.
  induction entrypoints as [|ep eps IH]; intros found w; simpl.
  - apply wp_ret. auto.
  - apply wp_bind.
    eapply wp_cut; [apply load_entrypoint_found| |done].
    intros found1 w1 H1.
    eapply wp_cut; [apply IH| |done].
    intros found2 w2 H2 z Hz. destruct (H2 z Hz) as [Hz1|(ep' & ? & ?)].
    + destruct (H1 z Hz1) as [?|?]; [by left|].
      right. exists ep. split; [by left|done].
    + right. exists ep'. split; [by right|done].
Qed.

Lemma wp_same_classes {A} (m : M A) (P : World → Prop) w :
  preserves (same _extension_classes) m →
  (∀ w', _extension_classes w' = _extension_classes w → P w') →
  wp m (λ _ w', P w') (λ _ w', P w') w.
Proof.
  intros Hm HP. specialize (Hm w). unfold wp.
  destruct (m w) as [w' [a|e]]; by apply HP.
Qed.

Lemma same_classes_map_installed l :
  preserves (same _extension_classes) (map_calls get_installed_extension l).
Proof. unfold_steps. preserves_tac. Qed.

Lemma same_classes_update_info c f :
  preserves (same _extension_classes) (update_info c f).
Proof. unfold_steps. preserves_tac. done. Qed.

(** Once an item was deleted, the iteration of the last loop of [load]
    raises. *)
Lemma load_reconcile_changed env depth found size items w :
  length (_extension_classes w) ≠ size →
  load_reconcile env depth found size items w = (w, Raise DICT_CHANGED_SIZE).
Proof.
  intros H. destruct items; simpl; unfold bind, gets;
    by rewrite bool_decide_eq_false_2.
Qed.

(** Of two known ids that the new enumeration misses, the last loop of
    [load] leaves at least one known. *)
Lemma load_reconcile_two_missing env depth found size x y :
  x ≠ y → x ∉ found → y ∉ found →
  ∀ items w,
    length (_extension_classes w) = size →
    (∀ z, z ∈ items → z ∈ _extension_classes w) →
    x ∈ _extension_classes w → y ∈ _extension_classes w →
    wp (load_reconcile env depth found size items)
      (λ _ w', x ∈ _extension_classes w' ∨ y ∈ _extension_classes w')
      (λ _ w', x ∈ _extension_classes w' ∨ y ∈ _extension_classes w') w.
Proof.
  intros Hxy Hx Hy items.
  induction items as [|z items IH]; intros w Hsize Hitems Hxw Hyw; simpl.
  - apply wp_bind, wp_gets. case_bool_decide; [apply wp_ret|apply wp_raise]; auto.
  - apply wp_bind, wp_gets. rewrite bool_decide_eq_true_2 by done.
    apply wp_bind. case_bool_decide as Hz.
    + apply wp_bind.
      eapply wp_cut;
        [apply (wp_same_classes _ (λ w', _extension_classes w' = _extension_classes w));
           [apply same_classes_map_installed|done]| |].
      2: { intros ex w1 H1. simpl in H1. rewrite H1. auto. }
      intros reqs w1 H1. simpl in H1.
      eapply wp_cut;
        [apply (wp_same_classes _ (λ w', _extension_classes w' = _extension_classes w));
           [apply same_classes_update_info|congruence]| |].
      2: { intros ex w2 H2. simpl in H2. rewrite H2. auto. }
      intros a2 w2 H2. simpl in H2. apply IH; rewrite ?H2; auto.
      intros z' Hz'. apply Hitems. by right.
    + apply wp_bind, wp_gets, wp_bind.
      eapply wp_cut;
        [apply (wp_same_classes _ (λ w', _extension_classes w' = _extension_classes w));
           [|done]| |].
      { destruct (_extension_instances w !! z).
        - apply same_classes_disable_extension.
        - apply preserves_ret. apply _. }
      2: { intros ex w1 H1. simpl in H1. rewrite H1. auto. }
      intros a1 w1 H1. simpl in H1. apply wp_modify.
      assert (length (_extension_classes (set_extension_classes (dict_delitem z) w1))
              ≠ size) as Hne.
      { wsimpl. rewrite H1. rewrite <-Hsize.
        pose proof (length_dict_delitem z (_extension_classes w)) as Hlen.
        specialize (Hlen (Hitems z ltac:(by left))). lia. }
      unfold wp. rewrite (load_reconcile_changed _ _ _ _ _ _ Hne).
      wsimpl. rewrite H1, !elem_of_dict_delitem.
      destruct (decide (x = z)) as [->|]; [right|left]; split; auto.
Qed.

(** X18: [load] removes at most one id.  Of two known ids that no entry
    point of the new enumeration loads, [load] leaves at least one known,
    whatever it meets: after the first removal the iteration over
    [_extension_classes] raises. *)
Theorem load_two_missing env depth entrypoints w x y :
  x ≠ y →
  x ∈ _extension_classes w → y ∈ _extension_classes w →
  (∀ ep, ep ∈ entrypoints → ep_load ep ≠ Some x ∧ ep_load ep ≠ Some y) →
  x ∈ _extension_classes (load env depth entrypoints w).1
  ∨ y ∈ _extension_classes (load env depth entrypoints w).1.
Proof.
  intros Hxy Hx Hy Heps.
  cut (wp (load env depth entrypoints)
         (λ _ w', x ∈ _extension_classes w' ∨ y ∈ _extension_classes w')
         (λ _ w', x ∈ _extension_classes w' ∨ y ∈ _extension_classes w') w).
  { unfold wp. by destruct (load env depth entrypoints w) as [w' [a|e]]. }
  unfold load. apply wp_bind, wp_gets, wp_bind.
  eapply wp_cut;
    [apply wp_and;
       [apply load_entrypoints_found
       |apply (preserves_wp classes_grow), load_entrypoints_classes]| |].
  2: { intros ex w1 [_ Hg]. left. by apply Hg. }
  intros found w1 [Hfound Hg]. apply wp_bind, wp_gets.
  apply load_reconcile_two_missing; auto.
  - intros Hin. destruct (Hfound x Hin) as [?%elem_of_nil|(ep & Hep & Hl)]; [done|].
    by destruct (Heps ep Hep).
  - intros Hin. destruct (Hfound y Hin) as [?%elem_of_nil|(ep & Hep & Hl)]; [done|].
    by destruct (Heps ep Hep).
Qed.

(** * Package metadata *)

Lemma str_drop_prefix_Some p s r : str_drop_prefix p s = Some r → s = (p ++ r)%string.
Proof.
  revert s. induction p as [|a p IH]; intros s; simpl; [by intros [= ->]|].
  destruct s as [|b s]; [done|].
  destruct (Ascii.eqb_spec a b) as [->|]; [|done].
  intros H. by rewrite (IH _ H).
Qed.

Lemma str_drop_prefix_app p s : str_drop_prefix p (p ++ s) = Some s.
Proof.
  induction p as [|a p IH]; simpl; [done|]. by rewrite Ascii.eqb_refl.
Qed.

Lemma split_once_Some sep s a b :
  split_once sep s = Some (a, b) → s = (a ++ sep ++ b)%string.
Proof.
  revert a. induction s as [|c s IH]; intros a; simpl.
  - destruct (str_drop_prefix sep "") eqn:Hp; [|done].
    intros [= <- <-]. by apply str_drop_prefix_Some in Hp.
  - destruct (str_drop_prefix sep (String c s)) eqn:Hp.
    + intros [= <- <-]. by apply str_drop_prefix_Some in Hp.
    + destruct (split_once sep s) as [[a' b']|]; [|done].
      simpl. intros [= <- <-].
      change (String c a' ++ sep ++ b')%string with (String c (a' ++ sep ++ b'))%string.
      f_equal. by apply IH.
Qed.

Lemma split_once_colon k v :
  split_once ": " k = None → split_once ": " (k ++ ": " ++ v) = Some (k, v).
Proof.
  induction k as [|c k IH]; [done|].
  intros H. cbn [split_once] in H.
  destruct (str_drop_prefix ": " (String c k)) eqn:Hp; [done|].
  destruct (split_once ": " k) as [[]|] eqn:Hk; [done|].
  change (String c k ++ ": " ++ v)%string with (String c (k ++ ": " ++ v))%string.
  cbn [split_once]. rewrite IH by done.
  assert (str_drop_prefix ": " (String c (k ++ ": " ++ v)) = None) as ->; [|done].
  cbn [str_drop_prefix] in Hp |- *. destruct (Ascii.eqb ":" c); [|done].
  destruct k as [|d k]; [done|].
  change (String d k ++ ": " ++ v)%string with (String d (k ++ ": " ++ v))%string.
  cbn [str_drop_prefix] in Hp |- *. by destruct (Ascii.eqb " " d).
Qed.

Lemma metadata_lines_app l1 l2 md :
  metadata_lines (l1 ++ l2) md
  = match metadata_lines l1 md with
    | Return md' => metadata_lines l2 md'
    | Raise e => Raise e
    end.
Proof.
  revert md. induction l1 as [|line l1 IH]; intros md; simpl; [done|].
  destruct (split_once ": " line) as [[key value]|]; [apply IH|done].
Qed.

Lemma metadata_lines_inv lines :
  ∀ md,
    match metadata_lines lines md with
    | Raise e => e = ValueError ∧ ∃ line, line ∈ lines ∧ split_once ": " line = None
    | Return md' =>
        (∀ line, line ∈ lines → is_Some (split_once ": " line))
        ∧ ∀ k v, md' !! k = Some v →
                 md !! k = Some v
                 ∨ (v ≠ "UNKNOWN"%string ∧ (k ++ ": " ++ v)%string ∈ lines)
    end.
Proof.
  induction lines as [|line lines IH]; intros md; simpl.
  - split; [by intros ? ?%elem_of_nil|auto].
  - destruct (split_once ": " line) as [[key value]|] eqn:Hl.
    + specialize (IH (if decide (value = "UNKNOWN"%string) then md
                      else <[key := value]> md)).
      destruct (metadata_lines lines _) as [md'|e].
      * destruct IH as [Hsep Hmd]. split.
        { intros l [->|?]%elem_of_cons; [by rewrite Hl|auto]. }
        intros k v Hk. destruct (Hmd k v Hk) as [Hin|[? ?]].
        -- case_decide as Hv; [by left|].
           destruct (decide (k = key)) as [->|].
           ++ rewrite lookup_insert_eq in Hin. injection Hin as ->.
              right. split; [done|]. apply elem_of_cons. left.
              symmetry. by apply split_once_Some.
           ++ rewrite lookup_insert_ne in Hin by done. by left.
        -- right. split; [done|by right].
      * destruct IH as [-> (l & ? & ?)]. split; [done|]. exists l. split; [by right|done].
    + split; [done|]. exists line. split; [by left|done].
Qed.

(** X1: the package metadata that [ExtensionInfo.__init__] reads.  The
    constructor raises [ValueError] exactly when some line of [PKG-INFO] has
    no [": "]; otherwise every recorded entry is a line [key: value] of the
    package, and no entry has the value [UNKNOWN]. *)
Theorem ExtensionInfo_package_metadata lines project_name version :
  match ExtensionInfo_package lines project_name version with
  | Raise e =>
      e = ValueError ∧ ∃ line, line ∈ lines ∧ split_once ": " line = None
  | Return p =>
      (∀ line, line ∈ lines → is_Some (split_once ": " line))
      ∧ ∀ k v, pkg_metadata p !! k = Some v →
               v ≠ "UNKNOWN"%string ∧ (k ++ ": " ++ v)%string ∈ lines
  end.
Proof.
  unfold ExtensionInfo_package.
  pose proof (metadata_lines_inv lines ∅) as H.
  destruct (metadata_lines lines ∅) as [md|e]; [|done].
  destruct H as [Hsep Hmd]. split; [done|]. simpl.
  intros k v Hk. destruct (Hmd k v Hk) as [Hin|?]; [|done].
  by rewrite lookup_empty in Hin.
Qed.

(** X2: the last line of a key wins, and only the first [": "] of a line
    separates.  When the lines read so far gave [md], one more line
    [key: value], whose key holds no [": "], records [value] under [key],
    whatever [value] holds; but a value [UNKNOWN] leaves what an earlier line
    recorded for the key. *)
Theorem metadata_lines_last_line lines key value md :
  split_once ": " key = None →
  metadata_lines lines ∅ = Return md →
  metadata_lines (lines ++ [(key ++ ": " ++ value)%string]) ∅
  = Return (if decide (value = "UNKNOWN"%string) then md
            else <[key := value]> md).
Proof.
  intros Hkey Hmd. rewrite metadata_lines_app, Hmd. simpl.
  by rewrite split_once_colon.
Qed.

Lemma metadata_lines_last_line_witness :
  metadata_lines (["Name: Ext"; "Home-page: old"]
                    ++ [("Home-page" ++ ": " ++ "http://host/a: b")%string]) ∅
  = Return (if decide ("http://host/a: b" = "UNKNOWN")
            then {[ "Name" := "Ext"; "Home-page" := "old" ]}
            else <["Home-page" := "http://host/a: b"]>
                   {[ "Name" := "Ext"; "Home-page" := "old" ]})%string.
Proof.
  apply (metadata_lines_last_line ["Name: Ext"; "Home-page: old"]%string).
  - vm_compute. reflexivity.
  - vm_compute. reflexivity.
Defined.

(** * The application of an extension *)

Lemma before_last_dot_no_dot n : "."%char ∉ chars n → before_last_dot n = None.
Proof.
  induction n as [|a n IH]; simpl; [done|].
  intros [Ha Hn]%not_elem_of_cons. rewrite IH by done.
  destruct (Ascii.eqb_spec a ".") as [->|]; done.
Qed.

Lemma before_last_dot_app p n :
  "."%char ∉ chars n → before_last_dot (p ++ "." ++ n) = Some p.
Proof.
  intros Hn. induction p as [|a p IH].
  - change (before_last_dot (String "." n) = Some ""%string).
    simpl. by rewrite before_last_dot_no_dot.
  - change (String a p ++ "." ++ n)%string with (String a (p ++ "." ++ n))%string.
    cbn [before_last_dot]. by rewrite IH.
Qed.

(** X3: the application name that [ExtensionInfo.__init__] derives from the
    module of the class, ['.'.join(module.split('.')[:-1])], is the package
    of the module: the module without its last component.  For a module
    without a dot it is the empty text. *)
Theorem app_name_of_module package name :
  "."%char ∉ chars name →
  app_name_of (package ++ "." ++ name) = package
  ∧ app_name_of name = ""%string.
Proof.
  intros Hn. unfold app_name_of.
  by rewrite before_last_dot_app, before_last_dot_no_dot.
Qed.

Lemma app_name_of_module_witness :
  app_name_of ("rbext.stats" ++ "." ++ "extension") = "rbext.stats"%string
  ∧ app_name_of "extension" = ""%string.
Proof.
  apply (app_name_of_module "rbext.stats" "extension").
  by_compute.
Defined.

(** * Settings: saving and loading *)

(** X4: [Settings.save] followed by a load.  For an extension whose class
    carries its registration, [save] returns normally; it stores the
    settings of the instance in the registration, in memory and in the
    persisted row, and changes no other field; the [Settings] of a new
    instance of the class then holds exactly the saved settings, and a load
    into the settings just saved changes nothing. *)
Theorem Settings_save_then_load (self : Extension) (r : RegisteredExtension) w :
  cls_registration w !! ext_id self = Some r →
  ∃ w',
    Settings_save self w = (w', Return tt)
    ∧ cls_registration w' !! ext_id self
      = Some (set_reg_settings (stored_mapping (settings self)) r)
    ∧ objects w' !! reg_class_name r
      = Some (set_reg_settings (stored_mapping (settings self)) r)
    ∧ Settings_init (set_reg_settings (stored_mapping (settings self)) r)
      = (settings self, Return tt)
    ∧ Settings_load (set_reg_settings (stored_mapping (settings self)) r)
        (settings self)
      = (settings self, Return tt).
Proof.
  intros Hr. eexists. split.
  { unfold Settings_save, update_registration, registration_save,
      get_registration, bind, gets, attr, modify, emit, ret.
    simpl. rewrite Hr. simpl. rewrite lookup_insert_eq. simpl. reflexivity. }
  repeat split.
  - simpl. by rewrite lookup_insert_eq.
  - simpl. by rewrite lookup_insert_eq.
  - unfold Settings_init, Settings_load, Settings_update, dict_update. simpl.
    by rewrite (right_id_L ∅ (∪)).
  - unfold Settings_load, Settings_update, dict_update. simpl.
    by rewrite (idemp (∪)).
Qed.

Lemma Settings_save_then_load_witness :
  ∃ w',
    Settings_save enabled_A enabled_world = (w', Return tt)
    ∧ cls_registration w' !! ext_id enabled_A
      = Some (set_reg_settings (stored_mapping (settings enabled_A))
                (set_reg_enabled true (set_reg_installed true
                   (RegisteredExtension_new "pkg.a.A" "ProjA"))))
    ∧ objects w' !! reg_class_name
                      (set_reg_enabled true (set_reg_installed true
                         (RegisteredExtension_new "pkg.a.A" "ProjA")))
      = Some (set_reg_settings (stored_mapping (settings enabled_A))
                (set_reg_enabled true (set_reg_installed true
                   (RegisteredExtension_new "pkg.a.A" "ProjA"))))
    ∧ Settings_init (set_reg_settings (stored_mapping (settings enabled_A))
                       (set_reg_enabled true (set_reg_installed true
                          (RegisteredExtension_new "pkg.a.A" "ProjA"))))
      = (settings enabled_A, Return tt)
    ∧ Settings_load (set_reg_settings (stored_mapping (settings enabled_A))
                       (set_reg_enabled true (set_reg_installed true
                          (RegisteredExtension_new "pkg.a.A" "ProjA"))))
        (settings enabled_A)
      = (settings enabled_A, Return tt).
Proof.
  apply (Settings_save_then_load enabled_A).
  vm_compute. reflexivity.
Defined.

(** * The list of installed applications *)

Lemma list_remove_None {A} `{EqDecision A} (x : A) l : x ∉ l → list_remove x l = None.
Proof.
  induction l as [|y l IH]; simpl; [done|].
  intros [? ?]%not_elem_of_cons. rewrite decide_False by done. by rewrite IH.
Qed.

Lemma list_remove_app_fresh {A} `{EqDecision A} (x : A) l l2 :
  x ∉ l → list_remove x (l ++ x :: l2) = Some (l ++ l2).
Proof.
  induction l as [|y l IH]; simpl; [by rewrite decide_True|].
  intros [? ?]%not_elem_of_cons. rewrite decide_False by done. by rewrite IH.
Qed.

Lemma _add_to_installed_apps_run c i w :
  cls_info w !! c = Some i →
  _add_to_installed_apps c w
  = (set_INSTALLED_APPS
       (λ l, if bool_decide (info_app_name i ∈ l) then l else l ++ [info_app_name i])
       (set_trace (λ t, t ++ [ev_add_to_installed_apps (info_app_name i)]) w),
     Return tt).
Proof.
  intros Hi. unfold _add_to_installed_apps, get_info, bind, gets, attr, emit,
    modify, ret. simpl. rewrite Hi. simpl.
  destruct w; unfold set_INSTALLED_APPS, set_trace; simpl in *.
  by case_bool_decide.
Qed.

Lemma _remove_from_installed_apps_run c i w :
  cls_info w !! c = Some i →
  _remove_from_installed_apps c w
  = (set_INSTALLED_APPS (λ l, default l (list_remove (info_app_name i) l))
       (set_trace (λ t, t ++ [ev_remove_from_installed_apps (info_app_name i)]) w),
     Return tt).
Proof.
  intros Hi. unfold _remove_from_installed_apps, get_info, bind, gets, attr,
    emit, modify, ret. simpl. rewrite Hi. simpl.
  destruct w; unfold set_INSTALLED_APPS, set_trace; simpl in *.
  by destruct (list_remove _ _).
Qed.

(** X5: [_add_to_installed_apps] and [_remove_from_installed_apps] of a
    class that carries its info.  Neither raises.  After the first the
    application is in [INSTALLED_APPS], which is left as it was when it held
    the application already; so a list without duplicates stays without
    duplicates.  The second takes one occurrence out, and does nothing when
    there is none; so it undoes an addition, and after it a list without
    duplicates no longer holds the application. *)
Theorem installed_apps_add_remove c i w :
  cls_info w !! c = Some i →
  ∃ w1 w2 w3,
    _add_to_installed_apps c w = (w1, Return tt)
    ∧ _remove_from_installed_apps c w1 = (w2, Return tt)
    ∧ _remove_from_installed_apps c w = (w3, Return tt)
    ∧ (info_app_name i ∈ INSTALLED_APPS w1)
    ∧ (info_app_name i ∈ INSTALLED_APPS w → INSTALLED_APPS w1 = INSTALLED_APPS w)
    ∧ (info_app_name i ∉ INSTALLED_APPS w →
         INSTALLED_APPS w2 = INSTALLED_APPS w
         ∧ INSTALLED_APPS w3 = INSTALLED_APPS w)
    ∧ (NoDup (INSTALLED_APPS w) →
         NoDup (INSTALLED_APPS w1)
         ∧ NoDup (INSTALLED_APPS w2) ∧ (info_app_name i ∉ INSTALLED_APPS w2)
         ∧ NoDup (INSTALLED_APPS w3) ∧ info_app_name i ∉ INSTALLED_APPS w3).
Proof.
  intros Hi. do 3 eexists.
  split; [by apply _add_to_installed_apps_run|].
  split; [by apply _remove_from_installed_apps_run|].
  split; [by apply _remove_from_installed_apps_run|].
  wsimpl. set (app := info_app_name i). set (apps := INSTALLED_APPS w).
  assert (NoDup apps →
          NoDup (if bool_decide (app ∈ apps) then apps else apps ++ [app])) as Hnd.
  { intros Hnd. case_bool_decide; [done|].
    apply NoDup_app. split; [done|]. split; [|apply NoDup_singleton].
    by intros x Hx ->%list_elem_of_singleton. }
  assert (∀ l, NoDup l → NoDup (default l (list_remove app l))
                         ∧ app ∉ default l (list_remove app l)) as Hrm.
  { intros l Hl. destruct (list_remove app l) as [l'|] eqn:Hl'; simpl.
    - by apply (list_remove_NoDup app l).
    - split; [done|]. intros Hin. apply (list_remove_Some app) in Hin.
      rewrite Hl' in Hin. by destruct Hin. }
  repeat split.
  - case_bool_decide; [done|]. apply elem_of_app. right. by left.
  - intros Hin. by rewrite bool_decide_eq_true_2.
  - rewrite bool_decide_eq_false_2 by done.
    by rewrite (list_remove_app_fresh app apps []), app_nil_r.
  - by rewrite list_remove_None.
  - auto.
  - apply Hrm; auto.
  - apply Hrm; auto.
  - apply Hrm; auto.
  - apply Hrm; auto.
Qed.

Lemma installed_apps_add_remove_witness :
  ∃ w1 w2 w3,
    _add_to_installed_apps "pkg.a.A" discovered_world = (w1, Return tt)
    ∧ _remove_from_installed_apps "pkg.a.A" w1 = (w2, Return tt)
    ∧ _remove_from_installed_apps "pkg.a.A" discovered_world = (w3, Return tt)
    ∧ (info_app_name discovered_info_A ∈ INSTALLED_APPS w1)
    ∧ (info_app_name discovered_info_A ∈ INSTALLED_APPS discovered_world →
         INSTALLED_APPS w1 = INSTALLED_APPS discovered_world)
    ∧ (info_app_name discovered_info_A ∉ INSTALLED_APPS discovered_world →
         INSTALLED_APPS w2 = INSTALLED_APPS discovered_world
         ∧ INSTALLED_APPS w3 = INSTALLED_APPS discovered_world)
    ∧ (NoDup (INSTALLED_APPS discovered_world) →
         NoDup (INSTALLED_APPS w1)
         ∧ NoDup (INSTALLED_APPS w2)
         ∧ (info_app_name discovered_info_A ∉ INSTALLED_APPS w2)
         ∧ NoDup (INSTALLED_APPS w3)
         ∧ info_app_name discovered_info_A ∉ INSTALLED_APPS w3).
Proof.
  apply (installed_apps_add_remove "pkg.a.A" discovered_info_A discovered_world).
  vm_compute. reflexivity.
Defined.

(** * The static files of an extension *)

Lemma wp_run {A} (m : M A) Q E w w' a :
  m w = (w', Return a) → Q a w' → wp m Q E w.
Proof. intros Hm HQ. unfold wp. by rewrite Hm. Qed.

Lemma rmtree_run path w :
  rmtree path w
  = (set_trace (λ t, t ++ [ev_rmtree path])
       (set_htdocs (λ l, if bool_decide (path ∈ unremovable w) then l
                         else dict_delitem path l) w),
     Return tt).
Proof.
  unfold rmtree, bind, gets, modify, emit, ret.
  case_bool_decide; [|done]. by destruct w.
Qed.

(** X6: what a successful [_install_extension] leaves.  Let the class carry
    its info and registration, on a host where the copy of the static files
    and the evolution of the database do not fail, and let the static
    directory of the extension not be one that exists, cannot be removed
    and is to be copied anew.  Then the call returns normally.  It has
    called [rmtree] on the directory if it existed, and [copytree] if the
    package has an [htdocs] resource: afterwards the directory exists
    exactly when the package has the resource or the old directory could
    not be removed.  The registration says installed, in memory and in the
    persisted row; and one occurrence of the application was taken out of
    [INSTALLED_APPS] if it held the application before the call, the list
    being as it was otherwise.  The known classes, the live instances, the
    hooks, the URL patterns and the infos are untouched. *)
Theorem _install_extension_effect env c i r w :
  cls_info w !! c = Some i →
  cls_registration w !! c = Some r →
  install_ok env c = true →
  static_stuck w (info_htdocs_path i)
  && resource_exists_htdocs env (cls_module (ext_class env c)) = false →
  ∃ w',
    _install_extension env c w = (w', Return tt)
    ∧ htdocs w'
      = (if bool_decide (info_htdocs_path i ∈ unremovable w) then htdocs w
         else dict_delitem (info_htdocs_path i) (htdocs w))
        ++ (if resource_exists_htdocs env (cls_module (ext_class env c))
            then [info_htdocs_path i] else [])
    ∧ (info_htdocs_path i ∈ htdocs w' ↔
       resource_exists_htdocs env (cls_module (ext_class env c)) = true
       ∨ static_stuck w (info_htdocs_path i) = true)
    ∧ INSTALLED_APPS w'
      = default (INSTALLED_APPS w)
          (list_remove (info_app_name i) (INSTALLED_APPS w))
    ∧ cls_registration w' = <[c := set_reg_installed true r]> (cls_registration w)
    ∧ objects w' = <[reg_class_name r := set_reg_installed true r]> (objects w)
    ∧ cls_info w' = cls_info w
    ∧ _extension_classes w' = _extension_classes w
    ∧ hook_state w' = hook_state w
    ∧ url_patterns w' = url_patterns w.
Proof.
  intros Hi Hr [Hcopy Hev%bool_decide_eq_true]%andb_prop Hstuck.
  set (path := info_htdocs_path i) in *.
  set (dirs1 := if bool_decide (path ∈ unremovable w) then htdocs w
                else dict_delitem path (htdocs w)).
  set (copies := resource_exists_htdocs env (cls_module (ext_class env c))) in *.
  assert (copies = true → path ∉ dirs1) as Hfree.
  { intros Hc. rewrite Hc, andb_true_r in Hstuck. unfold static_stuck in Hstuck.
    subst dirs1. destruct (decide (path ∈ unremovable w)) as [Hun|Hun].
    - rewrite (bool_decide_eq_true_2 _ Hun), ?andb_true_r in *.
      by apply bool_decide_eq_false in Hstuck.
    - rewrite (bool_decide_eq_false_2 _ Hun). apply not_elem_of_dict_delitem. }
  assert (path ∈ dirs1 ↔ static_stuck w path = true) as Hleft.
  { unfold static_stuck. subst dirs1.
    destruct (decide (path ∈ unremovable w)) as [Hun|Hun].
    - rewrite (bool_decide_eq_true_2 _ Hun), andb_true_r.
      by rewrite bool_decide_eq_true.
    - rewrite (bool_decide_eq_false_2 _ Hun), andb_false_r. split; [|done].
      by intros ?%not_elem_of_dict_delitem. }
  cut (wp (_install_extension env c)
         (λ _ w',
            htdocs w' = dirs1 ++ (if copies then [path] else [])
            ∧ INSTALLED_APPS w'
              = default (INSTALLED_APPS w)
                  (list_remove (info_app_name i) (INSTALLED_APPS w))
            ∧ cls_registration w'
              = <[c := set_reg_installed true r]> (cls_registration w)
            ∧ objects w'
              = <[reg_class_name r := set_reg_installed true r]> (objects w)
            ∧ cls_info w' = cls_info w
            ∧ _extension_classes w' = _extension_classes w
            ∧ hook_state w' = hook_state w
            ∧ url_patterns w' = url_patterns w)
         (λ _ _, False) w).
  { intros (w' & [] & Hrun & Hd & ?)%wp_returns. exists w'.
    do 2 (split; [done|]). split; [|done].
    rewrite Hd, elem_of_app, Hleft. destruct copies.
    - rewrite list_elem_of_singleton. tauto.
    - rewrite elem_of_nil. split; [tauto|]. by intros [?|?]; [|left]. }
  unfold _install_extension.
  apply wp_bind. eapply wp_get_info; [done|].
  apply wp_bind, wp_gets. apply wp_bind. fold path.
  apply (wp_cut (λ _ w1, ∃ t, w1 = set_trace (λ _, trace w ++ t)
                                     (set_htdocs (λ _, dirs1) w))
                (λ _ _, False)).
  { case_bool_decide as Hdir.
    - eapply wp_run; [apply rmtree_run|]. by exists [ev_rmtree path].
    - apply wp_ret. exists []. subst dirs1.
      destruct w; unfold set_trace, set_htdocs; simpl in *.
      rewrite app_nil_r, dict_delitem_not_elem_of by done.
      by case_bool_decide. }
  2: done.
  intros _ w1 [t1 ->]. apply wp_bind.
  apply (wp_cut (λ _ w2, ∃ t, w2 = set_trace (λ _, trace w ++ t)
                     (set_htdocs
                        (λ _, dirs1 ++ (if copies then [path] else [])) w))
                (λ _ _, False)).
  { fold copies. destruct copies eqn:Hres; simpl in Hcopy.
    - apply negb_true_iff in Hcopy.
      unfold copytree. apply wp_bind, wp_gets.
      rewrite bool_decide_eq_false_2 by (wsimpl; by apply Hfree).
      rewrite Hcopy. apply wp_bind, wp_modify, wp_emit.
      exists (t1 ++ [ev_copytree (cls_module (ext_class env c)) path]).
      wsimpl. by rewrite app_assoc.
    - apply wp_ret. exists t1. wsimpl. by rewrite app_nil_r. }
  2: done.
  intros _ w2 [t2 ->].
  apply wp_bind. eapply wp_update_registration; [done|].
  apply wp_bind. eapply wp_registration_save; [by simpl; simplify_map_eq|].
  apply wp_bind. eapply wp_run; [by apply _add_to_installed_apps_run|].
  apply wp_bind, wp_emit, wp_bind, wp_try_except. unfold evolve. rewrite Hev.
  apply wp_emit. apply wp_bind.
  eapply wp_run; [by apply _remove_from_installed_apps_run|].
  apply wp_bind.
  eapply wp_update_registration; [by simpl; simplify_map_eq|].
  eapply wp_registration_save; [by simpl; simplify_map_eq|].
  wsimpl. rewrite !insert_insert_eq.
  repeat split; try done.
  set (app := info_app_name i). set (apps := INSTALLED_APPS w).
  case_bool_decide as Happ.
  - done.
  - by rewrite (list_remove_app_fresh app apps []), app_nil_r, list_remove_None.
Qed.

Lemma _install_extension_effect_witness :
  ∃ w',
    _install_extension plain_env "pkg.a.A" discovered_world = (w', Return tt)
    ∧ htdocs w'
      = (if bool_decide (info_htdocs_path discovered_info_A
                         ∈ unremovable discovered_world)
         then htdocs discovered_world
         else dict_delitem (info_htdocs_path discovered_info_A)
                (htdocs discovered_world))
        ++ (if resource_exists_htdocs plain_env
                 (cls_module (ext_class plain_env "pkg.a.A"))
            then [info_htdocs_path discovered_info_A] else [])
    ∧ (info_htdocs_path discovered_info_A ∈ htdocs w' ↔
       resource_exists_htdocs plain_env
         (cls_module (ext_class plain_env "pkg.a.A")) = true
       ∨ static_stuck discovered_world (info_htdocs_path discovered_info_A) = true)
    ∧ INSTALLED_APPS w'
      = default (INSTALLED_APPS discovered_world)
          (list_remove (info_app_name discovered_info_A)
             (INSTALLED_APPS discovered_world))
    ∧ cls_registration w'
      = <["pkg.a.A" := set_reg_installed true
                         (RegisteredExtension_new "pkg.a.A" "ProjA")]>
          (cls_registration discovered_world)
    ∧ objects w'
      = <[reg_class_name (RegisteredExtension_new "pkg.a.A" "ProjA")
          := set_reg_installed true (RegisteredExtension_new "pkg.a.A" "ProjA")]>
          (objects discovered_world)
    ∧ cls_info w' = cls_info discovered_world
    ∧ _extension_classes w' = _extension_classes discovered_world
    ∧ hook_state w' = hook_state discovered_world
    ∧ url_patterns w' = url_patterns discovered_world.
Proof.
  apply (_install_extension_effect plain_env "pkg.a.A" discovered_info_A
           (RegisteredExtension_new "pkg.a.A" "ProjA") discovered_world).
  - vm_compute. reflexivity.
  - vm_compute. reflexivity.
  - vm_compute. reflexivity.
  - vm_compute. reflexivity.
Defined.

(** X7: [_uninstall_extension] of an instance whose class carries its info
    returns normally, whether the static directory of the extension exists
    or not.  It calls [rmtree] on the directory exactly when the directory
    exists, and the error of a removal that fails is ignored: afterwards the
    directory exists only if it existed and could not be removed.  The other
    directories are as they were, and nothing but the directories and the
    trace has changed, so the registration still says installed.  Once the
    directory is gone, a further call changes nothing at all. *)
Theorem _uninstall_extension_effect (extension : Extension) i w :
  cls_info w !! ext_id extension = Some i →
  ∃ w',
    _uninstall_extension extension w = (w', Return tt)
    ∧ w' = set_trace
             (λ t, t ++ if bool_decide (info_htdocs_path i ∈ htdocs w)
                        then [ev_rmtree (info_htdocs_path i)] else [])
             (set_htdocs
                (λ l, if bool_decide (info_htdocs_path i ∈ unremovable w) then l
                      else dict_delitem (info_htdocs_path i) l) w)
    ∧ (info_htdocs_path i ∈ htdocs w' ↔
       static_stuck w (info_htdocs_path i) = true)
    ∧ (∀ d, d ≠ info_htdocs_path i → d ∈ htdocs w' ↔ d ∈ htdocs w)
    ∧ (info_htdocs_path i ∉ htdocs w' →
       _uninstall_extension extension w' = (w', Return tt)).
Proof.
  intros Hi. set (path := info_htdocs_path i).
  assert (∀ w0, cls_info w0 !! ext_id extension = Some i →
                path ∉ htdocs w0 →
                _uninstall_extension extension w0 = (w0, Return tt)) as Hnone.
  { intros w0 Hi0 Hd. unfold _uninstall_extension, get_info, bind, gets, attr, ret.
    rewrite Hi0. simpl. by rewrite bool_decide_eq_false_2. }
  eexists. split; [|split; [reflexivity|]].
  { unfold _uninstall_extension, get_info. unfold bind at 1. unfold bind at 1.
    unfold gets at 1. unfold attr. rewrite Hi. unfold ret at 1.
    unfold bind at 1. unfold gets at 1. fold path. case_bool_decide as Hd.
    - rewrite rmtree_run. reflexivity.
    - unfold ret. destruct w; unfold set_trace, set_htdocs; simpl in *.
      rewrite app_nil_r. case_bool_decide; [done|].
      by rewrite dict_delitem_not_elem_of. }
  split; [|split].
  - unfold static_stuck. wsimpl.
    destruct (decide (path ∈ unremovable w)) as [Hun|Hun].
    + rewrite (bool_decide_eq_true_2 _ Hun), andb_true_r.
      by rewrite bool_decide_eq_true.
    + rewrite (bool_decide_eq_false_2 _ Hun), andb_false_r. split; [|done].
      by intros ?%not_elem_of_dict_delitem.
  - intros d Hne. wsimpl. case_bool_decide; [done|].
    rewrite elem_of_dict_delitem. tauto.
  - intros Hgone. by apply Hnone.
Qed.

Lemma _uninstall_extension_effect_witness :
  ∃ w',
    _uninstall_extension enabled_A
      (with_unremovable ["/static/ext/ProjA"] enabled_world) = (w', Return tt)
    ∧ w' = set_trace
             (λ t, t ++ if bool_decide
                             (info_htdocs_path
                                (set_info_enabled true
                                   (set_info_installed true discovered_info_A))
                              ∈ htdocs (with_unremovable ["/static/ext/ProjA"]
                                          enabled_world))
                        then [ev_rmtree
                                (info_htdocs_path
                                   (set_info_enabled true
                                      (set_info_installed true discovered_info_A)))]
                        else [])
             (set_htdocs
                (λ l, if bool_decide
                           (info_htdocs_path
                              (set_info_enabled true
                                 (set_info_installed true discovered_info_A))
                            ∈ unremovable (with_unremovable ["/static/ext/ProjA"]
                                             enabled_world))
                      then l
                      else dict_delitem
                             (info_htdocs_path
                                (set_info_enabled true
                                   (set_info_installed true discovered_info_A)))
                             l)
                (with_unremovable ["/static/ext/ProjA"] enabled_world))
    ∧ (info_htdocs_path
         (set_info_enabled true (set_info_installed true discovered_info_A))
       ∈ htdocs w' ↔
       static_stuck (with_unremovable ["/static/ext/ProjA"] enabled_world)
         (info_htdocs_path
            (set_info_enabled true (set_info_installed true discovered_info_A)))
       = true)
    ∧ (∀ d, d ≠ info_htdocs_path
                  (set_info_enabled true
                     (set_info_installed true discovered_info_A)) →
            d ∈ htdocs w'
            ↔ d ∈ htdocs (with_unremovable ["/static/ext/ProjA"] enabled_world))
    ∧ (info_htdocs_path
         (set_info_enabled true (set_info_installed true discovered_info_A))
       ∉ htdocs w' →
       _uninstall_extension enabled_A w' = (w', Return tt)).
Proof.
  apply (_uninstall_extension_effect enabled_A
           (set_info_enabled true (set_info_installed true discovered_info_A))
           (with_unremovable ["/static/ext/ProjA"] enabled_world)).
  vm_compute. reflexivity.
Defined.

(** * Hooks: registration and shutdown *)

(** X8: a hook and its hook point.  [ExtensionHook.__init__] appends the new
    hook to the list of its hook point; [shutdown] then takes it out again,
    which leaves every hook point with the hooks it had before the hook was
    made; and a second [shutdown] of the same hook raises [ValueError],
    the hook being no longer in the list, and changes nothing.  The hooks
    already registered are older objects than the new one. *)
Theorem ExtensionHook_init_then_shutdown (extension : nat) (point : string) w :
  (∀ h, h ∈ point_hooks w point → hook_obj h < next_obj w) →
  ∃ w1 hook w2,
    ExtensionHook_init extension point w = (w1, Return hook)
    ∧ hook = {| hook_obj := next_obj w; hook_point := point;
                hook_extension := extension |}
    ∧ point_hooks w1 point = point_hooks w point ++ [hook]
    ∧ ExtensionHook_shutdown hook w1 = (w2, Return tt)
    ∧ (∀ p, point_hooks w2 p = point_hooks w p)
    ∧ ExtensionHook_shutdown hook w2 = (w2, Raise ValueError).
Proof.
  intros Hold.
  set (hook := {| hook_obj := next_obj w; hook_point := point;
                  hook_extension := extension |}).
  assert (hook ∉ point_hooks w point) as Hfresh.
  { intros Hin. apply Hold in Hin. simpl in Hin. lia. }
  set (w1 := set_trace (λ t, t ++ [ev_add_hook hook])
               (set_hook_points (<[point := point_hooks w point ++ [hook]]>)
                  (set_next_obj S w))).
  set (w2 := set_trace (λ t, t ++ [ev_remove_hook hook])
               (set_hook_points (<[point := point_hooks w point]>) w1)).
  assert (point_hooks w1 point = point_hooks w point ++ [hook]) as H1.
  { unfold point_hooks, w1. wsimpl. by rewrite lookup_insert_eq. }
  assert (∀ p, point_hooks w2 p = point_hooks w p) as H2.
  { intros p. unfold point_hooks, w2, w1. wsimpl.
    destruct (decide (p = point)) as [->|].
    - by rewrite lookup_insert_eq.
    - by rewrite !lookup_insert_ne. }
  exists w1, hook, w2. repeat split; try done.
  - unfold ExtensionHook_shutdown, remove_hook, bind, gets, attr, modify, emit.
    change (hook_point hook) with point. rewrite H1.
    by rewrite (list_remove_app_fresh hook _ []), app_nil_r.
  - unfold ExtensionHook_shutdown, remove_hook, bind, gets, attr.
    change (hook_point hook) with point. rewrite H2.
    by rewrite list_remove_None.
Qed.

Lemma ExtensionHook_init_then_shutdown_witness :
  ∃ w1 hook w2,
    ExtensionHook_init 7 "NavigationHook" enabled_world = (w1, Return hook)
    ∧ hook = {| hook_obj := next_obj enabled_world; hook_point := "NavigationHook";
                hook_extension := 7 |}
    ∧ point_hooks w1 "NavigationHook"
      = point_hooks enabled_world "NavigationHook" ++ [hook]
    ∧ ExtensionHook_shutdown hook w1 = (w2, Return tt)
    ∧ (∀ p, point_hooks w2 p = point_hooks enabled_world p)
    ∧ ExtensionHook_shutdown hook w2 = (w2, Raise ValueError).
Proof.
  apply (ExtensionHook_init_then_shutdown 7 "NavigationHook" enabled_world).
  intros h Hh. vm_compute in Hh.
  repeat (apply elem_of_cons in Hh as [->|Hh]; [vm_compute; lia|]).
  by apply elem_of_nil in Hh.
Defined.

(** * The dependents of an extension *)

Lemma elem_of_dependents_in_inv w c x items :
  x ∈ dependents_in w c items →
  x ∈ items ∧ x ≠ c ∧ ∃ l, requirements_at w x = Some l ∧ c ∈ l.
Proof.
  induction items as [|y items IH]; simpl; [by intros ?%elem_of_nil|].
  intros [Hx|Hx]%elem_of_app.
  - destruct (decide (y = c)) as [->|Hne]; [by apply elem_of_nil in Hx|].
    apply list_elem_of_fmap in Hx as (r & -> & [-> Hr]%list_elem_of_filter).
    split; [by left|]. split; [done|].
    destruct (requirements_at w y) as [l|]; [|by apply elem_of_nil in Hr].
    by exists l.
  - destruct (IH Hx) as (? & ? & ?). split; [by right|done].
Qed.

(** X9: [get_dependent_extensions] never changes the world.  It raises
    [InvalidExtensionError] unless the id is enabled and known: a known id
    that is not enabled has no dependents to ask for.  For an enabled known
    id, in a world where [load] has resolved the requirements of every known
    class, it returns the known ids, other than the id itself, whose resolved
    requirements hold the id. *)
Theorem get_dependent_extensions_result c w :
  resolved w →
  ∃ l,
    get_dependent_extensions c w
    = (w, if bool_decide (is_Some (_extension_instances w !! c)
                          ∧ c ∈ _extension_classes w)
          then Return l else Raise (InvalidExtensionError c))
    ∧ ∀ x, x ∈ l ↔
           x ∈ _extension_classes w ∧ x ≠ c
           ∧ ∃ reqs, requirements_at w x = Some reqs ∧ c ∈ reqs.
Proof.
  intros Hres. exists (dependents_of w c). split.
  - case_bool_decide as H.
    + destruct H. by apply get_dependent_extensions_spec.
    + unfold get_dependent_extensions, get_installed_extension, bind, gets.
      destruct (_extension_instances w !! c) as [e|] eqn:He; [|done].
      rewrite bool_decide_eq_false_2; [done|]. intros Hc. apply H. by split.
  - intros x. split.
    + apply elem_of_dependents_in_inv.
    + intros (Hx & Hne & l & Hl & Hc). by eapply elem_of_dependents_in.
Qed.

Lemma get_dependent_extensions_result_witness :
  ∃ l,
    get_dependent_extensions "pkg.a.A" enabled_world
    = (enabled_world,
       if bool_decide (is_Some (_extension_instances enabled_world !! "pkg.a.A")
                       ∧ "pkg.a.A" ∈ _extension_classes enabled_world)
       then Return l else Raise (InvalidExtensionError "pkg.a.A"))
    ∧ ∀ x, x ∈ l ↔
           x ∈ _extension_classes enabled_world ∧ x ≠ "pkg.a.A"
           ∧ ∃ reqs, requirements_at enabled_world x = Some reqs
                     ∧ "pkg.a.A" ∈ reqs.
Proof.
  apply (get_dependent_extensions_result "pkg.a.A" enabled_world).
  by_compute.
Defined.

(** * Requirements that cannot be met *)

(** X10: requirements that form a cycle.  Let the ids of [cycle] be known
    and not enabled, the first requirement of each being an id of [cycle]
    again.  Then [enable_extension] of any of them only calls itself, until
    the interpreter's recursion limit is met: it raises [RuntimeError],
    whatever the limit, and nothing has changed. *)
Theorem enable_extension_requirement_cycle env (cycle : list string) depth c w :
  (∀ x, x ∈ cycle →
        x ∈ _extension_classes w ∧ _extension_instances w !! x = None
        ∧ ∃ r, head (cls_requirements (ext_class env x)) = Some r ∧ r ∈ cycle) →
  c ∈ cycle →
  enable_extension env depth c w = (w, Raise RECURSION_LIMIT).
Proof.
  intros Hcycle. revert c. induction depth as [|depth IH]; intros c Hc; [done|].
  destruct (Hcycle c Hc) as (Hknown & Hlive & r & Hr & Hrc).
  cbn [enable_extension]. unfold bind at 1, gets at 1. rewrite Hlive.
  unfold bind at 1, gets at 1. rewrite bool_decide_eq_true_2 by done.
  destruct (cls_requirements (ext_class env c)) as [|r' reqs]; [done|].
  injection Hr as ->. cbn [for_each]. unfold bind. by rewrite (IH r Hrc).
Qed.

Lemma enable_extension_requirement_cycle_witness :
  enable_extension cyclic_env 10 "pkg.a.A" cyclic_world
  = (cyclic_world, Raise RECURSION_LIMIT).
Proof.
  apply (enable_extension_requirement_cycle cyclic_env ["pkg.a.A"; "pkg.b.B"]).
  - intros x [->|[->|Hx%elem_of_nil]%elem_of_cons]%elem_of_cons; [| |done].
    + split; [by_compute|]. split; [vm_compute; reflexivity|].
      exists "pkg.b.B". split; [vm_compute; reflexivity|by_compute].
    + split; [by_compute|]. split; [vm_compute; reflexivity|].
      exists "pkg.a.A". split; [vm_compute; reflexivity|by_compute].
  - by_compute.
Defined.

(** * What is known and what is enabled *)

Section same_runtime.
Let R := same runtime.

Lemma same_runtime_update_registration c f : preserves R (update_registration c f).
Proof. unfold_steps. preserves_tac. done. Qed.

Lemma same_runtime_update_info c f : preserves R (update_info c f).
Proof. unfold_steps. preserves_tac. done. Qed.

Lemma same_runtime_registration_save c : preserves R (registration_save c).
Proof. unfold_steps. preserves_tac; done. Qed.

Lemma same_runtime_install_extension env c : preserves R (_install_extension env c).
Proof. unfold_steps. preserves_tac; done. Qed.

Lemma same_runtime_uninstall_extension e : preserves R (_uninstall_extension e).
Proof. unfold_steps. preserves_tac; done. Qed.

Lemma same_runtime_create_hooks o points : preserves R (create_hooks o points).
Proof. induction points; simpl; unfold_steps; preserves_tac; done. Qed.

Lemma same_runtime_Extension_init env c : preserves R (Extension_init env c).
Proof.
  pose proof same_runtime_create_hooks. unfold Extension_init.
  unfold_steps. preserves_tac; done.
Qed.

Lemma same_runtime_init_tail c (extension : Extension) :
  preserves R
    (registration <- get_registration c ;;
     update_info c (set_info_installed (reg_installed registration)) ;;;
     update_info c (set_info_enabled true) ;;;
     _add_to_installed_apps c ;;;
     _reset_templatetags_cache ;;;
     emit (extension_initialized c (ext_obj extension)) ;;;
     ret extension).
Proof. unfold_steps. preserves_tac; done. Qed.
End same_runtime.

Lemma wp_same_runtime {A} (m : M A) (P : World → Prop) w :
  preserves (same runtime) m →
  (∀ w', runtime w' = runtime w → P w') →
  wp m (λ _ w', P w') (λ _ w', P w') w.
Proof.
  intros Hm HP. specialize (Hm w). unfold wp.
  destruct (m w) as [w' [a|e]]; by apply HP.
Qed.

Lemma Extension_init_id env c w :
  wp (Extension_init env c)
    (λ e w', ext_id e = c ∧ runtime w' = runtime w)
    (λ _ w', runtime w' = runtime w) w.
Proof.
  assert (wp (Extension_init env c) (λ e _, ext_id e = c) (λ _ _, True) w) as Hv.
  { unfold Extension_init.
    do 2 (apply wp_bind_const; intros ? ?).
    destruct (Settings_load _ _) as [d [[]|e]]; [|by apply wp_raise].
    apply wp_bind_const; intros ? ?.
    destruct (cls_init_raises _); [by apply wp_raise|by apply wp_ret]. }
  pose proof (same_runtime_Extension_init env c w) as Hs.
  unfold wp in *. destruct (Extension_init env c w) as [w' [e|x]]; simpl in *; auto.
Qed.

Lemma init_tail_value c (extension : Extension) w :
  wp (registration <- get_registration c ;;
      update_info c (set_info_installed (reg_installed registration)) ;;;
      update_info c (set_info_enabled true) ;;;
      _add_to_installed_apps c ;;;
      _reset_templatetags_cache ;;;
      emit (extension_initialized c (ext_obj extension)) ;;;
      ret extension)
    (λ e w', e = extension ∧ runtime w' = runtime w)
    (λ _ w', runtime w' = runtime w) w.
Proof.
  match goal with |- wp ?m _ _ _ =>
    assert (wp m (λ e _, e = extension) (λ _ _, True) w) as Hv;
    [|pose proof (same_runtime_init_tail c extension w) as Hs;
      unfold wp in *; destruct (m w) as [w' [e|x]]; simpl in *; auto]
  end.
  do 6 (apply wp_bind_const; intros ? ?). by apply wp_ret.
Qed.

(** What [_init_extension] does to the live instances, whatever its outcome:
    nothing, or it stores an instance of the class under the id of the class,
    which had no live instance. *)
Lemma _init_extension_instances env c w :
  wp (_init_extension env c)
    (λ e w', _extension_classes w' = _extension_classes w
             ∧ _extension_instances w !! c = None
             ∧ ext_id e = c
             ∧ _extension_instances w' = <[c := e]> (_extension_instances w))
    (λ _ w', _extension_classes w' = _extension_classes w
             ∧ (_extension_instances w' = _extension_instances w
                ∨ (_extension_instances w !! c = None
                   ∧ ∃ e, ext_id e = c
                          ∧ _extension_instances w' = <[c := e]> (_extension_instances w))))
    w.
Proof.
  unfold _init_extension. apply wp_bind, wp_gets.
  destruct (_extension_instances w !! c) as [e0|] eqn:Hc.
  { apply wp_raise. auto. }
  apply wp_bind.
  eapply wp_cut; [apply Extension_init_id| |].
  2: { intros x w1 [= Hi Hk]. auto. }
  intros e w1 [He [= Hi Hk]]. apply wp_bind, wp_modify. rewrite He.
  apply wp_bind.
  apply (wp_cut (λ e' w2, _extension_classes w2 = _extension_classes w
                          ∧ ext_id e' = c
                          ∧ _extension_instances w2 = <[c := e']> (_extension_instances w))
                (λ _ w2, _extension_classes w2 = _extension_classes w
                         ∧ ∃ e', ext_id e' = c
                                 ∧ _extension_instances w2
                                   = <[c := e']> (_extension_instances w))).
  { destruct (cls_is_configurable (ext_class env c)).
    - unfold _install_admin_urls.
      destruct (admin_urlconf env (ext_id e)) as [[]|].
      + apply wp_bind, wp_new_object, wp_bind, wp_modify, wp_bind, wp_modify,
          wp_bind, wp_emit, wp_ret.
        wsimpl. rewrite He, Hi, Hk, insert_insert_eq. done.
      + apply wp_ret. wsimpl. by rewrite Hi, Hk.
      + apply wp_raise. wsimpl. rewrite Hi, Hk. eauto.
    - apply wp_ret. wsimpl. by rewrite Hi, Hk. }
  2: { intros x w2 (? & e' & ? & ?). split; [done|]. right. eauto. }
  intros e' w2 (Hk2 & He' & Hi2).
  eapply wp_cut; [apply init_tail_value| |].
  - intros a w3 [-> [= Hi3 Hk3]]. rewrite Hi3, Hk3. auto.
  - intros x w3 [= Hi3 Hk3]. rewrite Hi3, Hk3. split; [done|]. right. eauto.
Qed.

#[global] Instance enable_grows_preorder : PreOrder enable_grows.
Proof.
  split.
  - intros w. split; [done|]. split; [auto|]. intros y Hy. by left.
  - intros w1 w2 w3 (Hk1 & Hl1 & Hn1) (Hk2 & Hl2 & Hn2).
    split; [congruence|]. split; [auto|].
    intros y Hy. destruct (Hn2 y Hy) as [Hy1|Hy1]; [auto|].
    right. by rewrite <-Hk1.
Qed.

Lemma enable_grows_of_same w w' : runtime w' = runtime w → enable_grows w w'.
Proof.
  intros [= Hi Hk]. split; [done|]. rewrite Hi. split; [auto|]. intros y Hy. by left.
Qed.

Lemma wp_bind_grows {A B} (m : M A) (k : A → M B) w0 w :
  enable_grows w0 w →
  preserves (same runtime) m →
  (∀ a w', enable_grows w0 w' →
           wp (k a) (λ _ w'', enable_grows w0 w'') (λ _ w'', enable_grows w0 w'') w') →
  wp (bind m k) (λ _ w'', enable_grows w0 w'') (λ _ w'', enable_grows w0 w'') w.
Proof.
  intros H0 Hm Hk. apply wp_bind.
  eapply wp_cut; [apply (wp_same_runtime _ (λ w', enable_grows w0 w')); [done|]| |].
  - intros w' Hw'. etrans; [done|]. by apply enable_grows_of_same.
  - intros a w' Hw'. by apply Hk.
  - done.
Qed.

Lemma _init_extension_grows env c w :
  c ∈ _extension_classes w →
  wp (_init_extension env c)
    (λ e w', enable_grows w w' ∧ _extension_instances w' !! c = Some e ∧ ext_id e = c)
    (λ _ w', enable_grows w w') w.
Proof.
  intros Hc.
  assert (∀ w' e, _extension_classes w' = _extension_classes w →
                  _extension_instances w !! c = None →
                  _extension_instances w' = <[c := e]> (_extension_instances w) →
                  enable_grows w w') as Hins.
  { intros w' e Hk Hn Hi. split; [done|]. rewrite Hi. split.
    - intros y e' Hy. rewrite lookup_insert_ne; [done|]. congruence.
    - intros y. destruct (decide (y = c)) as [->|]; [by right|].
      rewrite lookup_insert_ne by done. by left. }
  eapply wp_cut; [apply _init_extension_instances| |].
  - intros e w' (Hk & Hn & He & Hi). split; [by eapply Hins|].
    split; [|done]. by rewrite Hi, lookup_insert_eq.
  - intros x w' (Hk & [Hi|(Hn & e & He & Hi)]).
    + apply enable_grows_of_same. unfold runtime. by rewrite Hi, Hk.
    + by eapply Hins.
Qed.

(** What [enable_extension] does to the known classes and the live
    instances, whatever its outcome. *)
Lemma enable_extension_grows env depth :
  ∀ c w, wp (enable_extension env depth c)
           (λ _ w', enable_grows w w') (λ _ w', enable_grows w w') w.
Proof.
  induction depth as [|depth IH]; intros c w; cbn [enable_extension].
  { apply wp_raise. reflexivity. }
  apply wp_bind, wp_gets.
  destruct (_extension_instances w !! c) as [e0|] eqn:Hc; [by apply wp_ret|].
  apply wp_bind, wp_gets. case_bool_decide as Hk; [|by apply wp_raise].
  apply wp_bind.
  apply (wp_for_each (λ _ w1, enable_grows w w1)); [done| |].
  { intros x rest w1 H1. apply wp_bind.
    eapply wp_cut; [apply IH| |].
    - intros a w2 H2. apply wp_ret. by etrans.
    - intros a w2 H2. by etrans. }
  intros w1 H1. apply wp_bind_grows; [done| |].
  { pose proof same_runtime_install_extension. preserves_tac. }
  intros _ w2 H2. apply wp_bind_grows; [done|apply same_runtime_update_registration|].
  intros _ w3 H3. apply wp_bind_grows; [done|apply same_runtime_registration_save|].
  intros _ w4 H4. apply wp_bind.
  eapply wp_cut; [apply _init_extension_grows| |].
  - destruct H4 as [-> _]. done.
  - intros e w5 [H5 _]. apply wp_ret. by etrans.
  - intros x w5 H5. by etrans.
Qed.

(** * A requirement that is not known *)

Lemma enable_extension_missing env c r :
  r ∈ cls_requirements (ext_class env c) →
  ∀ depth x w,
    r ∉ _extension_classes w →
    _extension_instances w !! r = None →
    _extension_instances w !! c = None →
    wp (enable_extension env depth x)
      (λ _ w', ((r ∉ _extension_classes w')
                ∧ _extension_instances w' !! r = None
                ∧ _extension_instances w' !! c = None)
               ∧ x ≠ c ∧ x ≠ r)
      (λ _ w', (r ∉ _extension_classes w')
               ∧ _extension_instances w' !! r = None
               ∧ _extension_instances w' !! c = None)
      w.
Proof.
  intros Hr. induction depth as [|depth IH]; intros x w Hrk Hrl Hcl;
    cbn [enable_extension].
  { by apply wp_raise. }
  set (Inv := λ w', (r ∉ _extension_classes w')
                    ∧ _extension_instances w' !! r = None
                    ∧ _extension_instances w' !! c = None).
  assert (∀ w1 w2, runtime w2 = runtime w1 → Inv w1 → Inv w2) as Hsame.
  { intros w1 w2 [= Hi Hk]. unfold Inv. by rewrite Hi, Hk. }
  apply wp_bind, wp_gets.
  destruct (_extension_instances w !! x) as [e0|] eqn:Hx.
  { apply wp_ret. repeat split; auto; congruence. }
  apply wp_bind, wp_gets. case_bool_decide as Hk; [|by apply wp_raise].
  assert (x ≠ r) as Hxr by congruence.
  apply wp_bind.
  apply (wp_for_each
           (λ l w1, Inv w1 ∧ _extension_classes w1 = _extension_classes w
                    ∧ (x = c → r ∈ l))).
  { split; [done|]. split; [done|]. by intros ->. }
  { intros y rest w1 (H1 & Hk1 & Hl1). apply wp_bind.
    eapply wp_cut;
      [apply wp_and;
         [apply (IH y w1); apply H1|apply (enable_extension_grows env depth y w1)]| |].
    - intros a w2 [(H2 & Hyc & Hyr) (Hk2 & _)]. apply wp_ret.
      split; [done|]. split; [congruence|].
      intros Hxc. apply Hl1 in Hxc. apply elem_of_cons in Hxc as [->|]; done.
    - intros a w2 [H2 _]. done. }
  intros w1 (H1 & Hk1 & Hl1).
  assert (x ≠ c) as Hxc.
  { intros Hxc. by apply Hl1, elem_of_nil in Hxc. }
  apply wp_bind.
  apply (wp_cut (λ _ w2, Inv w2 ∧ _extension_classes w2 = _extension_classes w)
                (λ _ w2, Inv w2)).
  { apply (wp_cut (λ _ w2, runtime w2 = runtime w1) (λ _ w2, runtime w2 = runtime w1)).
    - apply wp_same_runtime; [|done].
      pose proof same_runtime_install_extension. preserves_tac.
    - intros _ w2 H2. split; [by eapply Hsame|]. injection H2 as _ ->. done.
    - intros _ w2 H2. by eapply Hsame. }
  2: done.
  intros _ w2 [H2 Hk2]. apply wp_bind.
  apply (wp_cut (λ _ w3, Inv w3 ∧ _extension_classes w3 = _extension_classes w)
                (λ _ w3, Inv w3)).
  { apply (wp_cut (λ _ w3, runtime w3 = runtime w2) (λ _ w3, runtime w3 = runtime w2)).
    - apply wp_same_runtime; [apply same_runtime_update_registration|done].
    - intros _ w3 H3. split; [by eapply Hsame|]. injection H3 as _ ->. done.
    - intros _ w3 H3. by eapply Hsame. }
  2: done.
  intros _ w3 [H3 Hk3]. apply wp_bind.
  apply (wp_cut (λ _ w4, Inv w4 ∧ _extension_classes w4 = _extension_classes w)
                (λ _ w4, Inv w4)).
  { apply (wp_cut (λ _ w4, runtime w4 = runtime w3) (λ _ w4, runtime w4 = runtime w3)).
    - apply wp_same_runtime; [apply same_runtime_registration_save|done].
    - intros _ w4 H4. split; [by eapply Hsame|]. injection H4 as _ ->. done.
    - intros _ w4 H4. by eapply Hsame. }
  2: done.
  intros _ w4 [(Hrk4 & Hrl4 & Hcl4) Hk4]. apply wp_bind.
  eapply wp_cut; [apply _init_extension_instances| |].
  - intros e w5 (Hk5 & _ & _ & Hi5). apply wp_ret.
    unfold Inv. rewrite Hk5, Hi5, !lookup_insert_ne by done. done.
  - intros a w5 (Hk5 & [Hi5|(_ & e & _ & Hi5)]); unfold Inv; rewrite Hk5, Hi5.
    + done.
    + by rewrite !lookup_insert_ne by done.
Qed.

(** X11: a requirement that is not known.  When some requirement of [c] is
    neither known nor enabled, and [c] is not enabled, [enable_extension] of
    [c] raises, at any recursion limit and whatever else the host does; the
    known classes are as before, and neither [c] nor the requirement has a
    live instance afterwards. *)
Theorem enable_extension_missing_requirement env depth c r w :
  r ∈ cls_requirements (ext_class env c) →
  r ∉ _extension_classes w →
  _extension_instances w !! r = None →
  _extension_instances w !! c = None →
  ∃ w' e,
    enable_extension env depth c w = (w', Raise e)
    ∧ _extension_instances w' !! c = None
    ∧ _extension_instances w' !! r = None
    ∧ _extension_classes w' = _extension_classes w.
Proof.
  intros Hr Hrk Hrl Hcl.
  pose proof (enable_extension_missing env c r Hr depth c w Hrk Hrl Hcl) as H.
  pose proof (enable_extension_grows env depth c w) as Hg.
  unfold wp in H, Hg.
  destruct (enable_extension env depth c w) as [w' [a|e]].
  - by destruct H as (_ & ? & _).
  - exists w', e. destruct H as (_ & ? & ?), Hg as (? & _). done.
Qed.

Lemma enable_extension_missing_requirement_witness :
  ∃ w' e,
    enable_extension plain_env 10 "pkg.b.B" missing_requirement_world = (w', Raise e)
    ∧ _extension_instances w' !! "pkg.b.B" = None
    ∧ _extension_instances w' !! "pkg.a.A" = None
    ∧ _extension_classes w' = _extension_classes missing_requirement_world.
Proof.
  apply (enable_extension_missing_requirement plain_env 10 "pkg.b.B" "pkg.a.A").
  - by_compute.
  - by_compute.
  - vm_compute. reflexivity.
  - vm_compute. reflexivity.
Defined.

(** * What a call that returns has done *)

#[global] Instance trace_grows_preorder : PreOrder trace_grows.
Proof.
  split.
  - intros w. exists []. by rewrite app_nil_r.
  - intros w1 w2 w3 [t1 H1] [t2 H2]. exists (t1 ++ t2).
    by rewrite H2, H1, app_assoc.
Qed.

#[global] Instance registrations_kept_preorder : PreOrder registrations_kept.
Proof.
  split.
  - intros w. by repeat split.
  - intros w1 w2 w3 (? & ? & ?) (? & ? & ?).
    split; [congruence|]. split; [congruence|]. by etrans.
Qed.

Lemma trace_grows_same (f : World → World) w : trace (f w) = trace w → trace_grows w (f w).
Proof. intros H. exists []. by rewrite app_nil_r. Qed.

Lemma trace_grows_emit e w : trace_grows w (set_trace (λ t, t ++ [e]) w).
Proof. by exists [e]. Qed.

Ltac trace_grows_tac :=
  first [ apply trace_grows_emit | by apply trace_grows_same ].

Ltac registrations_kept_tac :=
  split; [done|split; [done|trace_grows_tac]].

Lemma trace_grows_create_hooks o points : preserves trace_grows (create_hooks o points).
Proof. induction points; simpl; unfold_steps; preserves_tac; trace_grows_tac. Qed.

Lemma trace_grows_init_extension env c : preserves trace_grows (_init_extension env c).
Proof.
  pose proof trace_grows_create_hooks. unfold_steps.
  preserves_tac; trace_grows_tac.
Qed.

Lemma trace_grows_install_extension env c :
  preserves trace_grows (_install_extension env c).
Proof. unfold_steps. preserves_tac; trace_grows_tac. Qed.

Lemma trace_grows_enable_extension env depth :
  ∀ c, preserves trace_grows (enable_extension env depth c).
Proof.
  induction depth as [|depth IH]; intros c; simpl.
  - unfold_steps. preserves_tac.
  - pose proof (trace_grows_install_extension env).
    pose proof (trace_grows_init_extension env).
    unfold update_registration, registration_save, get_registration.
    preserves_tac; trace_grows_tac.
Qed.

Lemma registrations_kept_create_hooks o points :
  preserves registrations_kept (create_hooks o points).
Proof. induction points; simpl; unfold_steps; preserves_tac; registrations_kept_tac. Qed.

Lemma registrations_kept_init_extension env c :
  preserves registrations_kept (_init_extension env c).
Proof.
  pose proof registrations_kept_create_hooks. unfold_steps.
  preserves_tac; registrations_kept_tac.
Qed.

Lemma wp_bind_skip {A B} (m : M A) (k : A → M B) Q w :
  (∀ a w', wp (k a) Q (λ _ _, True) w') → wp (bind m k) Q (λ _ _, True) w.
Proof. intros H. apply wp_bind. unfold wp at 1. destruct (m w) as [w' [a|e]]; auto. Qed.

Lemma wp_frame {A} (R : relation World) (m : M A) Q w :
  preserves R m →
  wp m Q (λ _ _, True) w →
  wp m (λ a w', Q a w' ∧ R w w') (λ _ _, True) w.
Proof.
  intros Hm H. specialize (Hm w). unfold wp in *.
  destruct (m w) as [w' [a|e]]; simpl in *; auto.
Qed.

Lemma wp_weaken {A} (m : M A) Q E w : wp m Q E w → wp m Q (λ _ _, True) w.
Proof. intros H. eapply wp_mono; [exact H|auto|auto]. Qed.

Lemma registrations_kept_Extension_init env c :
  preserves registrations_kept (Extension_init env c).
Proof.
  pose proof registrations_kept_create_hooks. unfold Extension_init.
  unfold_steps. preserves_tac; registrations_kept_tac.
Qed.

Lemma registrations_kept_install_admin_urls env e :
  preserves registrations_kept (_install_admin_urls env e).
Proof. unfold_steps. preserves_tac; registrations_kept_tac. Qed.

(** What [_init_extension] has done when it returns: the registrations are
    as they were; the info of the class says enabled, and installed as the
    registration does; the application is among the installed ones; and the
    last event is the notification that carries the instance returned. *)
Lemma _init_extension_notifies env c w :
  wp (_init_extension env c)
    (λ e w', cls_registration w' = cls_registration w
             ∧ objects w' = objects w
             ∧ ∃ r i t,
                 cls_registration w !! c = Some r
                 ∧ cls_info w' !! c = Some i
                 ∧ info_enabled i = true
                 ∧ info_installed i = reg_installed r
                 ∧ info_app_name i ∈ INSTALLED_APPS w'
                 ∧ trace w' = trace w ++ t ++ [extension_initialized c (ext_obj e)])
    (λ _ _, True) w.
Proof.
  unfold _init_extension. apply wp_bind, wp_gets.
  destruct (_extension_instances w !! c); [by apply wp_raise|].
  apply wp_bind.
  eapply wp_cut;
    [apply (preserves_wp registrations_kept), registrations_kept_Extension_init| |done].
  intros e w1 (Hr1 & Ho1 & t1 & Ht1). apply wp_bind, wp_modify, wp_bind.
  eapply wp_cut;
    [apply (preserves_wp registrations_kept
              (if cls_is_configurable (ext_class env c)
               then _install_admin_urls env e else ret e))| |done].
  { destruct (cls_is_configurable _);
      [apply registrations_kept_install_admin_urls|apply preserves_ret, _]. }
  intros e' w2 (Hr2 & Ho2 & t2 & Ht2).
  unfold get_registration. apply wp_bind, wp_bind, wp_gets, wp_attr.
  destruct (cls_registration w2 !! c) as [r|] eqn:Hr; [|done].
  unfold update_info at 1. unfold get_info at 1.
  apply wp_bind, wp_bind, wp_bind, wp_gets, wp_attr.
  destruct (cls_info w2 !! c) as [i|] eqn:Hi; [|done].
  apply wp_modify. apply wp_bind.
  eapply wp_update_info; [by wsimpl; rewrite lookup_insert_eq|].
  apply wp_bind.
  eapply wp_run; [apply _add_to_installed_apps_run; by wsimpl; rewrite lookup_insert_eq|].
  unfold _reset_templatetags_cache. apply wp_bind, wp_emit, wp_bind, wp_emit, wp_ret.
  wsimpl. wsimpl in Hr2. wsimpl in Ho2. wsimpl in Ht2.
  split; [congruence|]. split; [congruence|].
  exists r, (set_info_enabled true (set_info_installed (reg_installed r) i)),
    (t1 ++ t2 ++ [ev_add_to_installed_apps (info_app_name i);
                   ev_reset_templatetags_cache]).
  split; [congruence|].
  split; [by rewrite insert_insert_eq, lookup_insert_eq|].
  split; [done|]. split; [done|]. split.
  - simpl. case_bool_decide; [done|]. apply elem_of_app. right. by left.
  - rewrite Ht2, Ht1. by rewrite <-!app_assoc.
Qed.

(** When [_install_extension] returns, the registration of the class says
    installed, in memory and in the persisted row. *)
Lemma _install_extension_registered env c w :
  wp (_install_extension env c)
    (λ _ w', ∃ r, cls_registration w' !! c = Some r
                  ∧ reg_installed r = true
                  ∧ objects w' !! reg_class_name r = Some r)
    (λ _ _, True) w.
Proof.
  unfold _install_extension.
  do 9 (apply wp_bind_skip; intros ? ?).
  apply wp_bind_skip; intros ? w9.
  unfold update_registration, get_registration.
  apply wp_bind, wp_bind, wp_bind, wp_gets, wp_attr.
  destruct (cls_registration w9 !! c) as [r|] eqn:Hr; [|done].
  apply wp_modify.
  eapply wp_registration_save; [by wsimpl; rewrite lookup_insert_eq|].
  exists (set_reg_installed true r). wsimpl.
  by rewrite !lookup_insert_eq.
Qed.

Lemma enable_extension_returned env depth c w :
  wp (enable_extension env depth c)
    (λ res w',
       match res with
       | None => w' = w ∧ is_Some (_extension_instances w !! c)
       | Some e =>
           _extension_instances w !! c = None
           ∧ _extension_instances w' !! c = Some e
           ∧ ext_id e = c
           ∧ (∀ x, x ∈ cls_requirements (ext_class env c) →
                   is_Some (_extension_instances w' !! x))
           ∧ ∃ r i t,
               cls_registration w' !! c = Some r
               ∧ reg_enabled r = true ∧ reg_installed r = true
               ∧ objects w' !! reg_class_name r = Some r
               ∧ cls_info w' !! c = Some i
               ∧ info_enabled i = true ∧ info_installed i = true
               ∧ info_app_name i ∈ INSTALLED_APPS w'
               ∧ trace w' = trace w ++ t ++ [extension_initialized c (ext_obj e)]
       end)
    (λ _ _, True) w.
Proof.
  destruct depth as [|depth]; cbn [enable_extension]; [by apply wp_raise|].
  apply wp_bind, wp_gets.
  destruct (_extension_instances w !! c) as [e0|] eqn:Hc.
  { apply wp_ret. eauto. }
  apply wp_bind, wp_gets. case_bool_decide as Hk; [|by apply wp_raise].
  apply wp_bind.
  apply (wp_for_each
           (λ l w1, enable_grows w w1 ∧ trace_grows w w1
                    ∧ ∃ l0, cls_requirements (ext_class env c) = l0 ++ l
                            ∧ ∀ x, x ∈ l0 → is_Some (_extension_instances w1 !! x))).
  { split; [done|]. split; [done|]. exists []. split; [done|].
    by intros x ?%elem_of_nil. }
  { intros y rest w1 (Hg1 & Ht1 & l0 & Hl0 & Hlive). apply wp_bind.
    eapply wp_cut;
      [apply (wp_frame trace_grows); [apply trace_grows_enable_extension|];
       apply (wp_frame enable_grows);
         [intros w0; pose proof (enable_extension_grows env depth y w0) as H;
          unfold wp in H; by destruct (enable_extension env depth y w0) as [? [?|?]]|];
       apply enable_extension_result| |done].
    intros res w2 [[Hres Hg2] Ht2]. apply wp_ret.
    split; [by etrans|]. split; [by etrans|].
    exists (l0 ++ [y]). split; [by rewrite <-app_assoc|].
    intros x [Hx|Hx]%elem_of_app.
    2: apply list_elem_of_singleton in Hx; subst x.
    - destruct (Hlive x Hx) as [e He]. exists e. by apply Hg2.
    - destruct res as [e|]; [by eexists|]. by destruct Hres as [-> ?]. }
  intros w1 (Hg1 & Ht1 & l0 & Hl0 & Hlive). rewrite app_nil_r in Hl0. subst l0.
  apply wp_bind, wp_try_except.
  eapply wp_cut;
    [apply (wp_frame trace_grows); [apply trace_grows_install_extension|];
     apply (wp_frame (same runtime)); [apply same_runtime_install_extension|];
     apply _install_extension_registered| |].
  2: { intros e w2 _. by destruct e. }
  intros _ w2 [[(r & Hr & Hinst & Hrow) Hrt2] Ht2].
  apply wp_bind. eapply wp_update_registration; [done|].
  apply wp_bind. eapply wp_registration_save; [by wsimpl; rewrite lookup_insert_eq|].
  apply wp_bind.
  eapply wp_cut;
    [apply wp_and; [apply _init_extension_notifies|apply _init_extension_instances]
    | |done].
  intros e w5 [(Hr5 & Ho5 & r5 & i & t & Hr5' & Hi5 & Hen & Hin & Happ & Ht5)
               (Hk5 & _ & Hid & Hi5')].
  apply wp_ret. wsimpl in Hr5. wsimpl in Ho5. wsimpl in Hr5'. wsimpl in Ht5.
  wsimpl in Hi5'. rewrite lookup_insert_eq in Hr5'. injection Hr5' as <-.
  injection Hrt2 as Hi2 Hk2.
  split; [done|]. split; [by rewrite Hi5', lookup_insert_eq|]. split; [done|].
  split.
  { intros x Hx. rewrite Hi5'. destruct (decide (x = c)) as [->|].
    - rewrite lookup_insert_eq. by eexists.
    - rewrite lookup_insert_ne by done. rewrite Hi2. by apply Hlive. }
  destruct Ht1 as [t1 Ht1], Ht2 as [t2 Ht2].
  exists (set_reg_enabled true r), i,
    (t1 ++ t2 ++ [ev_save (set_reg_enabled true r)] ++ t).
  split; [by rewrite Hr5, lookup_insert_eq|].
  split; [done|]. split; [done|].
  split; [by rewrite Ho5; simpl; rewrite lookup_insert_eq|].
  split; [done|]. split; [done|]. split; [by rewrite Hin|]. split; [done|].
  rewrite Ht5, Ht2, Ht1. by rewrite <-!app_assoc.
Qed.

(** X12: what [enable_extension] has done when it returns an instance,
    whatever the world it was called in.  The id had no live instance; the
    instance returned is now its live instance, stored under its id; every
    requirement of the class is enabled, and the extensions that were
    enabled still are, with the same instances; the known classes are the
    same; the registration says enabled and installed, in memory and in the
    persisted row; the info says enabled and installed; the application is
    among the installed ones; and the last event is the
    [extension_initialized] notification of the instance. *)
Theorem enable_extension_returns env depth c w w' (extension : Extension) :
  enable_extension env depth c w = (w', Return (Some extension)) →
  get_enabled_extension c w = None
  ∧ get_enabled_extension c w' = Some extension
  ∧ ext_id extension = c
  ∧ (∀ x, x ∈ cls_requirements (ext_class env c) →
          is_Some (get_enabled_extension x w'))
  ∧ (∀ y e, get_enabled_extension y w = Some e →
            get_enabled_extension y w' = Some e)
  ∧ _extension_classes w' = _extension_classes w
  ∧ ∃ r i t,
      cls_registration w' !! c = Some r
      ∧ reg_enabled r = true ∧ reg_installed r = true
      ∧ objects w' !! reg_class_name r = Some r
      ∧ cls_info w' !! c = Some i
      ∧ info_enabled i = true ∧ info_installed i = true
      ∧ info_app_name i ∈ INSTALLED_APPS w'
      ∧ trace w' = trace w ++ t ++ [extension_initialized c (ext_obj extension)].
Proof.
  intros Hrun.
  pose proof (enable_extension_returned env depth c w) as H.
  pose proof (enable_extension_grows env depth c w) as Hg.
  unfold wp in H, Hg. rewrite Hrun in H, Hg.
  destruct H as (Hn & Hl & Hid & Hreq & Hrest), Hg as (Hk & Hkeep & _).
  unfold get_enabled_extension. repeat split; auto.
Qed.

Lemma enable_extension_returns_witness :
  get_enabled_extension "pkg.b.B" discovered_world = None
  ∧ get_enabled_extension "pkg.b.B" enabled_world = Some enabled_B
  ∧ ext_id enabled_B = "pkg.b.B"
  ∧ (∀ x, x ∈ cls_requirements (ext_class plain_env "pkg.b.B") →
          is_Some (get_enabled_extension x enabled_world))
  ∧ (∀ y e, get_enabled_extension y discovered_world = Some e →
            get_enabled_extension y enabled_world = Some e)
  ∧ _extension_classes enabled_world = _extension_classes discovered_world
  ∧ ∃ r i t,
      cls_registration enabled_world !! "pkg.b.B" = Some r
      ∧ reg_enabled r = true ∧ reg_installed r = true
      ∧ objects enabled_world !! reg_class_name r = Some r
      ∧ cls_info enabled_world !! "pkg.b.B" = Some i
      ∧ info_enabled i = true ∧ info_installed i = true
      ∧ info_app_name i ∈ INSTALLED_APPS enabled_world
      ∧ trace enabled_world
        = trace discovered_world ++ t
            ++ [extension_initialized "pkg.b.B" (ext_obj enabled_B)].
Proof.
  apply (enable_extension_returns plain_env 10 "pkg.b.B" discovered_world
           enabled_world enabled_B).
  vm_compute. reflexivity.
Defined.

#[global] Instance instances_shrink_preorder : PreOrder instances_shrink.
Proof.
  split; [by intros w y e|]. intros w1 w2 w3 H1 H2. by eapply instances_shrink_trans.
Qed.

Lemma instances_shrink_set (f : World → World) w :
  _extension_instances (f w) = _extension_instances w → instances_shrink w (f w).
Proof. intros H y e. by rewrite H. Qed.

Lemma instances_shrink_delete c w :
  instances_shrink w (set_extension_instances (delete c) w).
Proof. intros y e. wsimpl. by intros [_ ?]%lookup_delete_Some. Qed.

Ltac instances_shrink_tac :=
  first [ apply instances_shrink_delete | by apply instances_shrink_set ].

Lemma instances_shrink_uninit_extension e :
  preserves instances_shrink (_uninit_extension e).
Proof. unfold_steps. preserves_tac; instances_shrink_tac. Qed.

(** [disable_extension] makes no instance, whatever it meets. *)
Lemma instances_shrink_disable_extension depth :
  ∀ c, preserves instances_shrink (disable_extension depth c).
Proof.
  induction depth as [|depth IH]; intros c; simpl.
  - unfold_steps. preserves_tac.
  - pose proof (preserves_get_dependent_extensions instances_shrink).
    pose proof instances_shrink_uninit_extension.
    unfold _uninstall_extension, rmtree, update_registration, registration_save,
      get_registration, get_info.
    preserves_tac; instances_shrink_tac.
Qed.

Lemma trace_grows_uninit_extension e : preserves trace_grows (_uninit_extension e).
Proof. unfold_steps. preserves_tac; trace_grows_tac. Qed.

Lemma trace_grows_disable_extension depth :
  ∀ c, preserves trace_grows (disable_extension depth c).
Proof.
  induction depth as [|depth IH]; intros c; simpl.
  - unfold_steps. preserves_tac.
  - pose proof (preserves_get_dependent_extensions trace_grows).
    pose proof trace_grows_uninit_extension.
    unfold _uninstall_extension, rmtree, update_registration, registration_save,
      get_registration, get_info.
    preserves_tac; trace_grows_tac.
Qed.

(** When [_uninit_extension] returns, the id of the instance has no live
    instance, and the notification of the instance was sent. *)
Lemma _uninit_extension_returned e w :
  wp (_uninit_extension e)
    (λ _ w', _extension_instances w' !! ext_id e = None
             ∧ ∃ t, trace w' = trace w ++ t
                    ∧ extension_uninitialized (ext_id e) (ext_obj e) ∈ t)
    (λ _ _, True) w.
Proof.
  unfold _uninit_extension.
  match goal with |- wp (bind ?m1 (λ _, bind ?m2 (λ _, bind ?m3 (λ _, bind ?m4
                            (λ _, bind ?m5 ?k))))) _ _ _ =>
    assert (preserves trace_grows m1 ∧ preserves trace_grows m2
            ∧ preserves trace_grows m3 ∧ preserves trace_grows m4
            ∧ preserves trace_grows m5) as (P1 & P2 & P3 & P4 & P5)
  end.
  { repeat split; unfold_steps; preserves_tac; trace_grows_tac. }
  apply wp_bind. eapply wp_cut; [apply (preserves_wp trace_grows), P1| |done].
  intros ? w1 H1. apply wp_bind.
  eapply wp_cut; [apply (preserves_wp trace_grows), P2| |done].
  intros ? w2 H2. apply wp_bind.
  eapply wp_cut; [apply (preserves_wp trace_grows), P3| |done].
  intros ? w3 H3. apply wp_bind.
  eapply wp_cut; [apply (preserves_wp trace_grows), P4| |done].
  intros ? w4 H4. apply wp_bind.
  eapply wp_cut; [apply (preserves_wp trace_grows), P5| |done].
  intros ? w5 H5. apply wp_bind, wp_emit, wp_bind, wp_gets.
  destruct (_extension_instances _ !! ext_id e) eqn:He; [|apply wp_raise; exact I].
  apply wp_bind, wp_modify, wp_emit. wsimpl. split; [apply lookup_delete_eq|].
  assert (trace_grows w w5) as [t Ht].
  { simpl in *. etrans; [exact H1|]. etrans; [exact H2|]. etrans; [exact H3|].
    etrans; [exact H4|exact H5]. }
  exists (t ++ [extension_uninitialized (ext_id e) (ext_obj e);
                ev_del_instance (ext_id e)]).
  split.
  - rewrite Ht. by rewrite <-!app_assoc.
  - apply elem_of_app. right. by left.
Qed.

Lemma trace_grows_uninstall_extension e : preserves trace_grows (_uninstall_extension e).
Proof. unfold_steps. preserves_tac; trace_grows_tac. Qed.

Lemma disable_extension_returned depth c w :
  (∀ e, _extension_instances w !! c = Some e → ext_id e = c) →
  wp (disable_extension depth c)
    (λ _ w',
       match _extension_instances w !! c with
       | None => w' = w
       | Some e =>
           _extension_instances w' !! c = None
           ∧ ∃ r t,
               cls_registration w' !! c = Some r
               ∧ reg_enabled r = false
               ∧ objects w' !! reg_class_name r = Some r
               ∧ trace w' = trace w ++ t ++ [ev_save r]
               ∧ extension_uninitialized c (ext_obj e) ∈ t
       end)
    (λ _ _, True) w.
Proof.
  intros Hid. destruct depth as [|depth]; cbn [disable_extension];
    [by apply wp_raise|].
  apply wp_bind, wp_gets.
  destruct (_extension_instances w !! c) as [e|] eqn:Hc; [|by apply wp_ret].
  specialize (Hid e eq_refl).
  apply wp_bind, wp_gets. case_bool_decide as Hk; [|by apply wp_raise].
  apply wp_bind.
  eapply wp_cut;
    [apply (preserves_wp trace_grows), preserves_get_dependent_extensions, _| |done].
  intros dependents w1 H1. apply wp_bind.
  eapply wp_cut;
    [apply (preserves_wp trace_grows), preserves_for_each;
       [apply _|apply trace_grows_disable_extension]| |done].
  intros ? w2 H2. apply wp_bind.
  eapply wp_cut;
    [apply (preserves_wp trace_grows), trace_grows_uninstall_extension| |done].
  intros ? w3 H3. apply wp_bind.
  eapply wp_cut; [apply _uninit_extension_returned| |done].
  intros ? w4 (Hn & t4 & Ht4 & Hin). rewrite Hid in *.
  unfold update_registration, get_registration.
  apply wp_bind, wp_bind, wp_bind, wp_gets, wp_attr.
  destruct (cls_registration w4 !! c) as [r|] eqn:Hr; [|done].
  apply wp_modify.
  eapply wp_registration_save; [by wsimpl; rewrite lookup_insert_eq|].
  wsimpl. split; [done|].
  assert (trace_grows w w3) as [t3 Ht3].
  { simpl in *. etrans; [exact H1|]. etrans; [exact H2|exact H3]. }
  exists (set_reg_enabled false r), (t3 ++ t4).
  split; [by rewrite lookup_insert_eq|]. split; [done|].
  split; [by simpl; rewrite lookup_insert_eq|]. split.
  - rewrite Ht4, Ht3. by rewrite <-!app_assoc.
  - apply elem_of_app. by right.
Qed.

(** X13: what [disable_extension] has done when it returns, for an id whose
    live instance, if it has one, is stored under its own id, as the live
    instances of a manager are.  The id has no live instance; no instance
    was made, so the extensions enabled afterwards were enabled before, with
    the same instances; the known classes are the same, so the id can be
    enabled again.  When the id was not enabled nothing has changed at all;
    when it was, its [extension_uninitialized] notification was sent, the
    registration says not enabled, in memory and in the persisted row, and
    saving it was the last step. *)
Theorem disable_extension_returns depth c w w' :
  (∀ e, get_enabled_extension c w = Some e → ext_id e = c) →
  disable_extension depth c w = (w', Return tt) →
  get_enabled_extension c w' = None
  ∧ (∀ y e, get_enabled_extension y w' = Some e →
            get_enabled_extension y w = Some e)
  ∧ _extension_classes w' = _extension_classes w
  ∧ match get_enabled_extension c w with
    | None => w' = w
    | Some e =>
        ∃ r t,
          cls_registration w' !! c = Some r
          ∧ reg_enabled r = false
          ∧ objects w' !! reg_class_name r = Some r
          ∧ trace w' = trace w ++ t ++ [ev_save r]
          ∧ extension_uninitialized c (ext_obj e) ∈ t
    end.
Proof.
  unfold get_enabled_extension. intros Hid Hrun.
  pose proof (disable_extension_returned depth c w Hid) as H.
  pose proof (instances_shrink_disable_extension depth c w) as Hs.
  pose proof (same_classes_disable_extension depth c w) as Hk.
  unfold wp in H. rewrite Hrun in H, Hs, Hk. simpl in Hs, Hk.
  destruct (_extension_instances w !! c) as [e|] eqn:Hc.
  - destruct H as [Hn Hrest]. done.
  - subst w'. done.
Qed.

Lemma disable_extension_returns_witness :
  get_enabled_extension "pkg.b.B" (disable_extension 5 "pkg.b.B" enabled_world).1
  = None
  ∧ (∀ y e, get_enabled_extension y (disable_extension 5 "pkg.b.B" enabled_world).1
            = Some e →
            get_enabled_extension y enabled_world = Some e)
  ∧ _extension_classes (disable_extension 5 "pkg.b.B" enabled_world).1
    = _extension_classes enabled_world
  ∧ match get_enabled_extension "pkg.b.B" enabled_world with
    | None => (disable_extension 5 "pkg.b.B" enabled_world).1 = enabled_world
    | Some e =>
        ∃ r t,
          cls_registration (disable_extension 5 "pkg.b.B" enabled_world).1
            !! "pkg.b.B" = Some r
          ∧ reg_enabled r = false
          ∧ objects (disable_extension 5 "pkg.b.B" enabled_world).1
              !! reg_class_name r = Some r
          ∧ trace (disable_extension 5 "pkg.b.B" enabled_world).1
            = trace enabled_world ++ t ++ [ev_save r]
          ∧ extension_uninitialized "pkg.b.B" (ext_obj e) ∈ t
    end.
Proof.
  apply (disable_extension_returns 5 "pkg.b.B" enabled_world).
  - intros e He. vm_compute in He. injection He as <-. reflexivity.
  - vm_compute. reflexivity.
Defined.

(** * The consistency of the manager *)

Section same_live_state.
Let R := same live_state.

Lemma same_live_state_update_registration c f : preserves R (update_registration c f).
Proof. unfold_steps. preserves_tac. done. Qed.

Lemma same_live_state_update_info c f : preserves R (update_info c f).
Proof. unfold_steps. preserves_tac. done. Qed.

Lemma same_live_state_registration_save c : preserves R (registration_save c).
Proof. unfold_steps. preserves_tac; done. Qed.

Lemma same_live_state_get_registration c : preserves R (get_registration c).
Proof. unfold_steps. preserves_tac. Qed.

Lemma same_live_state_map_installed l :
  preserves R (map_calls get_installed_extension l).
Proof. unfold_steps. preserves_tac. Qed.
End same_live_state.

#[global] Instance keeps_own_id_preorder : PreOrder keeps_own_id.
Proof.
  split; [intros w H; exact H|]. intros w1 w2 w3 H1 H2 H. apply H2, H1, H.
Qed.

#[global] Instance keeps_consistent_preorder : PreOrder keeps_consistent.
Proof.
  split; [intros w H; exact H|]. intros w1 w2 w3 H1 H2 H. apply H2, H1, H.
Qed.

#[global] Instance keeps_consistent_with_preorder c : PreOrder (keeps_consistent_with c).
Proof.
  split; [intros w H; exact H|]. intros w1 w2 w3 H1 H2 H. apply H2, H1, H.
Qed.

Lemma keeps_own_id_of_same {A} (m : M A) :
  preserves (same runtime) m → preserves keeps_own_id m.
Proof.
  intros Hm w H c e. pose proof (f_equal fst (Hm w)) as Hi. simpl in Hi.
  rewrite Hi. apply H.
Qed.

(** An instance that [_init_extension] stores is stored under the id of its
    class, whatever the call meets afterwards. *)
Lemma _init_extension_own_id env c : preserves keeps_own_id (_init_extension env c).
Proof.
  intros w H. pose proof (_init_extension_instances env c w) as Hi.
  unfold wp in Hi.
  assert (∀ w' e, ext_id e = c →
                  _extension_instances w' = <[c := e]> (_extension_instances w) →
                  stored_under_own_id w') as Hins.
  { intros w' e He Hw' y ey. rewrite Hw'.
    destruct (decide (y = c)) as [->|Hne].
    - rewrite lookup_insert_eq. by intros [= <-].
    - rewrite lookup_insert_ne by done. apply H. }
  destruct (_init_extension env c w) as [w' [e|x]]; simpl.
  - destruct Hi as (_ & _ & He & Hw'). by eapply Hins.
  - destruct Hi as (_ & [Hw'|(_ & e & He & Hw')]).
    + intros y ey. rewrite Hw'. apply H.
    + by eapply Hins.
Qed.

Lemma enable_extension_own_id env depth :
  ∀ c, preserves keeps_own_id (enable_extension env depth c).
Proof.
  induction depth as [|depth IH]; intros c; simpl.
  - unfold RECURSION_LIMIT. preserves_tac.
  - pose proof (keeps_own_id_of_same _ (same_runtime_install_extension env c)).
    pose proof (λ f, keeps_own_id_of_same _ (same_runtime_update_registration c f)).
    pose proof (keeps_own_id_of_same _ (same_runtime_registration_save c)).
    pose proof (_init_extension_own_id env c).
    preserves_tac; done.
Qed.

Lemma stored_under_own_id_shrink w w' :
  instances_shrink w w' → stored_under_own_id w → stored_under_own_id w'.
Proof. intros Hs H c e He. by apply H, Hs. Qed.

Lemma manager_consistent_same w w' :
  live_state w' = live_state w → manager_consistent w → manager_consistent w'.
Proof.
  intros Hs [Hc Hl].
  pose proof (f_equal fst Hs) as Hh. pose proof (f_equal snd Hs) as Hk.
  simpl in Hh, Hk. injection Hh as Hi _ _. split.
  - intros c e. rewrite Hi. apply Hc.
  - intros c. rewrite Hi, Hk. apply Hl.
Qed.

Lemma keeps_consistent_of_same {A} (m : M A) :
  preserves (same live_state) m → preserves keeps_consistent m.
Proof. intros Hm w H. eapply manager_consistent_same; [apply Hm|done]. Qed.

Lemma keeps_consistent_with_of_same {A} c (m : M A) :
  preserves (same live_state) m → preserves (keeps_consistent_with c) m.
Proof.
  intros Hm w [H Hc]. pose proof (Hm w) as Hs. split.
  - by eapply manager_consistent_same.
  - pose proof (f_equal snd Hs) as Hk. simpl in Hk. by rewrite Hk.
Qed.

Lemma keeps_consistent_set (f : World → World) w :
  live_state (f w) = live_state w → keeps_consistent w (f w).
Proof. intros Hs H. by eapply manager_consistent_same. Qed.

Lemma keeps_consistent_with_set c (f : World → World) w :
  live_state (f w) = live_state w → keeps_consistent_with c w (f w).
Proof.
  intros Hs [H Hc]. split; [by eapply manager_consistent_same|].
  pose proof (f_equal snd Hs) as Hk. simpl in Hk. by rewrite Hk.
Qed.

Lemma live_known_grows w w' : enable_grows w w' → live_known w → live_known w'.
Proof.
  intros (Hk & _ & Hn) Hl c Hc. rewrite Hk.
  destruct (Hn c Hc); auto.
Qed.

Lemma enable_extension_consistent env depth c :
  preserves keeps_consistent (enable_extension env depth c).
Proof.
  intros w [Hc Hl]. split.
  - by apply enable_extension_own_id.
  - pose proof (enable_extension_grows env depth c w) as Hg. unfold wp in Hg.
    destruct (enable_extension env depth c w) as [w' [a|e]];
      by eapply live_known_grows.
Qed.

Lemma disable_extension_consistent depth c :
  preserves keeps_consistent (disable_extension depth c).
Proof.
  intros w [Hc Hl].
  pose proof (instances_shrink_disable_extension depth c w) as Hs.
  pose proof (same_classes_disable_extension depth c w) as Hk.
  unfold same in Hk. split; [by eapply stored_under_own_id_shrink|].
  intros y [e Hy]. rewrite Hk. apply Hl. exists e. by apply Hs.
Qed.

Lemma _init_extension_consistent env c :
  preserves (keeps_consistent_with c) (_init_extension env c).
Proof.
  intros w [[Hc Hl] Hk].
  pose proof (_init_extension_own_id env c w Hc) as Hc'.
  pose proof (_init_extension_grows env c w Hk) as Hg. unfold wp in Hg.
  assert (enable_grows w (_init_extension env c w).1) as Hg'.
  { destruct (_init_extension env c w) as [w' [a|e]]; simpl; tauto. }
  split; [split; [done|by eapply live_known_grows]|].
  destruct Hg' as [-> _]. done.
Qed.

Lemma load_entrypoint_consistent env registered found entrypoint :
  preserves keeps_consistent (load_entrypoint env registered found entrypoint).
Proof.
  intros w H.
  cut (wp (load_entrypoint env registered found entrypoint)
         (λ _ w', manager_consistent w') (λ _ w', manager_consistent w') w).
  { unfold wp. by destruct (load_entrypoint _ _ _ _ w) as [w' [a|e]]. }
  unfold load_entrypoint. destruct (ep_load entrypoint) as [c|].
  2: { apply wp_bind, wp_emit, wp_ret. by eapply manager_consistent_same. }
  apply wp_bind, wp_gets, wp_bind.
  apply (wp_cut (λ _ w1, manager_consistent w1) (λ _ _, False)).
  { destruct (cls_info w !! c); [by apply wp_ret|].
    apply wp_modify. by eapply manager_consistent_same. }
  2: done.
  intros _ w1 [Hc1 Hl1]. apply wp_bind, wp_modify.
  match goal with |- wp ?m _ _ ?w3 =>
    assert (preserves (keeps_consistent_with c) m) as Hrest;
    [|assert (manager_consistent w3 ∧ c ∈ _extension_classes w3) as H3]
  end.
  - pose proof (preserves_get_registration (keeps_consistent_with c)).
    pose proof (_init_extension_consistent env c).
    preserves_tac; by apply keeps_consistent_with_set.
  - split; [split|].
    + intros y e. wsimpl. apply Hc1.
    + intros y Hy. wsimpl. apply elem_of_dict_setitem. right. by apply Hl1.
    + wsimpl. apply elem_of_dict_setitem. by left.
  - eapply wp_cut; [apply (preserves_wp (keeps_consistent_with c)), Hrest| |];
      intros ? w' Hw'; by apply Hw'.
Qed.

Lemma load_entrypoints_consistent env registered entrypoints :
  ∀ found,
    preserves keeps_consistent (load_entrypoints env registered found entrypoints).
Proof.
  induction entrypoints as [|ep eps IH]; intros found; simpl.
  - preserves_tac.
  - pose proof (load_entrypoint_consistent env registered). preserves_tac.
Qed.

Lemma load_reconcile_consistent env depth found size items :
  ∀ w, manager_consistent w →
       wp (load_reconcile env depth found size items)
         (λ _ w', manager_consistent w') (λ _ w', manager_consistent w') w.
Proof.
  induction items as [|c items IH]; intros w H; simpl.
  { apply wp_bind, wp_gets. case_bool_decide; [by apply wp_ret|by apply wp_raise]. }
  apply wp_bind, wp_gets. case_bool_decide; [|by apply wp_raise].
  apply wp_bind.
  apply (wp_cut (λ _ w1, manager_consistent w1) (λ _ w1, manager_consistent w1));
    [|intros _ w1 Hw1; by apply IH|done].
  case_bool_decide.
  - apply (wp_cut (λ _ w1, keeps_consistent w w1) (λ _ w1, keeps_consistent w w1));
      [|intros ? w1 Hw1; by apply Hw1|intros ? w1 Hw1; by apply Hw1].
    apply (preserves_wp keeps_consistent).
    pose proof (λ l, keeps_consistent_of_same _ (same_live_state_map_installed l)).
    pose proof (λ c f, keeps_consistent_of_same _ (same_live_state_update_info c f)).
    preserves_tac.
  - apply wp_bind, wp_gets, wp_bind.
    apply (wp_cut (λ _ w1, manager_consistent w1
                           ∧ _extension_instances w1 !! c = None)
                  (λ _ w1, manager_consistent w1)); [| |done].
    + destruct (_extension_instances w !! c) as [e|] eqn:He; [|by apply wp_ret].
      pose proof (disable_extension_consistent depth c w H) as Hk.
      pose proof (disable_extension_returned depth c w) as Hd.
      unfold wp in *. rewrite He in Hd.
      destruct (disable_extension depth c w) as [w1 [a|x]]; simpl in *; [|done].
      split; [done|]. apply Hd. intros e' [= <-]. by apply H.
    + intros _ w1 [[Hc1 Hl1] Hn]. apply wp_modify. split.
      * intros y e. wsimpl. apply Hc1.
      * intros y Hy. wsimpl. apply elem_of_dict_delitem. split; [|by apply Hl1].
        intros ->. wsimpl in Hy. rewrite Hn in Hy. by destruct Hy.
Qed.

Lemma load_consistent env depth entrypoints :
  preserves keeps_consistent (load env depth entrypoints).
Proof.
  intros w H.
  cut (wp (load env depth entrypoints)
         (λ _ w', manager_consistent w') (λ _ w', manager_consistent w') w).
  { unfold wp. by destruct (load env depth entrypoints w) as [w' [a|e]]. }
  unfold load. apply wp_bind, wp_gets, wp_bind.
  eapply wp_cut;
    [apply (preserves_wp keeps_consistent), load_entrypoints_consistent| |].
  - intros found w1 H1. apply wp_bind, wp_gets.
    apply load_reconcile_consistent. by apply H1.
  - intros x w1 H1. by apply H1.
Qed.

Lemma manager_consistent_init : manager_consistent ExtensionManager_init.
Proof. split; [by intros c e|]. by intros c [e He]. Qed.

Lemma manager_consistent_run env depth ops :
  ∀ w, manager_consistent w → manager_consistent (run_operations env depth ops w).
Proof.
  unfold run_operations.
  induction ops as [|o ops IH]; intros w Hw; [done|]. simpl. apply IH.
  destruct o; simpl.
  - by apply load_consistent.
  - by apply enable_extension_consistent.
  - by apply disable_extension_consistent.
Qed.

(** X14: enabled extensions are installed extensions.  In every world that
    a sequence of [load], [enable_extension] and [disable_extension] calls
    reaches from a new manager, whatever the calls met, each extension that
    [get_enabled_extensions] lists is the live instance stored under its own
    id, and this id is one that [get_installed_extensions] lists: for it
    [get_installed_extension] returns and does not raise
    [InvalidExtensionError], so [disable_extension] never takes its exit for
    an enabled id without a known class. *)
Theorem enabled_extensions_are_installed env depth ops (extension : Extension) :
  extension ∈ get_enabled_extensions
                (run_operations env depth ops ExtensionManager_init) →
  get_enabled_extension (ext_id extension)
    (run_operations env depth ops ExtensionManager_init) = Some extension
  ∧ ext_id extension ∈ get_installed_extensions
                         (run_operations env depth ops ExtensionManager_init)
  ∧ get_installed_extension (ext_id extension)
      (run_operations env depth ops ExtensionManager_init)
    = (run_operations env depth ops ExtensionManager_init,
       Return (ext_id extension)).
Proof.
  set (w := run_operations env depth ops ExtensionManager_init).
  destruct (manager_consistent_run env depth ops _ manager_consistent_init)
    as [Hc Hl]. fold w in Hc, Hl.
  unfold get_enabled_extensions.
  intros ([c e] & -> & He%elem_of_map_to_list)%list_elem_of_fmap. simpl.
  rewrite (Hc c e He).
  assert (c ∈ _extension_classes w) as Hk by (apply Hl; eauto).
  split; [done|]. split; [done|].
  unfold get_installed_extension, bind, gets.
  by rewrite bool_decide_eq_true_2.
Qed.

Lemma enabled_extensions_are_installed_witness :
  get_enabled_extension (ext_id enabled_B)
    (run_operations plain_env 10
       [op_load two_entrypoints; op_enable "pkg.b.B"] ExtensionManager_init)
  = Some enabled_B
  ∧ ext_id enabled_B
    ∈ get_installed_extensions
        (run_operations plain_env 10
           [op_load two_entrypoints; op_enable "pkg.b.B"] ExtensionManager_init)
  ∧ get_installed_extension (ext_id enabled_B)
      (run_operations plain_env 10
         [op_load two_entrypoints; op_enable "pkg.b.B"] ExtensionManager_init)
    = (run_operations plain_env 10
         [op_load two_entrypoints; op_enable "pkg.b.B"] ExtensionManager_init,
       Return (ext_id enabled_B)).
Proof.
  apply (enabled_extensions_are_installed plain_env 10
           [op_load two_entrypoints; op_enable "pkg.b.B"] enabled_B).
  by_compute.
Defined.

(** * What a discovery that returns has done *)

Lemma found_loaded_same found w w' :
  registered_state w' = registered_state w → found_loaded found w → found_loaded found w'.
Proof.
  intros Hs H z Hz. pose proof (f_equal fst Hs) as Hrt. simpl in Hrt.
  pose proof (f_equal snd Hs) as Hr. simpl in Hr.
  injection Hrt as Hi Hk. rewrite Hi, Hk, Hr. by apply H.
Qed.

Lemma load_entrypoint_returned env registered found ep w :
  found_loaded found w →
  wp (load_entrypoint env registered found ep)
    (λ found' w', found_loaded found' w'
                  ∧ ∀ z, z ∈ found' ↔ z ∈ found ∨ ep_load ep = Some z)
    (λ _ _, True) w.
Proof.
  intros HJ. unfold load_entrypoint. destruct (ep_load ep) as [c|].
  2: { apply wp_bind, wp_emit, wp_ret. split; [by eapply found_loaded_same|].
       intros z. split; [auto|]. by intros [?|?]. }
  apply wp_bind, wp_gets, wp_bind.
  apply (wp_cut (λ _ w1, registered_state w1 = registered_state w) (λ _ _, True));
    [| |done].
  { destruct (cls_info w !! c); [by apply wp_ret|by apply wp_modify]. }
  intros ? w1 H1. apply wp_bind, wp_modify.
  pose proof (f_equal fst H1) as Hrt1. pose proof (f_equal snd H1) as Hr1.
  simpl in Hrt1, Hr1. injection Hrt1 as Hi1 Hk1.
  set (w2 := set_extension_classes (dict_setitem c) w1).
  assert (cls_registration w2 = cls_registration w) as Hr2 by done.
  assert (_extension_instances w2 = _extension_instances w) as Hi2 by done.
  assert (_extension_classes w2 = dict_setitem c (_extension_classes w)) as Hk2.
  { unfold w2. wsimpl. by rewrite Hk1. }
  clearbody w2. clear H1 Hr1 Hi1 Hk1.
  apply wp_bind, wp_gets, wp_bind.
  apply (wp_cut
           (λ _ w3, (∃ rc, cls_registration w3 !! c = Some rc)
                    ∧ (∀ z r, cls_registration w !! z = Some r →
                              cls_registration w3 !! z = Some r)
                    ∧ _extension_instances w3 = _extension_instances w
                    ∧ _extension_classes w3 = dict_setitem c (_extension_classes w))
           (λ _ _, True)); [| |done].
  { rewrite Hr2.
    destruct (cls_registration w !! c) as [r|] eqn:Hr.
    - apply wp_ret. rewrite Hr2. eauto.
    - assert (∀ rc w2',
                cls_registration w2' = cls_registration w →
                _extension_instances w2' = _extension_instances w →
                _extension_classes w2' = dict_setitem c (_extension_classes w) →
                wp (modify (set_cls_registration (<[c := rc]>)))
                  (λ _ w3, (∃ rc, cls_registration w3 !! c = Some rc)
                           ∧ (∀ z r, cls_registration w !! z = Some r →
                                     cls_registration w3 !! z = Some r)
                           ∧ _extension_instances w3 = _extension_instances w
                           ∧ _extension_classes w3
                             = dict_setitem c (_extension_classes w))
                  (λ _ _, True) w2') as Hins.
      { intros rc w2' Hr2' Hi2' Hk2'. apply wp_modify. wsimpl. rewrite Hr2'.
        split; [rewrite lookup_insert_eq; eauto|]. split; [|done].
        intros z r Hz. rewrite lookup_insert_ne; [done|]. congruence. }
      apply wp_bind. destruct (registered !! c) as [r|].
      + apply wp_ret. by apply Hins.
      + apply wp_bind, wp_gets. destruct (objects _ !! c) as [r|].
        * apply wp_ret. by apply Hins.
        * apply wp_bind, wp_modify, wp_bind, wp_emit, wp_ret.
          by apply Hins. }
  intros ? w3 ([rc Hrc] & Hext & Hi3 & Hk3).
  unfold get_registration. apply wp_bind, wp_bind, wp_gets, wp_attr. rewrite Hrc.
  apply wp_bind, wp_gets, wp_bind.
  apply (wp_cut
           (λ _ w4, cls_registration w4 = cls_registration w3
                    ∧ _extension_classes w4 = _extension_classes w3
                    ∧ (∀ y, is_Some (_extension_instances w3 !! y) →
                            is_Some (_extension_instances w4 !! y))
                    ∧ (reg_enabled rc = true →
                       is_Some (_extension_instances w4 !! c)))
           (λ _ _, True)); [| |done].
  { destruct (reg_enabled rc) eqn:Hen;
      [destruct (_extension_instances w3 !! c) as [e|] eqn:He|].
    - apply wp_ret. rewrite He. eauto.
    - apply wp_bind.
      eapply wp_cut;
        [apply wp_and;
           [apply _init_extension_notifies|apply _init_extension_instances]
        | |done].
      intros e w4 [(Hr4 & _) (Hk4 & _ & _ & Hi4)]. apply wp_ret.
      split; [done|]. split; [done|]. rewrite Hi4. split.
      + intros y Hy. destruct (decide (y = c)) as [->|];
          [by rewrite lookup_insert_eq|by rewrite lookup_insert_ne].
      + intros _. by rewrite lookup_insert_eq.
    - apply wp_ret. by repeat split. }
  intros ? w4 (Hr4 & Hk4 & Hgrow & Hlive). apply wp_ret.
  split; [|intros z; rewrite elem_of_dict_setitem; split;
             [intros [->|?]; auto|intros [?|[= ->]]; auto]].
  intros z [->|Hz]%elem_of_dict_setitem.
  - rewrite Hk4, Hk3, Hr4. split; [apply elem_of_dict_setitem; by left|]. eauto.
  - destruct (HJ z Hz) as (Hzk & r & Hzr & Hzl).
    rewrite Hk4, Hk3, Hr4. split; [apply elem_of_dict_setitem; by right|].
    exists r. split; [by apply Hext|].
    intros Hen. apply Hgrow. rewrite Hi3. by apply Hzl.
Qed.

Lemma load_entrypoints_returned env registered entrypoints :
  ∀ found w,
    found_loaded found w →
    wp (load_entrypoints env registered found entrypoints)
      (λ found' w',
         found_loaded found' w'
         ∧ ∀ z, z ∈ found' ↔
                z ∈ found ∨ ∃ ep, ep ∈ entrypoints ∧ ep_load ep = Some z)
      (λ _ _, True) w.
Proof.
  induction entrypoints as [|ep eps IH]; intros found w HJ; simpl.
  - apply wp_ret. split; [done|]. intros z. split; [auto|].
    intros [?|(ep & ?%elem_of_nil & _)]; done.
  - apply wp_bind.
    eapply wp_cut; [by apply load_entrypoint_returned| |done].
    intros found1 w1 [HJ1 Hf1].
    eapply wp_cut; [by apply IH| |done].
    intros found2 w2 [HJ2 Hf2]. split; [done|].
    intros z. rewrite Hf2, Hf1. split.
    + intros [[?|?]|(ep' & ? & ?)]; [by left| |].
      * right. exists ep. split; [by left|done].
      * right. exists ep'. split; [by right|done].
    + intros [?|(ep' & [->|?]%elem_of_cons & ?)]; [by left; left|by left; right|].
      right. by exists ep'.
Qed.

Lemma map_installed_returned l w :
  wp (map_calls get_installed_extension l)
    (λ res w', w' = w ∧ res = l ∧ ∀ r, r ∈ l → r ∈ _extension_classes w)
    (λ _ _, True) w.
Proof.
  induction l as [|x l IH]; simpl.
  - apply wp_ret. split; [done|]. split; [done|]. by intros r ?%elem_of_nil.
  - apply wp_bind. unfold get_installed_extension at 1.
    apply wp_bind, wp_gets. case_bool_decide as Hx; [|by apply wp_raise].
    apply wp_ret, wp_bind.
    eapply wp_cut; [apply IH| |done].
    intros res w' (-> & -> & Hl). apply wp_ret.
    split; [done|]. split; [done|].
    intros r [->|?]%elem_of_cons; auto.
Qed.

(** When the last loop of [load] returns, it has met no id that the
    enumeration misses and has removed nothing: it has only set the
    requirements of the classes it went through. *)
Lemma load_reconcile_returned env depth found size items :
  ∀ w,
    length (_extension_classes w) = size →
    (∀ z, z ∈ items → z ∈ _extension_classes w) →
    wp (load_reconcile env depth found size items)
      (λ _ w',
         (∀ z, z ∈ items → z ∈ found)
         ∧ registered_state w' = registered_state w
         ∧ (∀ z, z ∉ items → cls_info w' !! z = cls_info w !! z)
         ∧ ∀ z, z ∈ items →
                requirements_at w' z = Some (cls_requirements (ext_class env z))
                ∧ ∀ r, r ∈ cls_requirements (ext_class env z) →
                       r ∈ _extension_classes w)
      (λ _ _, True) w.
Proof.
  induction items as [|c items IH]; intros w Hsize Hitems; simpl.
  { apply wp_bind, wp_gets. case_bool_decide; [|by apply wp_raise].
    apply wp_ret. split; [by intros z ?%elem_of_nil|]. split; [done|].
    split; [done|]. by intros z ?%elem_of_nil. }
  apply wp_bind, wp_gets. rewrite bool_decide_eq_true_2 by done.
  apply wp_bind. case_bool_decide as Hc.
  - apply wp_bind.
    eapply wp_cut; [apply map_installed_returned| |done].
    intros reqs w0 (-> & -> & Hreqs).
    unfold update_info, get_info. apply wp_bind, wp_bind, wp_gets, wp_attr.
    destruct (cls_info w !! c) as [i|] eqn:Hi; [|done].
    apply wp_modify.
    set (w1 := set_cls_info
                 (<[c := set_info_requirements (cls_requirements (ext_class env c)) i]>) w).
    assert (registered_state w1 = registered_state w) as Hs1 by done.
    assert (_extension_classes w1 = _extension_classes w) as Hk1 by done.
    assert (requirements_at w1 c = Some (cls_requirements (ext_class env c))) as Hc1.
    { unfold requirements_at, w1. wsimpl. by rewrite lookup_insert_eq. }
    assert (∀ z, z ≠ c → cls_info w1 !! z = cls_info w !! z) as Hi1.
    { intros z Hz. unfold w1. wsimpl. by rewrite lookup_insert_ne. }
    clearbody w1.
    eapply wp_cut; [apply (IH w1)| |done].
    + by rewrite Hk1.
    + intros z Hz. rewrite Hk1. apply Hitems. by right.
    + intros ? w' (Hfound & Hs & Hframe & Hreq). split.
      { intros z [->|?]%elem_of_cons; auto. }
      split; [congruence|]. split.
      { intros z [? ?]%not_elem_of_cons. rewrite Hframe by done. by apply Hi1. }
      intros z Hz. destruct (decide (z ∈ items)) as [Hin|Hnin].
      * destruct (Hreq z Hin) as [? Hr]. split; [done|].
        intros r Hr'. rewrite <-Hk1. by apply Hr.
      * apply elem_of_cons in Hz as [->|?]; [|done]. split; [|done].
        unfold requirements_at in *. by rewrite Hframe.
  - apply wp_bind, wp_gets, wp_bind.
    eapply wp_cut;
      [apply (wp_same_classes _ (λ w', _extension_classes w' = _extension_classes w));
         [|done]| |done].
    { destruct (_extension_instances w !! c).
      - apply same_classes_disable_extension.
      - apply preserves_ret. apply _. }
    intros ? w1 Hk1. simpl in Hk1. apply wp_modify.
    unfold wp. rewrite load_reconcile_changed; [done|].
    wsimpl. rewrite Hk1, <-Hsize.
    pose proof (length_dict_delitem c (_extension_classes w)) as Hlen.
    specialize (Hlen (Hitems c ltac:(by left))). lia.
Qed.

Lemma load_returned env depth entrypoints w :
  wp (load env depth entrypoints)
    (λ _ w',
       classes_grow w w'
       ∧ (∀ z, z ∈ _extension_classes w' ↔
               ∃ ep, ep ∈ entrypoints ∧ ep_load ep = Some z)
       ∧ (∀ z, z ∈ _extension_classes w' →
               requirements_at w' z = Some (cls_requirements (ext_class env z))
               ∧ ∀ r, r ∈ cls_requirements (ext_class env z) →
                      r ∈ _extension_classes w')
       ∧ found_loaded (_extension_classes w') w')
    (λ _ _, True) w.
Proof.
  unfold load. apply wp_bind, wp_gets, wp_bind.
  eapply wp_cut;
    [apply (wp_frame classes_grow); [apply load_entrypoints_classes|];
     apply (load_entrypoints_returned env (objects w) entrypoints [] w);
     by intros z ?%elem_of_nil| |done].
  intros found w1 [[HJ Hf] Hg]. apply wp_bind, wp_gets.
  eapply wp_cut; [by apply load_reconcile_returned| |done].
  intros ? w' (Hfound & Hs & _ & Hreq).
  pose proof (f_equal fst Hs) as Hrt. simpl in Hrt. injection Hrt as Hi Hk.
  rewrite Hk. split; [intros z Hz; rewrite Hk; by apply Hg|].
  split; [|split; [done|]].
  - intros z. split.
    + intros Hz%Hfound%Hf. destruct Hz as [?%elem_of_nil|?]; done.
    + intros Hz. apply (HJ z), Hf. by right.
  - eapply found_loaded_same; [done|]. intros z Hz. by apply HJ, Hfound.
Qed.

(** X15: a [load] that returns has forgotten nothing.  When [load] returns
    normally, every id that was known before is still known, and the ids
    that [get_installed_extensions] lists are exactly those of the classes
    that the entry points of the enumeration load: so whenever the
    enumeration misses an id that was known, [load] does not return
    normally. *)
Theorem load_returns_known env depth entrypoints w w' :
  load env depth entrypoints w = (w', Return tt) →
  (∀ z, z ∈ get_installed_extensions w → z ∈ get_installed_extensions w')
  ∧ (∀ z, z ∈ get_installed_extensions w' ↔
          ∃ ep, ep ∈ entrypoints ∧ ep_load ep = Some z).
Proof.
  intros Hrun. pose proof (load_returned env depth entrypoints w) as H.
  unfold wp in H. rewrite Hrun in H. destruct H as (Hg & Hk & _). done.
Qed.

Lemma load_returns_known_witness :
  (∀ z, z ∈ get_installed_extensions ExtensionManager_init →
        z ∈ get_installed_extensions discovered_world)
  ∧ (∀ z, z ∈ get_installed_extensions discovered_world ↔
          ∃ ep, ep ∈ two_entrypoints ∧ ep_load ep = Some z).
Proof.
  apply (load_returns_known plain_env 10 two_entrypoints ExtensionManager_init
           discovered_world).
  vm_compute. reflexivity.
Defined.

(** X16: a [load] that returns has met every requirement.  When [load]
    returns normally, every known class carries a registration and a list of
    resolved requirements, and every id that a known class declares as a
    requirement is a known id itself, one that [get_installed_extension]
    returns: the enumeration holds, with each class it loads, the classes
    that this class requires.  So whenever a discovered class requires an id
    that is not discovered, [load] does not return normally. *)
Theorem load_returns_resolved env depth entrypoints w w' :
  load env depth entrypoints w = (w', Return tt) →
  resolved w'
  ∧ (∀ z r, z ∈ get_installed_extensions w' →
            r ∈ cls_requirements (ext_class env z) →
            get_installed_extension r w' = (w', Return r))
  ∧ (∀ ep z r, ep ∈ entrypoints → ep_load ep = Some z →
               r ∈ cls_requirements (ext_class env z) →
               ∃ ep', ep' ∈ entrypoints ∧ ep_load ep' = Some r).
Proof.
  intros Hrun. pose proof (load_returned env depth entrypoints w) as H.
  unfold wp in H. rewrite Hrun in H. destruct H as (_ & Hk & Hreq & HJ).
  split; [|split].
  - apply Forall_forall. intros z Hz.
    destruct (HJ z Hz) as (_ & r & -> & _), (Hreq z Hz) as [-> _]. eauto.
  - intros z r Hz Hr. destruct (Hreq z Hz) as [_ Hin].
    unfold get_installed_extension, bind, gets.
    rewrite bool_decide_eq_true_2; [done|]. by apply Hin.
  - intros ep z r Hep Hz Hr. apply Hk.
    assert (z ∈ _extension_classes w') as Hzk by (apply Hk; eauto).
    destruct (Hreq z Hzk) as [_ Hin]. by apply Hin.
Qed.

Lemma load_returns_resolved_witness :
  resolved discovered_world
  ∧ (∀ z r, z ∈ get_installed_extensions discovered_world →
            r ∈ cls_requirements (ext_class plain_env z) →
            get_installed_extension r discovered_world
            = (discovered_world, Return r))
  ∧ (∀ ep z r, ep ∈ two_entrypoints → ep_load ep = Some z →
               r ∈ cls_requirements (ext_class plain_env z) →
               ∃ ep', ep' ∈ two_entrypoints ∧ ep_load ep' = Some r).
Proof.
  apply (load_returns_resolved plain_env 10 two_entrypoints ExtensionManager_init
           discovered_world).
  vm_compute. reflexivity.
Defined.

(** X17: a [load] that returns has started what is recorded as enabled.
    When [load] returns normally, every known class carries a registration,
    and the class has a live instance whenever its registration says
    enabled: in a new process the extensions that were enabled are enabled
    again, without being installed again. *)
Theorem load_returns_enabled env depth entrypoints w w' z :
  load env depth entrypoints w = (w', Return tt) →
  z ∈ get_installed_extensions w' →
  ∃ r, cls_registration w' !! z = Some r
       ∧ (reg_enabled r = true → is_Some (get_enabled_extension z w')).
Proof.
  intros Hrun. pose proof (load_returned env depth entrypoints w) as H.
  unfold wp in H. rewrite Hrun in H. destruct H as (_ & _ & _ & HJ).
  intros Hz. by destruct (HJ z Hz) as (_ & ?).
Qed.

Lemma load_returns_enabled_witness :
  ∃ r, cls_registration (load plain_env 10 two_entrypoints restart_world).1
         !! "pkg.b.B" = Some r
       ∧ (reg_enabled r = true →
          is_Some (get_enabled_extension "pkg.b.B"
                     (load plain_env 10 two_entrypoints restart_world).1)).
Proof.
  apply (load_returns_enabled plain_env 10 two_entrypoints restart_world).
  - vm_compute. reflexivity.
  - by_compute.
Defined.

Lemma load_two_missing_witness :
  "xpkg.extension.X" ∈ _extension_classes (load xy_env 10 [] xy_world).1
  ∨ "ypkg.extension.Y" ∈ _extension_classes (load xy_env 10 [] xy_world).1.
Proof.
  apply (load_two_missing xy_env 10 [] xy_world).
  - discriminate.
  - by_compute.
  - by_compute.
  - intros ep Hep. by apply elem_of_nil in Hep.
Defined.

(** * An admin URLconf that cannot be imported *)

Lemma not_enableable_init env known n c :
  init_ok env c = false → enableable env known n c = false.
Proof.
  intros H. destruct n; [done|]. simpl. rewrite H.
  by rewrite andb_false_r.
Qed.

(** X21: an admin URLconf that cannot be imported.  Let [c] be a discovered
    class that is not enabled, whose requirements can be enabled, whose
    install does not fail and whose constructor does not raise, but which is
    configurable while its admin URLconf cannot be imported.  Then
    [enable_extension] raises
    [ImproperlyConfigured], and it does so after the instance was made and
    stored: [c] is left with a live instance and with a registration that
    says enabled and installed, persisted, while no [extension_initialized]
    notification was sent for it; and a second [enable_extension] returns
    [None] and does nothing, the id counting as enabled already. *)
Theorem enable_extension_import_failure env n depth c w r :
  ready w →
  c ∈ _extension_classes w →
  _extension_instances w !! c = None →
  cls_registration w !! c = Some r →
  forallb (enableable env (_extension_classes w) n)
    (cls_requirements (ext_class env c)) = true →
  n ≤ depth →
  install_ok env c = true →
  construct_ok env c = true →
  init_ok env c = false →
  ∃ w' message e t,
    enable_extension env (S depth) c w = (w', Raise (ImproperlyConfigured message))
    ∧ get_enabled_extension c w' = Some e
    ∧ cls_registration w' !! c = Some (set_reg_enabled true (set_reg_installed true r))
    ∧ objects w' !! reg_class_name r
      = Some (set_reg_enabled true (set_reg_installed true r))
    ∧ trace w' = trace w ++ t
    ∧ (∀ o, extension_initialized c o ∉ t)
    ∧ enable_extension env (S depth) c w' = (w', Return None).
Proof.
  intros Hr Hc Hinst Hreg Hreqs Hle Hok Hctor Hfail.
  cut (wp (enable_extension env (S depth) c) (λ _ _, False)
         (λ x w', (∃ message, x = ImproperlyConfigured message)
            ∧ (∃ e, _extension_instances w' !! c = Some e)
            ∧ cls_registration w' !! c
              = Some (set_reg_enabled true (set_reg_installed true r))
            ∧ objects w' !! reg_class_name r
              = Some (set_reg_enabled true (set_reg_installed true r))
            ∧ ∃ t, trace w' = trace w ++ t ∧ ∀ o, extension_initialized c o ∉ t) w).
  { intros (w' & x & Hrun & [message ->] & [e He] & ? & ? & t & ? & ?)%wp_raises.
    exists w', message, e, t. repeat split; try done.
    cbn [enable_extension]. unfold bind, gets. by rewrite He. }
  cbn [enable_extension]. apply wp_bind, wp_gets. rewrite Hinst.
  apply wp_bind, wp_gets. rewrite bool_decide_eq_true_2 by done.
  apply wp_bind.
  eapply wp_cut;
    [apply (enable_requirements_ok env (_extension_classes w) n depth);
       [intros; by apply enable_extension_ok|done|done|done]| |done].
  intros ? w1 [(Hc1 & Hr1 & _ & _ & Hu1 & tl & Htl & Hil & _) _].
  destruct (Hu1 c (not_enableable_init env _ n c Hfail)) as [Hreg1 Hinst1].
  rewrite Hreg in Hreg1. rewrite Hinst in Hinst1.
  destruct (ready_lookup w1 c Hr1) as (i & r' & Hi & Hreg'); [congruence|].
  assert (r' = r) as -> by congruence.
  destruct (ready_host w1 c i r Hr1) as [Hrm Hset]; [congruence|done|done|].
  assert (∀ o, extension_initialized c o ∉ tl) as Hno.
  { intros o Ho%elem_of_inits%Hil. destruct Ho as [_ (e & He & _)]. congruence. }
  apply wp_bind, wp_try_except.
  eapply wp_cut; [by apply _install_extension_spec| |].
  2: { intros x w2 [(Hbad & _)|(Hbad & _)]; congruence. }
  intros ? w2 (_ & apps & dirs & t2 & -> & Ht2 & _).
  apply wp_bind. eapply wp_update_registration; [by wsimpl; rewrite lookup_insert_eq|].
  apply wp_bind. eapply wp_registration_save; [by wsimpl; rewrite lookup_insert_eq|].
  unfold _init_extension. apply wp_bind, wp_bind, wp_gets.
  wsimpl. rewrite Hinst1. apply wp_bind.
  unfold Extension_init. apply wp_bind, wp_new_object, wp_bind.
  eapply wp_get_registration; [by wsimpl; rewrite lookup_insert_eq|].
  match goal with |- wp (match Settings_load ?r0 ∅ with _ => _ end) _ _ _ =>
    destruct (Settings_loads_load r0 Hset) as [d ->]
  end.
  apply bool_decide_eq_true in Hctor. rewrite Hctor.
  apply wp_bind. eapply wp_cut; [apply create_hooks_spec| |done].
  intros hs w3 (hp & n3 & t3 & -> & Ht3 & _). apply wp_ret.
  apply wp_bind, wp_modify, wp_bind.
  unfold init_ok in Hfail. destruct (cls_is_configurable (ext_class env c));
    [|done]. simpl in Hfail. apply bool_decide_eq_false in Hfail.
  unfold _install_admin_urls. simpl.
  destruct (admin_urlconf env c) as [b|] eqn:Hb; [by destruct Hfail|].
  apply wp_raise. wsimpl. split; [eauto|].
  split; [rewrite lookup_insert_eq; eauto|].
  rewrite !lookup_insert_eq. do 2 (split; [done|]).
  exists (tl ++ t2 ++ [ev_save (set_reg_enabled true (set_reg_installed true r))] ++ t3).
  split; [rewrite Htl; by rewrite <-!app_assoc|].
  intros o Ho. apply elem_of_app in Ho as [Ho|Ho]; [by eapply Hno|].
  apply elem_of_app in Ho as [Ho|Ho].
  { apply elem_of_inits in Ho. rewrite Ht2 in Ho. by apply elem_of_nil in Ho. }
  apply elem_of_cons in Ho as [Ho|Ho]; [done|].
  apply elem_of_inits in Ho. rewrite Ht3 in Ho. by apply elem_of_nil in Ho.
Qed.

Lemma enable_extension_import_failure_witness :
  ∃ w' message e t,
    enable_extension failing_import_env 3 "pkg.b.B" discovered_world
    = (w', Raise (ImproperlyConfigured message))
    ∧ get_enabled_extension "pkg.b.B" w' = Some e
    ∧ cls_registration w' !! "pkg.b.B"
      = Some (set_reg_enabled true (set_reg_installed true
                (RegisteredExtension_new "pkg.b.B" "ProjB")))
    ∧ objects w' !! reg_class_name (RegisteredExtension_new "pkg.b.B" "ProjB")
      = Some (set_reg_enabled true (set_reg_installed true
                (RegisteredExtension_new "pkg.b.B" "ProjB")))
    ∧ trace w' = trace discovered_world ++ t
    ∧ (∀ o, extension_initialized "pkg.b.B" o ∉ t)
    ∧ enable_extension failing_import_env 3 "pkg.b.B" w' = (w', Return None).
Proof.
  apply (enable_extension_import_failure failing_import_env 1 2 "pkg.b.B"
           discovered_world (RegisteredExtension_new "pkg.b.B" "ProjB")).
  - by_compute.
  - by_compute.
  - vm_compute. reflexivity.
  - vm_compute. reflexivity.
  - vm_compute. reflexivity.
  - lia.
  - vm_compute. reflexivity.
  - vm_compute. reflexivity.
  - vm_compute. reflexivity.
Defined.

(** * The application of a disabled extension *)

#[global] Instance keeps_apps_nodup_preorder : PreOrder keeps_apps_nodup.
Proof.
  split; [intros w H; exact H|]. intros w1 w2 w3 H1 H2 H. apply H2, H1, H.
Qed.

Lemma keeps_apps_nodup_set (f : World → World) w :
  INSTALLED_APPS (f w) = INSTALLED_APPS w → keeps_apps_nodup w (f w).
Proof. intros H Hn. by rewrite H. Qed.

Lemma keeps_apps_nodup_remove c :
  preserves keeps_apps_nodup (_remove_from_installed_apps c).
Proof.
  intros w Hn. destruct (cls_info w !! c) as [i|] eqn:Hi.
  - rewrite (_remove_from_installed_apps_run c i w Hi). wsimpl.
    destruct (list_remove _ _) as [l|] eqn:Hl; simpl; [|done].
    by apply (list_remove_NoDup (info_app_name i) (INSTALLED_APPS w)).
  - unfold _remove_from_installed_apps, get_info, bind, gets, attr. by rewrite Hi.
Qed.

Lemma keeps_apps_nodup_uninit_extension e :
  preserves keeps_apps_nodup (_uninit_extension e).
Proof.
  pose proof keeps_apps_nodup_remove.
  unfold _uninit_extension, Extension_shutdown, ExtensionHook_shutdown,
    remove_urlpattern, remove_hook, _reset_templatetags_cache, update_info,
    get_info.
  preserves_tac; by apply keeps_apps_nodup_set.
Qed.

Lemma keeps_apps_nodup_disable_extension depth :
  ∀ c, preserves keeps_apps_nodup (disable_extension depth c).
Proof.
  induction depth as [|depth IH]; intros c; simpl.
  - unfold_steps. preserves_tac.
  - pose proof (preserves_get_dependent_extensions keeps_apps_nodup).
    pose proof keeps_apps_nodup_uninit_extension.
    unfold _uninstall_extension, rmtree, update_registration, registration_save,
      get_registration, get_info.
    preserves_tac; by apply keeps_apps_nodup_set.
Qed.

Section same_apps_state.
Let R := same apps_state.

Lemma same_apps_state_shutdown e : preserves R (Extension_shutdown e).
Proof. unfold_steps. preserves_tac; done. Qed.

Lemma same_apps_state_remove_urlpatterns (o : option (list urlpattern)) :
  preserves R
    (match o with Some l => for_each l remove_urlpattern | None => ret tt end).
Proof. unfold_steps. preserves_tac; done. Qed.

Lemma same_apps_state_update_registration c f : preserves R (update_registration c f).
Proof. unfold_steps. preserves_tac. done. Qed.

Lemma same_apps_state_registration_save c : preserves R (registration_save c).
Proof. unfold_steps. preserves_tac; done. Qed.
End same_apps_state.

(** When [_uninit_extension] returns, the info of the class says not
    enabled, and one occurrence of the application was taken out of
    [INSTALLED_APPS]. *)
Lemma _uninit_extension_application e w :
  wp (_uninit_extension e)
    (λ _ w', ∃ i, cls_info w' !! ext_id e = Some i
                  ∧ info_enabled i = false
                  ∧ INSTALLED_APPS w'
                    = default (INSTALLED_APPS w)
                        (list_remove (info_app_name i) (INSTALLED_APPS w)))
    (λ _ _, True) w.
Proof.
  unfold _uninit_extension. apply wp_bind.
  eapply wp_cut;
    [apply (preserves_wp (same apps_state)), same_apps_state_shutdown| |done].
  intros ? w1 [= Ha1 Hi1]. apply wp_bind.
  eapply wp_cut;
    [apply (preserves_wp (same apps_state)), same_apps_state_remove_urlpatterns
    | |done].
  intros ? w2 [= Ha2 Hi2]. apply wp_bind.
  destruct (cls_info w2 !! ext_id e) as [i|] eqn:Hi.
  2: { unfold _remove_from_installed_apps, get_info.
       apply wp_bind, wp_bind, wp_gets, wp_attr. by rewrite Hi. }
  eapply wp_run; [by apply _remove_from_installed_apps_run|].
  unfold _reset_templatetags_cache. apply wp_bind, wp_emit, wp_bind.
  eapply wp_update_info; [done|].
  apply wp_bind, wp_emit, wp_bind, wp_gets.
  destruct (_extension_instances _ !! ext_id e); [|by apply wp_raise].
  apply wp_bind, wp_modify, wp_emit. wsimpl.
  exists (set_info_enabled false i). rewrite lookup_insert_eq.
  split; [done|]. split; [done|]. simpl. by rewrite Ha2, Ha1.
Qed.

(** X20: the application of a disabled extension.  When [disable_extension]
    returns for an enabled id whose instance is stored under its own id, in
    a world where [INSTALLED_APPS] holds no application twice, the info of
    the class says not enabled and the application of the class is no longer
    in [INSTALLED_APPS], whatever other extensions are enabled: also when an
    extension that stays enabled has the same application. *)
Theorem disable_extension_removes_application depth c w w' (extension : Extension) :
  get_enabled_extension c w = Some extension →
  ext_id extension = c →
  NoDup (INSTALLED_APPS w) →
  disable_extension depth c w = (w', Return tt) →
  ∃ i, cls_info w' !! c = Some i
       ∧ info_enabled i = false
       ∧ (info_app_name i ∉ INSTALLED_APPS w')
       ∧ NoDup (INSTALLED_APPS w').
Proof.
  unfold get_enabled_extension. intros Hc Hid Hnd Hrun.
  cut (wp (disable_extension depth c)
         (λ _ w', ∃ i, cls_info w' !! c = Some i
                       ∧ info_enabled i = false
                       ∧ (info_app_name i ∉ INSTALLED_APPS w')
                       ∧ NoDup (INSTALLED_APPS w'))
         (λ _ _, True) w).
  { unfold wp. by rewrite Hrun. }
  clear Hrun. destruct depth as [|depth]; cbn [disable_extension];
    [by apply wp_raise|].
  apply wp_bind, wp_gets. rewrite Hc.
  apply wp_bind, wp_gets. case_bool_decide as Hk; [|by apply wp_raise].
  apply wp_bind.
  eapply wp_cut;
    [apply (preserves_wp keeps_apps_nodup), preserves_get_dependent_extensions, _
    | |done].
  intros dependents w1 H1. apply wp_bind.
  eapply wp_cut;
    [apply (preserves_wp keeps_apps_nodup), preserves_for_each;
       [apply _|apply keeps_apps_nodup_disable_extension]| |done].
  intros ? w2 H2. apply wp_bind.
  eapply wp_cut; [apply (preserves_wp keeps_apps_nodup)| |done].
  { unfold _uninstall_extension, rmtree, get_info.
    preserves_tac; by apply keeps_apps_nodup_set. }
  intros ? w3 H3. apply wp_bind.
  eapply wp_cut; [apply _uninit_extension_application| |done].
  intros ? w4 (i & Hi & Hen & Happs). rewrite Hid in *. apply wp_bind.
  eapply wp_cut;
    [apply (preserves_wp (same apps_state)), same_apps_state_update_registration
    | |done].
  intros ? w5 [= Ha5 Hi5].
  eapply wp_cut;
    [apply (preserves_wp (same apps_state)), same_apps_state_registration_save
    | |done].
  intros ? w6 [= Ha6 Hi6]. exists i.
  rewrite Hi6, Hi5, Ha6, Ha5, Happs. split; [done|]. split; [done|].
  assert (NoDup (INSTALLED_APPS w3)) as Hnd3.
  { simpl in *. by apply H3, H2, H1. }
  destruct (list_remove (info_app_name i) (INSTALLED_APPS w3)) as [l|] eqn:Hl; simpl.
  - destruct (list_remove_NoDup _ _ _ Hl Hnd3). done.
  - split; [|done]. intros Hin. apply (list_remove_Some (info_app_name i)) in Hin.
    rewrite Hl in Hin. by destruct Hin.
Qed.

Lemma disable_extension_removes_application_witness :
  ∃ i, cls_info (disable_extension 5 "pkg.b.B" enabled_world).1 !! "pkg.b.B" = Some i
       ∧ info_enabled i = false
       ∧ (info_app_name i
          ∉ INSTALLED_APPS (disable_extension 5 "pkg.b.B" enabled_world).1)
       ∧ NoDup (INSTALLED_APPS (disable_extension 5 "pkg.b.B" enabled_world).1).
Proof.
  apply (disable_extension_removes_application 5 "pkg.b.B" enabled_world
           (disable_extension 5 "pkg.b.B" enabled_world).1 enabled_B).
  - vm_compute. reflexivity.
  - reflexivity.
  - by_compute.
  - vm_compute. reflexivity.
Defined.

(** * Starting and stopping an extension *)

Lemma same_urls_state_create_hooks o points :
  preserves (same urls_state) (create_hooks o points).
Proof. induction points; simpl; unfold_steps; preserves_tac; done. Qed.

(** The hooks that the constructor of an extension makes are appended to
    the lists of their hook points, in the order they are made. *)
Lemma create_hooks_exact o points :
  ∀ w, wp (create_hooks o points)
         (λ hs w', (∀ p, point_hooks w' p = point_hooks w p ++ hooks_at p hs)
                   ∧ (∀ h, h ∈ hs → next_obj w ≤ hook_obj h < next_obj w')
                   ∧ NoDup hs
                   ∧ next_obj w ≤ next_obj w')
         (λ _ _, False) w.
Proof.
  induction points as [|p0 points IH]; intros w; simpl.
  { apply wp_ret. split; [intros p; by rewrite app_nil_r|].
    split; [by intros h ?%elem_of_nil|]. split; [apply NoDup_nil_2|done]. }
  apply wp_bind. unfold ExtensionHook_init.
  apply wp_bind, wp_new_object, wp_bind. unfold add_hook.
  apply wp_bind, wp_gets, wp_bind, wp_modify, wp_emit, wp_ret, wp_bind.
  set (h := {| hook_obj := next_obj w; hook_point := p0; hook_extension := o |}).
  match goal with |- wp _ _ _ ?w2 => set (w1 := w2) end.
  assert (∀ p, point_hooks w1 p
               = point_hooks w p ++ (if decide (p0 = p) then [h] else [])) as Hp1.
  { intros p. unfold point_hooks, w1. wsimpl. simpl.
    destruct (decide (p0 = p)) as [->|].
    - by rewrite lookup_insert_eq.
    - rewrite lookup_insert_ne by done. by rewrite app_nil_r. }
  assert (next_obj w1 = S (next_obj w)) as Hn1 by done.
  clearbody w1.
  eapply wp_cut; [apply (IH w1)| |done].
  intros hs w2 (Hp2 & Hobj & Hnd & Hle). apply wp_ret.
  split; [|split; [|split]].
  - intros p. rewrite Hp2, Hp1, <-app_assoc. f_equal.
    unfold hooks_at. rewrite filter_cons. simpl.
    destruct (decide (p0 = p)); done.
  - intros h' [->|Hh']%elem_of_cons; [simpl; lia|].
    apply Hobj in Hh'. lia.
  - apply NoDup_cons. split; [|done]. intros Hin. apply Hobj in Hin.
    simpl in Hin. lia.
  - lia.
Qed.







(** * The LessCSS compiler *)

Lemma str_app_assoc (a b c : string) : ((a ++ b) ++ c = a ++ (b ++ c))%string.
Proof.
  induction a as [|x a IH]; [done|].
  change (String x ((a ++ b) ++ c) = String x (a ++ (b ++ c)))%string.
  by rewrite IH.
Qed.

Lemma str_app_nil_r (a : string) : (a ++ "" = a)%string.
Proof.
  induction a as [|x a IH]; [done|].
  change (String x (a ++ "") = String x a)%string. by rewrite IH.
Qed.

Lemma str_app_cons (a : string) x (b : string) :
  (a ++ String x b = (a ++ String x "") ++ b)%string.
Proof. by rewrite str_app_assoc. Qed.

(** The lines of a text, put together again, are the text. *)
Lemma splitlines_from_concat n :
  ∀ s cur, String.length s ≤ n →
           foldr String.append EmptyString (splitlines_from cur s) = (cur ++ s)%string.
Proof.
  induction n as [|n IH]; intros s cur Hn.
  { destruct s; [|simpl in Hn; lia]. simpl.
    destruct cur; [done|]. simpl. by rewrite !str_app_nil_r. }
  destruct s as [|a s]; simpl.
  { destruct cur; [done|]. simpl. by rewrite !str_app_nil_r. }
  simpl in Hn.
  destruct (Ascii.eqb_spec a LF) as [->|].
  { cbn [foldr]. rewrite IH by lia. change ("" ++ s)%string with s.
    by rewrite <-str_app_cons. }
  destruct (Ascii.eqb_spec a CR) as [->|].
  - destruct s as [|b s].
    + cbn [foldr]. by rewrite str_app_nil_r.
    + simpl in Hn. destruct (Ascii.eqb_spec b LF) as [->|].
      * cbn [foldr]. rewrite IH by lia. change ("" ++ s)%string with s.
        by rewrite str_app_assoc.
      * cbn [foldr]. rewrite IH by (simpl; lia).
        change ("" ++ String b s)%string with (String b s).
        by rewrite <-str_app_cons.
  - rewrite IH by lia. by rewrite <-str_app_cons.
Qed.

Lemma splitlines_concat s : foldr String.append EmptyString (splitlines s) = s.
Proof. unfold splitlines. by rewrite (splitlines_from_concat (String.length s)). Qed.

Lemma compile_lines_no_import host lines :
  ∀ blob,
    (∀ line, line ∈ lines → IMPORT_RE_match line = None) →
    compile_lines host lines blob
    = Ok (blob ++ foldr String.append EmptyString lines)%string.
Proof.
  induction lines as [|line lines IH]; intros blob Hno; simpl.
  - by rewrite str_app_nil_r.
  - rewrite (Hno line) by (by left). rewrite IH by (intros l Hl; apply Hno; by right).
    by rewrite str_app_assoc.
Qed.

(** X22: a style sheet without import lines is sent as it is.  When no line
    of the sheet matches the import pattern, the request that
    [compile_file] makes goes to [BLESS_URL]; its data is the form header,
    the sheet itself, byte for byte, whatever its line ends are, and the
    form trailer; and its content length is the length of this data. *)
Theorem compile_request_verbatim host content :
  (∀ line, line ∈ splitlines content → IMPORT_RE_match line = None) →
  ∃ blob,
    blob = ("--" ++ choose_boundary host ++ CRLF
            ++ "Content-Disposition: form-data; name=" ++ String quote "style.less"
            ++ String quote CRLF
            ++ CRLF
            ++ content
            ++ CRLF ++ "--" ++ choose_boundary host ++ "--" ++ CRLF ++ CRLF)%string
    ∧ compile_request host content
      = Ok {| req_url := BLESS_URL host;
              req_data := blob;
              req_content_type :=
                ("multipart/form-data; boundary=" ++ choose_boundary host)%string;
              req_content_length := pretty (String.length blob) |}
    ∧ (BlessCompiler_compile_file host content "style.less").2
      = match urlopen host
                {| req_url := BLESS_URL host;
                   req_data := blob;
                   req_content_type :=
                     ("multipart/form-data; boundary=" ++ choose_boundary host)%string;
                   req_content_length := pretty (String.length blob) |} with
        | http_ok body => Ok body
        | http_error code body =>
            if decide (code = 400)
            then Err (CompilerError ("Error processing lessCSS files: " ++ body))
            else Err (HTTPError code body)
        | http_unreachable reason => Err (URLError reason)
        end.
Proof.
  intros Hno. eexists. split; [reflexivity|].
  assert (compile_blob host content
          = Ok ("--" ++ choose_boundary host ++ CRLF
                ++ "Content-Disposition: form-data; name=" ++ String quote "style.less"
                ++ String quote CRLF
                ++ CRLF
                ++ content
                ++ CRLF ++ "--" ++ choose_boundary host ++ "--" ++ CRLF ++ CRLF)%string)
    as Hblob.
  { unfold compile_blob. rewrite compile_lines_no_import by done.
    rewrite splitlines_concat. f_equal. by rewrite !str_app_assoc. }
  unfold BlessCompiler_compile_file, compile_request. rewrite Hblob. done.
Qed.

Lemma compile_request_verbatim_witness :
  ∃ blob,
    blob = ("--" ++ choose_boundary bless_host ++ CRLF
            ++ "Content-Disposition: form-data; name=" ++ String quote "style.less"
            ++ String quote CRLF
            ++ CRLF
            ++ ("a { color: red; }" ++ CRLF ++ "b { }")
            ++ CRLF ++ "--" ++ choose_boundary bless_host ++ "--" ++ CRLF ++ CRLF)%string
    ∧ compile_request bless_host ("a { color: red; }" ++ CRLF ++ "b { }")
      = Ok {| req_url := BLESS_URL bless_host;
              req_data := blob;
              req_content_type :=
                ("multipart/form-data; boundary=" ++ choose_boundary bless_host)%string;
              req_content_length := pretty (String.length blob) |}
    ∧ (BlessCompiler_compile_file bless_host
         ("a { color: red; }" ++ CRLF ++ "b { }") "style.less").2
      = match urlopen bless_host
                {| req_url := BLESS_URL bless_host;
                   req_data := blob;
                   req_content_type :=
                     ("multipart/form-data; boundary="
                      ++ choose_boundary bless_host)%string;
                   req_content_length := pretty (String.length blob) |} with
        | http_ok body => Ok body
        | http_error code body =>
            if decide (code = 400)
            then Err (CompilerError ("Error processing lessCSS files: " ++ body))
            else Err (HTTPError code body)
        | http_unreachable reason => Err (URLError reason)
        end.
Proof.
  apply (compile_request_verbatim bless_host ("a { color: red; }" ++ CRLF ++ "b { }")).
  apply Forall_forall. by_compute.
Defined.

(** X23: where [_load_import] finds a file.  It returns the content of the
    file under the first path of [BLESS_IMPORT_PATHS], in the order of the
    setting, under which the file exists, whatever the later paths hold; it
    raises the error of the read when that file cannot be read; and it raises
    [CompilerError], naming the file, exactly when the file exists under
    none of the paths. *)
Theorem BlessCompiler_load_import_result host filename :
  match BlessCompiler_load_import host filename with
  | Ok content =>
      ∃ before p after,
        BLESS_IMPORT_PATHS host = before ++ p :: after
        ∧ (∀ q, q ∈ before →
                bless_files host !! path_join (STATIC_ROOT host) [q; filename] = None)
        ∧ bless_files host !! path_join (STATIC_ROOT host) [p; filename]
          = Some (Some content)
  | Err (CompilerError message) =>
      message = ("Unable to find import file " ++ String quote filename
                 ++ String quote EmptyString)%string
      ∧ ∀ q, q ∈ BLESS_IMPORT_PATHS host →
             bless_files host !! path_join (STATIC_ROOT host) [q; filename] = None
  | Err (IOError path) =>
      ∃ before p after,
        BLESS_IMPORT_PATHS host = before ++ p :: after
        ∧ (∀ q, q ∈ before →
                bless_files host !! path_join (STATIC_ROOT host) [q; filename] = None)
        ∧ path = path_join (STATIC_ROOT host) [p; filename]
        ∧ bless_files host !! path = Some None
  | Err _ => False
  end.
Proof.
  unfold BlessCompiler_load_import.
  induction (BLESS_IMPORT_PATHS host) as [|p paths IH]; cbn [load_import_from].
  { split; [reflexivity|]. intros q Hq. by apply elem_of_nil in Hq. }
  destruct (bless_files host !! path_join (STATIC_ROOT host) [p; filename])
    as [[content|]|] eqn:Hp.
  - exists [], p, paths. split; [done|]. split; [|done]. by intros q ?%elem_of_nil.
  - exists [], p, paths. split; [done|]. split; [|done]. by intros q ?%elem_of_nil.
  - destruct (load_import_from host paths filename) as [content|[message|?|?|path]].
    + destruct IH as (before & p' & after & -> & Hnone & Hfound).
      exists (p :: before), p', after. split; [done|]. split; [|done].
      intros q [->|?]%elem_of_cons; auto.
    + destruct IH as [-> Hnone]. split; [done|].
      intros q [->|?]%elem_of_cons; auto.
    + done.
    + done.
    + destruct IH as (before & p' & after & -> & Hnone & -> & Hfound).
      exists (p :: before), p', after. split; [done|]. split; [|done].
      intros q [->|?]%elem_of_cons; auto.
Qed.

Lemma span_not_quote_app name rest :
  quote ∉ chars name →
  span_not_quote (name ++ String quote rest) = (name, String quote rest).
Proof.
  induction name as [|a name IH]; intros Hq.
  - change (span_not_quote (String quote rest) = ("", String quote rest)%string).
    cbn [span_not_quote]. by rewrite Ascii.eqb_refl.
  - change (String a name ++ String quote rest)%string
      with (String a (name ++ String quote rest))%string.
    cbn [span_not_quote chars] in *. apply not_elem_of_cons in Hq as [Ha Hq].
    destruct (Ascii.eqb_spec a quote) as [->|]; [done|].
    by rewrite IH.
Qed.

Lemma span_not_quote_spec s :
  s = ((span_not_quote s).1 ++ (span_not_quote s).2)%string
  ∧ quote ∉ chars (span_not_quote s).1.
Proof.
  induction s as [|a s [IH1 IH2]]; cbn [span_not_quote].
  - split; [done|]. by intros ?%elem_of_nil.
  - destruct (Ascii.eqb_spec a quote) as [->|Hne]; simpl.
    + split; [done|]. by intros ?%elem_of_nil.
    + split.
      * change (String a s = String a ((span_not_quote s).1 ++ (span_not_quote s).2))%string.
        by rewrite <-IH1.
      * intros [?|?]%elem_of_cons; [by apply Hne|done].
Qed.

(** X24: the lines that [compile_file] takes for imports.  The pattern
    matches a line exactly when the line begins, at its first character,
    with [@import], one blank, a double quote, a name that is not empty and
    holds no double quote, a double quote and a semicolon; the group is the
    name.  A line with blanks before [@import], with single quotes, or with
    anything between the closing quote and the semicolon is no import. *)
Theorem IMPORT_RE_match_iff line name :
  IMPORT_RE_match line = Some name ↔
  name ≠ EmptyString
  ∧ (quote ∉ chars name)
  ∧ ∃ rest,
      line = ("@import " ++ String quote (name ++ String quote (String ";" rest)))%string.
Proof.
  unfold IMPORT_RE_match. split.
  - destruct (str_drop_prefix _ line) as [s|] eqn:Hs; [|done].
    apply str_drop_prefix_Some in Hs.
    destruct (span_not_quote_spec s) as [Hs' Hq].
    destruct (span_not_quote s).1 as [|a n] eqn:Hn; [done|].
    destruct (str_drop_prefix _ (span_not_quote s).2) as [rest|] eqn:Hr; [|done].
    apply str_drop_prefix_Some in Hr. intros [= <-].
    split; [done|]. split; [done|]. exists rest.
    rewrite Hs, Hs', Hr. reflexivity.
  - intros (Hne & Hq & rest & ->).
    replace ("@import " ++ String quote (name ++ String quote (String ";" rest)))%string
      with (("@import " ++ String quote "")
            ++ (name ++ String quote (String ";" rest)))%string by reflexivity.
    rewrite str_drop_prefix_app.
    rewrite span_not_quote_app by done. cbn [fst snd].
    destruct name as [|a name]; [done|].
    change (String quote (String ";" rest))
      with (String quote ";" ++ rest)%string.
    by rewrite str_drop_prefix_app.
Qed.

Lemma endswith_app a b : endswith (a ++ b) b = true.
Proof.
  induction a as [|x a IH].
  - change (endswith b b = true).
    destruct b; cbn [endswith]; by rewrite String.eqb_refl.
  - change (endswith (String x (a ++ b)) b = true). cbn [endswith].
    rewrite IH. by destruct (String.eqb _ _).
Qed.

(** X25: what becomes of an import line.  The line is replaced, whole, by
    the content of the file that [_load_import] finds for its name: what
    follows the semicolon on the line, the line end included, is not sent,
    and the imports of the imported file are not followed.  The name is
    taken as it is when it ends with [.css] or [.less], and gets [.less]
    appended otherwise, so the file looked for always ends with one of the
    two; when [_load_import] raises, the loop over the lines ends with its
    error. *)
Theorem compile_lines_import host name rest lines blob :
  name ≠ EmptyString →
  quote ∉ chars name →
  compile_lines host
    (("@import " ++ String quote (name ++ String quote (String ";" rest)))%string
     :: lines) blob
  = match BlessCompiler_load_import host (import_filename name) with
    | Ok content => compile_lines host lines (blob ++ content)
    | Err e => Err e
    end
  ∧ endswith (import_filename name) ".css"
    || endswith (import_filename name) ".less" = true
  ∧ import_filename name
    = (if endswith name ".css" || endswith name ".less"
       then name else (name ++ ".less")%string).
Proof.
  intros Hne Hq. split; [|split].
  - cbn [compile_lines].
    rewrite (proj2 (IMPORT_RE_match_iff _ name)); [done|].
    split; [done|]. split; [done|]. by exists rest.
  - unfold import_filename.
    destruct (endswith name ".css") eqn:H1; simpl; [by rewrite H1|].
    destruct (endswith name ".less") eqn:H2; simpl.
    + rewrite H2. apply orb_true_r.
    + rewrite endswith_app. apply orb_true_r.
  - unfold import_filename.
    by destruct (endswith name ".css"), (endswith name ".less").
Qed.

Lemma compile_lines_import_witness :
  compile_lines bless_host
    (("@import " ++ String quote ("mixins" ++ String quote (String ";" CRLF)))%string
     :: ["a { .m(); }"%string]) ""
  = match BlessCompiler_load_import bless_host (import_filename "mixins") with
    | Ok content => compile_lines bless_host ["a { .m(); }"%string] ("" ++ content)
    | Err e => Err e
    end
  ∧ endswith (import_filename "mixins") ".css"
    || endswith (import_filename "mixins") ".less" = true
  ∧ import_filename "mixins"
    = (if endswith "mixins" ".css" || endswith "mixins" ".less"
       then "mixins" else ("mixins" ++ ".less"))%string.
Proof.
  apply (compile_lines_import bless_host "mixins" CRLF ["a { .m(); }"%string] "").
  - discriminate.
  - by_compute.
Defined.

(** X26: an import with an absolute name.  [os.path.join] drops what comes
    before a component that begins with a slash, so for a name that begins
    with a slash the path that [_load_import] looks at is the name itself,
    under every import path: when [BLESS_IMPORT_PATHS] is not empty the
    file read is the one of that absolute name, outside [STATIC_ROOT]. *)
Theorem BlessCompiler_load_import_absolute host filename p paths :
  startswith filename "/" = true →
  BLESS_IMPORT_PATHS host = p :: paths →
  (∀ q, path_join (STATIC_ROOT host) [q; filename] = filename)
  ∧ BlessCompiler_load_import host filename
    = match bless_files host !! filename with
      | Some (Some content) => Ok content
      | Some None => Err (IOError filename)
      | None =>
          Err (CompilerError ("Unable to find import file " ++ String quote filename
                              ++ String quote EmptyString))
      end.
Proof.
  intros Habs Hpaths.
  assert (∀ q, path_join (STATIC_ROOT host) [q; filename] = filename) as Hjoin.
  { intros q. unfold path_join. cbn [fold_left]. by rewrite Habs. }
  split; [done|]. unfold BlessCompiler_load_import. rewrite Hpaths. clear Hpaths.
  assert (bless_files host !! filename = None →
          ∀ l, load_import_from host l filename
               = Err (CompilerError ("Unable to find import file "
                                     ++ String quote filename
                                     ++ String quote EmptyString))) as Hnone.
  { intros Hf l. induction l as [|q l IH]; cbn [load_import_from]; [done|].
    by rewrite Hjoin, Hf. }
  cbn [load_import_from]. rewrite Hjoin.
  destruct (bless_files host !! filename) as [[content|]|] eqn:Hf; try done.
  by apply Hnone.
Qed.

Lemma BlessCompiler_load_import_absolute_witness :
  (∀ q, path_join (STATIC_ROOT bless_host) [q; "/srv/static/vendor/less/mixins.less"]
        = "/srv/static/vendor/less/mixins.less"%string)
  ∧ BlessCompiler_load_import bless_host "/srv/static/vendor/less/mixins.less"
    = match bless_files bless_host !! "/srv/static/vendor/less/mixins.less" with
      | Some (Some content) => Ok content
      | Some None => Err (IOError "/srv/static/vendor/less/mixins.less")
      | None =>
          Err (CompilerError
                 ("Unable to find import file "
                  ++ String quote "/srv/static/vendor/less/mixins.less"
                  ++ String quote EmptyString))
      end.
Proof.
  apply (BlessCompiler_load_import_absolute bless_host
           "/srv/static/vendor/less/mixins.less" "less" ["vendor/less"]).
  - vm_compute. reflexivity.
  - vm_compute. reflexivity.
Defined.

Lemma endswith_inv s suffix :
  endswith s suffix = true → ∃ before, s = (before ++ suffix)%string.
Proof.
  induction s as [|a s IH]; cbn [endswith].
  - destruct (String.eqb_spec "" suffix) as [<-|]; [|done]. by exists ""%string.
  - destruct (String.eqb_spec (String a s) suffix) as [<-|].
    + by exists ""%string.
    + intros [before ->]%IH. by exists (String a before).
Qed.

(** X27: the files that the compiler takes.  [match_file] accepts a name
    exactly when the name ends with [.less], in these letters: the name is
    some text followed by [.less]. *)
Theorem BlessCompiler_match_file_iff filename :
  BlessCompiler_match_file filename = true ↔
  ∃ before, filename = (before ++ ".less")%string.
Proof.
  unfold BlessCompiler_match_file. split.
  - apply endswith_inv.
  - intros [before ->]. apply endswith_app.
Qed.

(** * Discovering again *)

Lemma set_cls_info_id f w : f (cls_info w) = cls_info w → set_cls_info f w = w.
Proof. intros H. destruct w; unfold set_cls_info; simpl in *. by rewrite H. Qed.

Lemma set_extension_classes_id f w :
  f (_extension_classes w) = _extension_classes w → set_extension_classes f w = w.
Proof. intros H. destruct w; unfold set_extension_classes; simpl in *. by rewrite H. Qed.

Lemma dict_setitem_elem_of c l : c ∈ l → dict_setitem c l = l.
Proof. intros H. unfold dict_setitem. by rewrite bool_decide_eq_true_2. Qed.

Lemma set_trace_snoc e t w :
  set_trace (λ t0, t0 ++ [e]) (set_trace (λ _, trace w ++ t) w)
  = set_trace (λ _, trace w ++ t ++ [e]) w.
Proof. unfold set_trace. simpl. by rewrite <-app_assoc. Qed.

(** An entry point whose class is already known, registered and, when its
    row says enabled, live, leaves the world as it is. *)
Lemma load_entrypoint_known env registered found ep c i r w :
  ep_load ep = Some c →
  c ∈ _extension_classes w →
  cls_info w !! c = Some i →
  cls_registration w !! c = Some r →
  (reg_enabled r = true → is_Some (_extension_instances w !! c)) →
  load_entrypoint env registered found ep w = (w, Return (dict_setitem c found)).
Proof.
  intros Hep Hc Hi Hr Hlive. unfold load_entrypoint. rewrite Hep.
  cbv [bind gets ret modify get_registration]. rewrite Hi.
  rewrite (set_extension_classes_id _ w) by (by apply dict_setitem_elem_of).
  rewrite Hr. cbv [attr ret]. rewrite ?Hr.
  destruct (reg_enabled r); [|done].
  by destruct (Hlive eq_refl) as [e ->].
Qed.

Lemma load_entrypoint_error env registered found ep w :
  ep_load ep = None →
  load_entrypoint env registered found ep w
  = (set_trace (λ t, t ++ [ev_print (ep_name ep)]) w, Return found).
Proof. intros Hep. unfold load_entrypoint. by rewrite Hep. Qed.

(** In a world that a returning [load] left, the first loop of a second
    [load] over the same enumeration only reports the entry points that do
    not load. *)
Lemma load_entrypoints_again env registered w1 entrypoints :
  (∀ ep c, ep ∈ entrypoints → ep_load ep = Some c →
           c ∈ _extension_classes w1 ∧ is_Some (cls_info w1 !! c)) →
  found_loaded (_extension_classes w1) w1 →
  ∀ found t,
    wp (load_entrypoints env registered found entrypoints)
      (λ _ w', w' = set_trace (λ _, trace w1 ++ t ++ load_errors entrypoints) w1)
      (λ _ _, False)
      (set_trace (λ _, trace w1 ++ t) w1).
Proof.
  intros Hloaded HJ.
  induction entrypoints as [|ep eps IH]; intros found t; simpl.
  { apply wp_ret. by rewrite app_nil_r. }
  apply wp_bind. unfold load_errors. cbn [omap]. fold (load_errors eps).
  destruct (ep_load ep) as [c|] eqn:Hep.
  - destruct (Hloaded ep c) as [Hc [i Hi]]; [by left|done|].
    destruct (HJ c Hc) as (_ & r & Hr & Hlive).
    eapply wp_run; [by eapply (load_entrypoint_known _ _ _ _ c i r)|].
    apply IH. intros ep' c' Hep'. apply Hloaded. by right.
  - eapply wp_run; [by apply load_entrypoint_error|].
    rewrite set_trace_snoc.
    assert (Hloaded' : ∀ ep' c', ep' ∈ eps → ep_load ep' = Some c' →
              c' ∈ _extension_classes w1 ∧ is_Some (cls_info w1 !! c')).
    { intros ep' c' Hep'. apply Hloaded. by right. }
    eapply wp_cut; [apply (IH Hloaded' found (t ++ [ev_print (ep_name ep)]))| |done].
    intros found' w' ->. simpl. f_equal. by rewrite <-!app_assoc.
Qed.

Lemma map_installed_known l w :
  (∀ r, r ∈ l → r ∈ _extension_classes w) →
  map_calls get_installed_extension l w = (w, Return l).
Proof.
  induction l as [|x l IH]; intros Hl; [done|].
  cbn [map_calls]. unfold bind at 1. unfold get_installed_extension at 1.
  unfold bind at 1, gets at 1.
  rewrite bool_decide_eq_true_2 by (apply Hl; by left).
  unfold ret at 1. unfold bind at 1.
  rewrite IH by (intros r Hr; apply Hl; by right). done.
Qed.

Lemma set_info_requirements_id l i :
  info_requirements i = Some l → set_info_requirements l i = i.
Proof. intros H. destruct i. simpl in H. subst. done. Qed.

(** The last loop of [load] leaves the world as it is when every class it
    goes through is in the enumeration and carries its resolved
    requirements already. *)
Lemma load_reconcile_again env depth found size items :
  ∀ w,
    length (_extension_classes w) = size →
    (∀ z, z ∈ items →
          z ∈ found
          ∧ requirements_at w z = Some (cls_requirements (ext_class env z))
          ∧ ∀ r, r ∈ cls_requirements (ext_class env z) →
                 r ∈ _extension_classes w) →
    load_reconcile env depth found size items w = (w, Return tt).
Proof.
  induction items as [|c items IH]; intros w Hsize Hitems; cbn [load_reconcile].
  { unfold bind, gets. by rewrite bool_decide_eq_true_2. }
  destruct (Hitems c) as (Hc & Hreq & Hreqs); [by left|].
  unfold bind at 1, gets at 1. rewrite bool_decide_eq_true_2 by done.
  rewrite bool_decide_eq_true_2 by done.
  unfold bind at 1. unfold bind at 1. rewrite map_installed_known by done.
  unfold requirements_at in Hreq.
  destruct (cls_info w !! c) as [i|] eqn:Hi; [|done]. simpl in Hreq.
  unfold update_info, get_info, bind, gets, attr, modify, ret. rewrite Hi.
  rewrite set_info_requirements_id by done.
  rewrite set_cls_info_id by (by apply insert_id).
  apply IH; [done|]. intros z Hz. apply Hitems. by right.
Qed.

(** X28: discovering again changes nothing.  When [load] has returned
    normally, a second [load] over the same enumeration returns normally
    too, whatever the recursion limit, and leaves the world as the first one
    left it, but for one more report for each entry point that does not
    load: no class is installed or initialized again, no row is created or
    saved, and no requirement changes. *)
Theorem load_again env depth depth' entrypoints w w' :
  load env depth entrypoints w = (w', Return tt) →
  load env depth' entrypoints w'
  = (set_trace (λ t, t ++ load_errors entrypoints) w', Return tt).
Proof.
  intros Hrun. pose proof (load_returned env depth entrypoints w) as H.
  unfold wp in H. rewrite Hrun in H. destruct H as (_ & Hk & Hreq & HJ).
  assert (Hloaded : ∀ ep c, ep ∈ entrypoints → ep_load ep = Some c →
            c ∈ _extension_classes w' ∧ is_Some (cls_info w' !! c)).
  { intros ep c Hep Hc.
    assert (c ∈ _extension_classes w') as Hin by (apply Hk; eauto).
    split; [done|]. destruct (Hreq c Hin) as [Hr _].
    unfold requirements_at in Hr. by destruct (cls_info w' !! c). }
  pose proof (load_entrypoints_again env (objects w') w' entrypoints Hloaded HJ
                [] []) as H1.
  pose proof (load_entrypoints_returned env (objects w') entrypoints [] w') as H2.
  unfold load. unfold bind at 1, gets at 1. unfold bind at 1.
  unfold wp in H1, H2.
  replace (set_trace (λ _, trace w' ++ []) w') with w' in H1
    by (destruct w'; unfold set_trace; simpl; by rewrite app_nil_r).
  destruct (load_entrypoints env (objects w') [] entrypoints w')
    as [w1 [found|e]]; [|done].
  subst w1. destruct H2 as [_ Hf]; [by intros z ?%elem_of_nil|].
  unfold bind, gets. change (_extension_classes (set_trace _ w'))
    with (_extension_classes w').
  apply load_reconcile_again; [done|].
  intros z Hz. split; [apply Hf; right; by apply Hk|]. by apply Hreq.
Qed.

Lemma load_again_witness :
  load plain_env 0 broken_entrypoints
    (load plain_env 10 broken_entrypoints restart_world).1
  = (set_trace (λ t, t ++ load_errors broken_entrypoints)
       (load plain_env 10 broken_entrypoints restart_world).1, Return tt).
Proof.
  apply (load_again plain_env 10 0 broken_entrypoints restart_world).
  vm_compute. reflexivity.
Defined.

(** * A static directory that cannot be removed *)

Lemma set_htdocs_id w : set_htdocs (λ l, l) w = w.
Proof. by destruct w. Qed.

(** X29: a static directory that is in the way.  Let the static directory
    of the extension exist and be one that [rmtree] cannot remove, while the
    package has an [htdocs] resource to copy.  [_install_extension] then
    calls [rmtree], whose error is ignored, and raises the error of
    [copytree], the destination being still there: nothing else has
    happened, and in particular the registration is not marked installed.
    [enable_extension] lets this error through as it is, since it is no
    [InstallExtensionError]: the extension stays as it was, neither
    installed nor enabled. *)
Theorem _install_extension_leftover env depth c i w :
  cls_info w !! c = Some i →
  info_htdocs_path i ∈ htdocs w →
  info_htdocs_path i ∈ unremovable w →
  resource_exists_htdocs env (cls_module (ext_class env c)) = true →
  _install_extension env c w
  = (set_trace (λ t, t ++ [ev_rmtree (info_htdocs_path i)]) w,
     Raise (OSError (info_htdocs_path i)))
  ∧ (c ∈ _extension_classes w →
     _extension_instances w !! c = None →
     cls_requirements (ext_class env c) = [] →
     enable_extension env (S depth) c w
     = (set_trace (λ t, t ++ [ev_rmtree (info_htdocs_path i)]) w,
        Raise (OSError (info_htdocs_path i)))).
Proof.
  intros Hi Hd Hun Hres.
  assert (_install_extension env c w
          = (set_trace (λ t, t ++ [ev_rmtree (info_htdocs_path i)]) w,
             Raise (OSError (info_htdocs_path i)))) as Hrun.
  { unfold _install_extension, get_info. unfold bind at 1. unfold bind at 1.
    unfold gets at 1. unfold attr. rewrite Hi. unfold ret at 1.
    unfold bind at 1. unfold gets at 1. unfold bind at 1.
    rewrite (bool_decide_eq_true_2 _ Hd), rmtree_run.
    rewrite (bool_decide_eq_true_2 _ Hun), set_htdocs_id.
    unfold bind at 1. rewrite Hres. unfold copytree, bind, gets.
    change (htdocs (set_trace _ w)) with (htdocs w).
    by rewrite (bool_decide_eq_true_2 _ Hd). }
  split; [done|]. intros Hc Hn Hreq.
  cbn [enable_extension]. unfold bind at 1. unfold gets at 1. rewrite Hn.
  unfold bind at 1. unfold gets at 1. rewrite (bool_decide_eq_true_2 _ Hc).
  rewrite Hreq. cbn [for_each]. unfold bind at 1. unfold ret at 1.
  unfold bind at 1. unfold try_except. by rewrite Hrun.
Qed.

Lemma _install_extension_leftover_witness :
  _install_extension plain_env "pkg.a.A"
    (with_unremovable ["/static/ext/ProjA"]
       (set_htdocs (λ _, ["/static/ext/ProjA"]) discovered_world))
  = (set_trace (λ t, t ++ [ev_rmtree (info_htdocs_path discovered_info_A)])
       (with_unremovable ["/static/ext/ProjA"]
          (set_htdocs (λ _, ["/static/ext/ProjA"]) discovered_world)),
     Raise (OSError (info_htdocs_path discovered_info_A)))
  ∧ enable_extension plain_env (S 4) "pkg.a.A"
      (with_unremovable ["/static/ext/ProjA"]
         (set_htdocs (λ _, ["/static/ext/ProjA"]) discovered_world))
    = (set_trace (λ t, t ++ [ev_rmtree (info_htdocs_path discovered_info_A)])
         (with_unremovable ["/static/ext/ProjA"]
            (set_htdocs (λ _, ["/static/ext/ProjA"]) discovered_world)),
       Raise (OSError (info_htdocs_path discovered_info_A))).
Proof.
  destruct (_install_extension_leftover plain_env 4 "pkg.a.A" discovered_info_A
              (with_unremovable ["/static/ext/ProjA"]
                 (set_htdocs (λ _, ["/static/ext/ProjA"]) discovered_world)))
    as [Hinstall Henable].
  - vm_compute. reflexivity.
  - by_compute.
  - by_compute.
  - vm_compute. reflexivity.
  - split; [exact Hinstall|]. apply Henable.
    + by_compute.
    + vm_compute. reflexivity.
    + vm_compute. reflexivity.
Defined.

(** * A constructor that raises *)

Lemma create_hooks_owner o points :
  ∀ w, wp (create_hooks o points)
         (λ hs _, hook_point <$> hs = points
                  ∧ ∀ h, h ∈ hs → hook_extension h = o)
         (λ _ _, False) w.
Proof.
  induction points as [|p points IH]; intros w; simpl.
  { apply wp_ret. split; [done|]. by intros h ?%elem_of_nil. }
  apply wp_bind. unfold ExtensionHook_init.
  apply wp_bind, wp_new_object, wp_bind. unfold add_hook.
  apply wp_bind, wp_gets, wp_bind, wp_modify, wp_emit, wp_ret, wp_bind.
  eapply wp_cut; [apply IH| |done].
  intros hs w' [Hp Ho]. apply wp_ret. split; [rewrite fmap_cons; by rewrite Hp|].
  intros h [->|Hh]%elem_of_cons; [done|by apply Ho].
Qed.

(** X30: a constructor that raises after it has made hooks.  Let the class
    carry a registration whose settings can be loaded and have no live
    instance, and let its constructor raise.  Then [_init_extension] raises
    the error of the constructor: no instance is stored, no notification is
    sent, and the info and the registrations are as they were.  But the hooks
    that the constructor had made are registered: each is appended to the
    list of its hook point, its owner being the object that was under
    construction, which no dictionary of the manager holds; nothing shuts
    these hooks down. *)
Theorem _init_extension_constructor_failure env c w r x :
  _extension_instances w !! c = None →
  cls_registration w !! c = Some r →
  Settings_loads r = true →
  cls_init_raises (ext_class env c) = Some x →
  ∃ w' hs t,
    _init_extension env c w = (w', Raise x)
    ∧ hook_point <$> hs = cls_hooks (ext_class env c)
    ∧ (∀ h, h ∈ hs → hook_extension h = next_obj w)
    ∧ (∀ p, point_hooks w' p = point_hooks w p ++ hooks_at p hs)
    ∧ _extension_instances w' = _extension_instances w
    ∧ _extension_classes w' = _extension_classes w
    ∧ cls_info w' = cls_info w
    ∧ cls_registration w' = cls_registration w
    ∧ objects w' = objects w
    ∧ INSTALLED_APPS w' = INSTALLED_APPS w
    ∧ trace w' = trace w ++ t
    ∧ inits t = [].
Proof.
  intros Hn Hr Hset Hx.
  cut (wp (_init_extension env c) (λ _ _, False)
         (λ y w', y = x ∧ ∃ hs t,
            hook_point <$> hs = cls_hooks (ext_class env c)
            ∧ (∀ h, h ∈ hs → hook_extension h = next_obj w)
            ∧ (∀ p, point_hooks w' p = point_hooks w p ++ hooks_at p hs)
            ∧ _extension_instances w' = _extension_instances w
            ∧ _extension_classes w' = _extension_classes w
            ∧ cls_info w' = cls_info w
            ∧ cls_registration w' = cls_registration w
            ∧ objects w' = objects w
            ∧ INSTALLED_APPS w' = INSTALLED_APPS w
            ∧ trace w' = trace w ++ t
            ∧ inits t = []) w).
  { intros (w' & y & Hrun & -> & hs & t & H)%wp_raises. by exists w', hs, t. }
  unfold _init_extension. apply wp_bind, wp_gets. rewrite Hn. apply wp_bind.
  unfold Extension_init. apply wp_bind, wp_new_object, wp_bind.
  eapply wp_get_registration; [done|].
  destruct (Settings_loads_load r Hset) as [d ->]. rewrite Hx.
  apply wp_bind.
  eapply wp_cut;
    [apply wp_and; [apply wp_and; [apply create_hooks_spec|apply create_hooks_exact]
                   |apply create_hooks_owner]
    | |by intros ? ? [[] ?]].
  intros hs w1 [[(hp & n & t & -> & Ht & _) (Hp & _)] [Hpts Ho]].
  apply wp_raise. split; [done|]. exists hs, t.
  split; [done|]. split; [done|]. split.
  { intros p. specialize (Hp p). unfold point_hooks in Hp |- *. wsimpl in Hp.
    wsimpl. exact Hp. }
  by wsimpl.
Qed.

Lemma _init_extension_constructor_failure_witness :
  ∃ w' hs t,
    _init_extension raising_env "pkg.a.A"
      (load raising_env 10 [a_entrypoint] ExtensionManager_init).1
    = (w', Raise (KeyError "color"))
    ∧ hook_point <$> hs = cls_hooks (ext_class raising_env "pkg.a.A")
    ∧ (∀ h, h ∈ hs →
            hook_extension h
            = next_obj (load raising_env 10 [a_entrypoint] ExtensionManager_init).1)
    ∧ (∀ p, point_hooks w' p
            = point_hooks
                (load raising_env 10 [a_entrypoint] ExtensionManager_init).1 p
              ++ hooks_at p hs)
    ∧ _extension_instances w'
      = _extension_instances
          (load raising_env 10 [a_entrypoint] ExtensionManager_init).1
    ∧ _extension_classes w'
      = _extension_classes
          (load raising_env 10 [a_entrypoint] ExtensionManager_init).1
    ∧ cls_info w'
      = cls_info (load raising_env 10 [a_entrypoint] ExtensionManager_init).1
    ∧ cls_registration w'
      = cls_registration
          (load raising_env 10 [a_entrypoint] ExtensionManager_init).1
    ∧ objects w'
      = objects (load raising_env 10 [a_entrypoint] ExtensionManager_init).1
    ∧ INSTALLED_APPS w'
      = INSTALLED_APPS
          (load raising_env 10 [a_entrypoint] ExtensionManager_init).1
    ∧ trace w'
      = trace (load raising_env 10 [a_entrypoint] ExtensionManager_init).1 ++ t
    ∧ inits t = [].
Proof.
  apply (_init_extension_constructor_failure raising_env "pkg.a.A"
           (load raising_env 10 [a_entrypoint] ExtensionManager_init).1
           (RegisteredExtension_new "pkg.a.A" "ProjA")).
  - vm_compute. reflexivity.
  - vm_compute. reflexivity.
  - vm_compute. reflexivity.
  - vm_compute. reflexivity.
Defined.
